(** * EA MCQ review system: the agent pipeline of [agents.js] and the batch
    endpoint of [server.js], embedded in Rocq.

    JavaScript strings are modelled as [string], read as the UTF-8 encoding of
    the text: every pattern the code searches for is ASCII, and an ASCII byte
    never occurs inside the encoding of another character, so searching and
    cutting bytes agrees with searching and cutting code units.

    The outside world (environment variables, the providers' answers, the
    clock and the few built-ins whose algorithms are not part of the
    repository: [JSON.parse], [Number::toString], [toFixed]) is a [Host]
    record; every function that needs it takes it as the section variable
    [host], so each theorem holds for every host. *)

From Stdlib Require Import String Ascii List Bool Arith ZArith Lia PrimFloat.
From Stdlib Require Import DecimalString.
Import ListNotations.
Open Scope string_scope.

Set Implicit Arguments.

(* ------------------------------------------------------------------------- *)
(** ** Strings *)

Module Str.

Definition nl : string := String (ascii_of_nat 10) "".

Fixpoint drop (n : nat) (s : string) : string :=
  match n, s with
  | S k, String _ s' => drop k s'
  | _, _ => s
  end.

Fixpoint rev (s : string) : string :=
  match s with
  | "" => ""
  | String c s' => rev s' ++ String c ""
  end.

(** Canonicalisation of a character under the [i] flag (no [u] flag): only
    the ASCII letters have a case partner below 128. *)
Definition toLower (c : ascii) : ascii :=
  let n := nat_of_ascii c in
  if ((65 <=? n) && (n <=? 90))%nat then ascii_of_nat (n + 32) else c.

Definition eqbChar (ignoreCase : bool) (a b : ascii) : bool :=
  if ignoreCase then Ascii.eqb (toLower a) (toLower b) else Ascii.eqb a b.

(** [matchLit i p s]: the literal [p] matches at the head of [s]; the
    result is what follows the match. *)
Fixpoint matchLit (ignoreCase : bool) (p s : string) : option string :=
  match p with
  | "" => Some s
  | String a p' =>
      match s with
      | "" => None
      | String b s' =>
          if eqbChar ignoreCase a b then matchLit ignoreCase p' s' else None
      end
  end.

(** Offset of the first occurrence of the literal [p] in [s]. *)
Fixpoint findLit (ignoreCase : bool) (p s : string) : option nat :=
  match matchLit ignoreCase p s with
  | Some _ => Some 0
  | None =>
      match s with
      | "" => None
      | String _ s' => option_map S (findLit ignoreCase p s')
      end
  end.

(** [String.prototype.includes]. *)
Definition includes (needle s : string) : bool :=
  match findLit false needle s with Some _ => true | None => false end.

(** [s.indexOf(c)] and [s.lastIndexOf(c)] for a one-character needle;
    [None] is the code's [-1]. *)
Fixpoint indexOf (c : ascii) (s : string) : option nat :=
  match s with
  | "" => None
  | String a s' =>
      if Ascii.eqb a c then Some 0 else option_map S (indexOf c s')
  end.

Fixpoint lastIndexOf (c : ascii) (s : string) : option nat :=
  match s with
  | "" => None
  | String a s' =>
      match lastIndexOf c s' with
      | Some k => Some (S k)
      | None => if Ascii.eqb a c then Some 0 else None
      end
  end.

(** [s.slice(from, to)] for [0 <= from] and [to <= s.length]. *)
Definition slice (from to : nat) (s : string) : string :=
  substring from (to - from) s.

(** *** Global replacement by the empty string

    A regular expression is given by its anchored matcher: [re s] is the
    length of the match that starts at the head of [s], if there is one.
    [s.replace(/re/g, '')] scans from the left, drops each match and resumes
    after it.  [skip] counts the characters of the current match still to be
    dropped.  None of the expressions below matches the empty string. *)
Fixpoint replaceFrom (re : string -> option nat) (skip : nat) (s : string)
  : string :=
  match s with
  | "" => ""
  | String c s' =>
      match skip with
      | S k => replaceFrom re k s'
      | O =>
          match re s with
          | Some (S k) => replaceFrom re k s'
          | _ => String c (replaceFrom re 0 s')
          end
      end
  end.

Definition replaceAll (re : string -> option nat) (s : string) : string :=
  replaceFrom re 0 s.

(** An optional newline after a match: [\n?] is greedy. *)
Definition optNewline (rest : string) : nat :=
  match rest with
  | String c _ => if Ascii.eqb c (ascii_of_nat 10) then 1 else 0
  | "" => 0
  end.

(** [/```json\n?/gi] *)
Definition fenceJsonRe (s : string) : option nat :=
  match matchLit true "```json" s with
  | Some rest => Some (7 + optNewline rest)
  | None => None
  end.

(** [/```\n?/g] *)
Definition fenceRe (s : string) : option nat :=
  match matchLit false "```" s with
  | Some rest => Some (3 + optNewline rest)
  | None => None
  end.

(** [/<think>[\s\S]*?<\/think>/gi]: the lazy body stops at the first
    closing marker after the opening one. *)
Definition thinkRe (s : string) : option nat :=
  match matchLit true "<think>" s with
  | Some rest =>
      match findLit true "</think>" rest with
      | Some k => Some (7 + k + 8)
      | None => None
      end
  | None => None
  end.

(** *** [String.prototype.trim]

    The code points ECMAScript calls WhiteSpace or LineTerminator, in
    UTF-8. *)
Definition byte (n : N) : ascii := ascii_of_N n.

Definition utf8 (cp : N) : string :=
  if (cp <? 128)%N then String (byte cp) ""
  else if (cp <? 2048)%N then
    String (byte (192 + cp / 64)) (String (byte (128 + cp mod 64)) "")
  else
    String (byte (224 + cp / 4096))
      (String (byte (128 + (cp / 64) mod 64))
         (String (byte (128 + cp mod 64)) "")).

Definition whiteSpace : list string :=
  map utf8
    [ 9; 10; 11; 12; 13; 32; 160; 5760;
      8192; 8193; 8194; 8195; 8196; 8197; 8198; 8199; 8200; 8201; 8202;
      8232; 8233; 8239; 8287; 12288; 65279 ]%N.

(** Length of the token of [tokens] found at the head of [s]. *)
Fixpoint tokenAt (tokens : list string) (s : string) : option nat :=
  match tokens with
  | [] => None
  | t :: rest =>
      match matchLit false t s with
      | Some _ => Some (String.length t)
      | None => tokenAt rest s
      end
  end.

Fixpoint stripTokens (tokens : list string) (fuel : nat) (s : string)
  : string :=
  match fuel with
  | O => s
  | S f =>
      match tokenAt tokens s with
      | Some n => stripTokens tokens f (drop n s)
      | None => s
      end
  end.

Definition trimStart (s : string) : string :=
  stripTokens whiteSpace (String.length s) s.

Definition trimEnd (s : string) : string :=
  rev (stripTokens (map rev whiteSpace) (String.length s) (rev s)).

Definition trim (s : string) : string := trimEnd (trimStart s).

End Str.

(** The text [parseJSON] hands to [JSON.parse]: fences and reasoning trace
    removed, trimmed, then cut from the first [{] to the last [}].  [None]
    is the "No JSON object found" case. *)
Definition cleanResponse (raw : string) : string :=
  Str.trim
    (Str.replaceAll Str.thinkRe
       (Str.replaceAll Str.fenceRe
          (Str.replaceAll Str.fenceJsonRe raw))).

Definition jsonSpan (clean : string) : option string :=
  match Str.indexOf "{" clean, Str.lastIndexOf "}" clean with
  | Some start, Some end_ => Some (Str.slice start (end_ + 1) clean)
  | _, _ => None
  end.

(* ------------------------------------------------------------------------- *)
(** ** JavaScript values

    What [JSON.parse] can produce, plus [undefined].  An object is its list of
    own properties; a property that occurs twice is read at its first
    occurrence.  None of the property names the code reads is a member of
    [Object.prototype], so reading goes through own properties only. *)

Inductive value : Type :=
| VUndefined
| VNull
| VBool (b : bool)
| VNumber (x : float)
| VString (s : string)
| VArray (items : list value)
| VObject (fields : list (string * value)).

Definition JsObject : Type := list (string * value).

Fixpoint get (o : JsObject) (key : string) : value :=
  match o with
  | [] => VUndefined
  | (k, v) :: rest => if String.eqb k key then v else get rest key
  end.

Definition hasOwn (o : JsObject) (key : string) : bool :=
  existsb (fun kv => String.eqb (fst kv) key) o.

(** [r?.key] for an agent result that is [null] when the agent did not run. *)
Definition opt (r : option JsObject) (key : string) : value :=
  match r with
  | Some o => get o key
  | None => VUndefined
  end.

Definition truthy (v : value) : bool :=
  match v with
  | VUndefined | VNull => false
  | VBool b => b
  | VNumber x => negb (PrimFloat.is_zero x || PrimFloat.is_nan x)
  | VString s => negb (String.eqb s "")
  | VArray _ | VObject _ => true
  end.

(** [a || b] *)
Definition or (a b : value) : value := if truthy a then a else b.
Infix "|||" := or (at level 50, left associativity).

(** [v === 'literal'] *)
Definition isString (literal : string) (v : value) : bool :=
  match v with
  | VString s => String.eqb s literal
  | _ => false
  end.

(** Thrown values: every [throw] of the code and of the runtime raises an
    [Error] object; the code reads only its [message]. *)
Record exn : Type := { name : string; message : string }.

Definition Error (msg : string) : exn := {| name := "Error"; message := msg |}.
Definition TypeError (msg : string) : exn :=
  {| name := "TypeError"; message := msg |}.

Inductive outcome (A : Type) : Type :=
| Returned (a : A)
| Thrown (e : exn).
Arguments Thrown {A} e.

(** [Array.prototype.join]: [undefined] and [null] elements give the empty
    string, the others are converted by [str]. *)
Definition joinWith (str : value -> outcome string) (sep : string)
  : list value -> outcome string :=
  fix go (items : list value) : outcome string :=
    match items with
    | [] => Returned ""
    | x :: rest =>
        let element :=
          match x with
          | VUndefined | VNull => Returned ""
          | _ => str x
          end in
        match element with
        | Thrown e => Thrown e
        | Returned s =>
            match rest with
            | [] => Returned s
            | _ =>
                match go rest with
                | Thrown e => Thrown e
                | Returned r => Returned (s ++ sep ++ r)
                end
            end
        end
    end.

Definition natToString (n : nat) : string :=
  NilEmpty.string_of_uint (Nat.to_uint n).

(* ------------------------------------------------------------------------- *)
(** ** Data model *)

Module Question.
(** A row as [normalizeRow] builds it: every field is a string, empty when
    the column is missing. *)
Record t : Type := {
  code : string;
  chapter : string;
  unit : string;
  question : string;
  optionA : string;
  optionB : string;
  optionC : string;
  optionD : string;
  rightOption : string;
  feedback : string;
  aiAnswer : string;
  finalAnswer : string;
  finalExplanation : string;
  difficulty : string;
  category : string;
  queries : string
}.
End Question.

Inductive Provider := groq | openrouter.
Inductive Tier := fast | smart | reason.

Definition providerName (p : Provider) : string :=
  match p with groq => "groq" | openrouter => "openrouter" end.

Module MODELS.
Definition baseURL (p : Provider) : string :=
  match p with
  | groq => "https://api.groq.com/openai/v1/chat/completions"
  | openrouter => "https://openrouter.ai/api/v1/chat/completions"
  end.

Definition models (p : Provider) (t : Tier) : string :=
  match p, t with
  | groq, fast => "llama-3.1-8b-instant"
  | groq, smart => "llama-3.3-70b-versatile"
  | groq, reason => "deepseek-r1-distill-llama-70b"
  | openrouter, fast => "meta-llama/llama-3.2-3b-instruct:free"
  | openrouter, smart => "meta-llama/llama-3.1-70b-instruct:free"
  | openrouter, reason => "deepseek/deepseek-r1:free"
  end.
End MODELS.

(** A rendered prompt: which template, and the values substituted into it.
    The wording of the templates plays no part in the control flow. *)
Inductive Prompt : Type :=
| PlanPrompt (q : Question.t)
| VerifyPrompt (q : Question.t)
| ConflictPrompt (q : Question.t) (correctAnswer verdict : string)
| DifficultyPrompt (q : Question.t)
| UnitPrompt (q : Question.t)
| ExplanationPrompt (q : Question.t) (explanation : string)
| MemoryPrompt (q : Question.t)
| CalculationPrompt (q : Question.t).

(** One invocation of [callLLM]. *)
Record Call : Type := {
  prompt : Prompt;
  provider : Provider;
  tier : Tier;
  temperature : float
}.

(** The request [callLLM] hands to [fetch]. *)
Record Request : Type := {
  url : string;
  headers : list (string * string);
  model : string;
  messages : Prompt;
  req_temperature : float;
  max_tokens : nat
}.

(** What comes back, as far as [callLLM] looks at it. *)
Inductive Response : Type :=
| Rejected (e : exn)
(** [fetch], [res.text()] or [res.json()] rejects, or reading the content
    of the body throws *)
| NotOk (status : nat) (body : string)
(** [!res.ok], with [res.status] and [await res.text()] *)
| Content (text : string)
(** [data.choices?.[0]?.message?.content || ''] *).

Record Host : Type := {
  getKey : Provider -> option string;
(** [process.env.GROQ_API_KEY], [process.env.OPENROUTER_API_KEY] *)
fetch : list Request -> Request -> Response;
(** the answer to a request, given the requests sent before it *)
JSON_parse : string -> outcome JsObject;
(** [JSON.parse] on a text that starts with an opening brace: an object,
    or a [SyntaxError] *)
Number_toString : float -> string;
Date_now : list Call -> Z;
(** the clock, read after the given calls *)
toFixed1 : Z -> string
(** [(ms / 1000).toFixed(1)] *)
}.

(** The mutable world of one server process: the array [agentLog] of the
    review in progress, what was printed, and the calls made so far. *)
Record State : Type := {
  agentLog : list string;
  console : list string;
  calls : list Call;
  requests : list Request
}.

(* ------------------------------------------------------------------------- *)
(** ** Effects: state and exceptions *)

Definition M (A : Type) : Type := State -> outcome A * State.

Definition ret {A} (a : A) : M A := fun st => (Returned a, st).

Definition throw {A} (e : exn) : M A := fun st => (Thrown e, st).

Definition bind {A B} (m : M A) (k : A -> M B) : M B :=
  fun st =>
    match m st with
    | (Returned a, st') => k a st'
    | (Thrown e, st') => (Thrown e, st')
    end.

(** [try { m } catch (e) { handler e }] *)
Definition tryCatch {A} (m : M A) (handler : exn -> M A) : M A :=
  fun st =>
    match m st with
    | (Returned a, st') => (Returned a, st')
    | (Thrown e, st') => handler e st'
    end.

Definition lift {A} (o : outcome A) : M A := fun st => (o, st).

Declare Scope monad_scope.
Delimit Scope monad_scope with monad.
Notation "x <- m ;; k" := (bind m (fun x => k))
  (at level 61, m at next level, right associativity) : monad_scope.
Notation "m ;; k" := (bind m (fun _ => k))
  (at level 61, right associativity) : monad_scope.
Open Scope monad_scope.

(** [agentLog.push(msg)] *)
Definition push (msg : string) : M unit :=
  fun st =>
    (Returned tt,
     {| agentLog := agentLog st ++ [msg]; console := console st;
        calls := calls st; requests := requests st |}).

Definition console_log (msg : string) : M unit :=
  fun st =>
    (Returned tt,
     {| agentLog := agentLog st; console := console st ++ [msg];
        calls := calls st; requests := requests st |}).

(** [const agentLog = []] *)
Definition newLog : M unit :=
  fun st =>
    (Returned tt,
     {| agentLog := []; console := console st;
        calls := calls st; requests := requests st |}).

Definition readLog : M (list string) := fun st => (Returned (agentLog st), st).

(** [Promise.all] over agent calls.  Every operand is called, so every
    selected agent runs whether or not another one rejects; the await then
    throws the first rejection.

    The model runs the operands one after the other, each to its end, in
    the order of the array.  The running program interleaves them: each
    operand logs its first line and sends its first request when it is
    called, the later lines and requests follow as the providers answer,
    and a rejection is delivered at once, while the other operands go on
    and append to the same array afterwards.  The model is thus one
    serialisation of a round: the order of the lines and of the requests
    of one round, and which lines are present at the moment a rejected
    round returns, are the model's own.  What is stated of a round is which
    agents run, what each returns given the answers it gets, and which
    lines the log holds, not that order. *)
Definition settle {A} (m : M A) : M (outcome A) :=
  fun st => let (o, st') := m st in (Returned o, st').

Definition both {A B} (a : outcome A) (b : outcome B) : outcome (A * B) :=
  match a, b with
  | Returned x, Returned y => Returned (x, y)
  | Thrown e, _ => Thrown e
  | _, Thrown e => Thrown e
  end.

Module Review.
(** The object [reviewQuestion] returns.  A property the object literal
    does not set is [VUndefined]. *)
Record t : Type := {
  status : string;
  needsHuman : value;
  hasConflict : bool;
  elapsed : value;
  agentLog : list string;
  plan : value;
  finalAnswer : value;
  correctAnswer : value;
  answerVerdict : value;
  answerConfidence : value;
  answerReasoning : value;
  conflictType : value;
  conflictExplanation : value;
  difficulty : value;
  difficultyReasoning : value;
  difficultyChanged : value;
  unitMatch : value;
  suggestedUnit : value;
  questionType : value;
  yearDependentReason : value;
  explanationQuality : value;
  explanationScore : value;
  explanationImprovements : value;
  explanationSuggestion : value;
  needsCalculation : value;
  calculationSteps : value;
  thresholds : value;
  memoryTrick : value;
  memoryType : value;
  keyConceptSummary : value;
  queries : string
}.
End Review.

Section Agents.
Variable host : Host.

(** [ToString], as a template literal applies it.  An object converts
    through [Object.prototype.toString] unless it has an own property named
    toString, which after [JSON.parse] is never callable: the conversion
    then finds no primitive and throws. *)
Fixpoint toString (v : value) : outcome string :=
  match v with
  | VUndefined => Returned "undefined"
  | VNull => Returned "null"
  | VBool b => Returned (if b then "true" else "false")
  | VNumber x => Returned (Number_toString host x)
  | VString s => Returned s
  | VArray items => joinWith toString "," items
  | VObject fields =>
      if hasOwn fields "toString"
      then Thrown (TypeError "Cannot convert object to primitive value")
      else Returned "[object Object]"
  end.

(** [${v}] *)
Definition str (v : value) : M string := lift (toString v).

(** [v.join(sep)].  The messages are abridged: the engine names the
    callee expression in the second, and tells [null] from [undefined] in
    the first. *)
Definition join (v : value) (sep : string) : outcome string :=
  match v with
  | VUndefined | VNull =>
      Thrown (TypeError "Cannot read properties of undefined (reading 'join')")
  | VArray items => joinWith toString sep items
  | _ => Thrown (TypeError "join is not a function")
  end.

(** [v?.join(sep)] *)
Definition optJoin (v : value) (sep : string) : outcome value :=
  match v with
  | VUndefined | VNull => Returned VUndefined
  | _ =>
      match join v sep with
      | Returned s => Returned (VString s)
      | Thrown e => Thrown e
      end
  end.

(** [${v.length}] *)
Definition lengthText (v : value) : outcome string :=
  match v with
  | VUndefined | VNull =>
      Thrown (TypeError "Cannot read properties of undefined (reading 'length')")
  | VArray items => Returned (natToString (List.length items))
  | VString s => Returned (natToString (String.length s))
  | _ => Returned "undefined"
  end.

(** [new Set(v)] and [set.has(name)] *)
Definition newSet (v : value) : outcome (list value) :=
  match v with
  | VUndefined | VNull => Returned []
  | VArray items => Returned items
  | VString s =>
      Returned (map (fun c => VString (String c "")) (list_ascii_of_string s))
  | _ => Thrown (TypeError "object is not iterable")
  end.

Definition has (set : list value) (name : string) : bool :=
  existsb (isString name) set.

(* ----------------------------------------------------------------------- *)
(** *** Core LLM call *)

Definition missingKey (p : Provider) : exn :=
  Error ("Missing API key for " ++ providerName p ++ ". Check your .env file.").

Definition request (apiKey : string) (c : Call) : Request :=
  {| url := MODELS.baseURL (provider c);
     headers :=
       [("Content-Type", "application/json");
        ("Authorization", "Bearer " ++ apiKey)]
       ++ match provider c with
          | openrouter =>
              [("HTTP-Referer", "https://github.com/ea-mcq-review");
               ("X-Title", "EA MCQ Review System")]
          | groq => []
          end;
     model := MODELS.models (provider c) (tier c);
     messages := prompt c;
     req_temperature := temperature c;
     max_tokens := 1200 |}.

Definition callLLM (c : Call) : M string :=
  fun st =>
    let st1 :=
      {| agentLog := agentLog st; console := console st;
         calls := calls st ++ [c]; requests := requests st |} in
    match getKey host (provider c) with
    | None => (Thrown (missingKey (provider c)), st1)
    | Some apiKey =>
        if String.eqb apiKey "" || Str.includes "your_" apiKey
        then (Thrown (missingKey (provider c)), st1)
        else
          let req := request apiKey c in
          let st2 :=
            {| agentLog := agentLog st1; console := console st1;
               calls := calls st1; requests := requests st1 ++ [req] |} in
          match fetch host (requests st1) req with
          | Rejected e => (Thrown e, st2)
          | NotOk status body =>
              (Thrown (Error (providerName (provider c) ++ " API error "
                              ++ natToString status ++ ": " ++ body)), st2)
          | Content text => (Returned (Str.trim text), st2)
          end
    end.

Definition llm (p : Prompt) (pr : Provider) (t : Tier) (temp : float)
  : M string :=
  callLLM {| prompt := p; provider := pr; tier := t; temperature := temp |}.

(** The default [temperature = 0.1], and the memory trick's 0.7. *)
Definition defaultTemperature : float := 0x1.999999999999ap-4%float.
Definition creativeTemperature : float := 0x1.6666666666666p-1%float.

(* ----------------------------------------------------------------------- *)
(** *** Safe JSON parse *)

Definition parseJSON (raw : string) : outcome JsObject :=
  match jsonSpan (cleanResponse raw) with
  | None => Thrown (Error "No JSON object found in response")
  | Some span => JSON_parse host span
  end.

(* ----------------------------------------------------------------------- *)
(** *** Agent 1: Orchestrator *)

(** [/\$|million|thousand|percent|%/.test(text)] *)
Definition numericText (text : string) : bool :=
  existsb (fun marker => Str.includes marker text)
    ["$"; "million"; "thousand"; "percent"; "%"].

Definition defaultPlan (question : Question.t) : JsObject :=
  [ ("agents",
     VArray [VString "answer_verifier"; VString "difficulty_rater";
             VString "unit_checker"; VString "explanation_critic";
             VString "memory_trick_generator"]);
    ("reasoning", VString "Default full review");
    ("hasAnswerConflict",
     VBool (negb (String.eqb (Question.rightOption question)
                             (Question.aiAnswer question))));
    ("isNumerical", VBool (numericText (Question.question question))) ].

Definition orchestrate (question : Question.t) : M JsObject :=
  let log := fun msg => push msg ;; console_log msg in
  log ("🎯 Orchestrator: Analyzing question " ++ Question.code question
       ++ "...") ;;
  let planPrompt := PlanPrompt question in
  tryCatch
    (raw <- llm planPrompt groq fast defaultTemperature ;;
     plan <- lift (parseJSON raw) ;;
     agents <- lift (join (get plan "agents") ", ") ;;
     reasoning <- str (get plan "reasoning") ;;
     log ("🎯 Orchestrator plan: [" ++ agents ++ "] — " ++ reasoning) ;;
     ret plan)
    (fun e =>
       log ("⚠ Orchestrator fallback to default plan: " ++ message e) ;;
       ret (defaultPlan question)).

(* ----------------------------------------------------------------------- *)
(** *** Agent 2: Answer Verifier *)

Definition verifierDefault (e2 : exn) : JsObject :=
  [ ("correctAnswer", VString "?");
    ("confidence", VString "low");
    ("verdict", VString "uncertain");
    ("needsHumanReview", VBool true);
    ("humanReviewReason", VString ("Agent failed: " ++ message e2)) ].

Definition verifierStart : string :=
  "✅ Answer Verifier: Checking correct answer...".

Definition answerVerifier (question : Question.t) : M JsObject :=
  push verifierStart ;;
  let prompt := VerifyPrompt question in
  tryCatch
    (raw <- tryCatch
              (llm prompt groq reason defaultTemperature)
              (fun _ => llm prompt groq smart defaultTemperature) ;;
     result <- lift (parseJSON raw) ;;
     correctAnswer <- str (get result "correctAnswer") ;;
     confidence <- str (get result "confidence") ;;
     verdict <- str (get result "verdict") ;;
     push ("✅ Answer Verifier: " ++ correctAnswer ++ " (" ++ confidence
           ++ " confidence) — " ++ verdict) ;;
     ret result)
    (fun _ =>
       tryCatch
         (raw <- llm prompt openrouter smart defaultTemperature ;;
          result <- lift (parseJSON raw) ;;
          correctAnswer <- str (get result "correctAnswer") ;;
          push ("✅ Answer Verifier (OpenRouter fallback): "
                ++ correctAnswer) ;;
          ret result)
         (fun e2 =>
            push ("⚠ Answer Verifier failed: " ++ message e2) ;;
            ret (verifierDefault e2))).

(* ----------------------------------------------------------------------- *)
(** *** Agent 3: Conflict Analyzer *)

Definition conflictDefault (e : exn) : JsObject :=
  [ ("resolution", VString "genuinely_ambiguous");
    ("finalRecommendedAnswer", VString "?");
    ("conflictType", VString "unclear");
    ("escalateToHuman", VBool true);
    ("escalationReason", VString (message e)) ].

Definition conflictStart : string :=
  "⚡ Conflict Analyzer: Investigating answer discrepancy...".

Definition conflictAnalyzer (question : Question.t) (answerResult : JsObject)
  : M JsObject :=
  push conflictStart ;;
  correctAnswer <- str (get answerResult "correctAnswer") ;;
  verdict <- str (get answerResult "verdict") ;;
  let prompt := ConflictPrompt question correctAnswer verdict in
  tryCatch
    (raw <- llm prompt groq smart defaultTemperature ;;
     result <- lift (parseJSON raw) ;;
     resolution <- str (get result "resolution") ;;
     conflictType <- str (get result "conflictType") ;;
     push ("⚡ Conflict Analyzer: " ++ resolution ++ " — " ++ conflictType) ;;
     ret result)
    (fun e =>
       push ("⚠ Conflict Analyzer failed: " ++ message e) ;;
       ret (conflictDefault e)).

(* ----------------------------------------------------------------------- *)
(** *** Agent 4: Difficulty Rater *)

(** [a || b] on strings *)
Definition orElse (a b : string) : string :=
  if String.eqb a "" then b else a.

Definition difficultyDefault (question : Question.t) : JsObject :=
  [ ("difficulty",
     VString (orElse (Question.difficulty question) "Medium"));
    ("reasoning", VString "Agent failed");
    ("currentRatingCorrect", VBool true);
    ("suggestedChange", VString "keep") ].

Definition difficultyStart : string :=
  "📊 Difficulty Rater: Assessing difficulty level...".

Definition difficultyRater (question : Question.t) : M JsObject :=
  push difficultyStart ;;
  let prompt := DifficultyPrompt question in
  tryCatch
    (raw <- llm prompt groq fast defaultTemperature ;;
     result <- lift (parseJSON raw) ;;
     difficulty <- str (get result "difficulty") ;;
     suggestedChange <- str (get result "suggestedChange") ;;
     push ("📊 Difficulty Rater: " ++ difficulty ++ " (" ++ suggestedChange
           ++ ")") ;;
     ret result)
    (fun e =>
       push ("⚠ Difficulty Rater failed: " ++ message e) ;;
       ret (difficultyDefault question)).

(* ----------------------------------------------------------------------- *)
(** *** Agent 5: Unit Checker *)

Definition unitDefault (question : Question.t) : JsObject :=
  [ ("belongsInUnit", VBool true);
    ("confidence", VString "low");
    ("reasoning", VString "Agent failed");
    ("suggestedUnit", VString (Question.unit question));
    ("questionType", VString "Static Question") ].

Definition unitChecker (question : Question.t) : M JsObject :=
  push "📂 Unit Checker: Verifying unit placement..." ;;
  let prompt := UnitPrompt question in
  tryCatch
    (raw <- llm prompt groq fast defaultTemperature ;;
     result <- lift (parseJSON raw) ;;
     placement <-
       (if truthy (get result "belongsInUnit")
        then ret "✓ correct unit"
        else suggestedUnit <- str (get result "suggestedUnit") ;;
             ret ("✗ wrong unit → " ++ suggestedUnit)) ;;
     push ("📂 Unit Checker: " ++ placement) ;;
     ret result)
    (fun e =>
       push ("⚠ Unit Checker failed: " ++ message e) ;;
       ret (unitDefault question)).

(* ----------------------------------------------------------------------- *)
(** *** Agent 6: Explanation Critic *)

Definition explanationMissing : JsObject :=
  [ ("quality", VString "Missing");
    ("score", VNumber 0%float);
    ("missingElements", VArray [VString "Full explanation needed"]);
    ("improvementSuggestion",
     VString "No explanation exists — needs to be written from scratch");
    ("needsCalculation", VBool false) ].

Definition explanationDefault : JsObject :=
  [ ("quality", VString "Unknown");
    ("score", VNumber 5%float);
    ("missingElements", VArray []);
    ("improvementSuggestion",
     VString "Agent failed — manual review needed");
    ("needsCalculation", VBool false) ].

Definition explanationStart : string :=
  "📝 Explanation Critic: Reviewing explanation quality...".

Definition explanationNotice : string :=
  "📝 Explanation Critic: No explanation found — flagging for creation".

Definition explanationCritic (question : Question.t) : M JsObject :=
  push explanationStart ;;
  let explanation :=
    orElse (orElse (Question.finalExplanation question)
                   (Question.feedback question)) "" in
  if String.eqb explanation "" then
    push explanationNotice ;;
    ret explanationMissing
  else
    let prompt := ExplanationPrompt question explanation in
    tryCatch
      (raw <- llm prompt groq smart defaultTemperature ;;
       result <- lift (parseJSON raw) ;;
       quality <- str (get result "quality") ;;
       score <- str (get result "score") ;;
       push ("📝 Explanation Critic: " ++ quality ++ " (" ++ score
             ++ "/10)") ;;
       ret result)
      (fun e =>
         push ("⚠ Explanation Critic failed: " ++ message e) ;;
         ret explanationDefault).

(* ----------------------------------------------------------------------- *)
(** *** Agent 7: Memory Trick Generator *)

Definition memoryDefault : JsObject :=
  [ ("memoryTrick", VString "");
    ("type", VString "none");
    ("keyConceptSummary", VString "") ].

Definition memoryTrickGenerator (question : Question.t) : M JsObject :=
  push "💡 Memory Trick Generator: Creating mnemonic..." ;;
  let prompt := MemoryPrompt question in
  tryCatch
    (raw <- llm prompt groq fast creativeTemperature ;;
     result <- lift (parseJSON raw) ;;
     type <- str (get result "type") ;;
     memoryTrick <- str (get result "memoryTrick") ;;
     push ("💡 Memory Trick: [" ++ type ++ "] " ++ memoryTrick) ;;
     ret result)
    (fun e =>
       push ("⚠ Memory Trick Generator failed: " ++ message e) ;;
       ret memoryDefault).

(* ----------------------------------------------------------------------- *)
(** *** Agent 8: Calculation Checker *)

Definition calculationDefault : JsObject :=
  [ ("requiresCalculation", VBool false);
    ("calculationSteps", VString "");
    ("thresholdsInvolved", VArray []);
    ("formulaUsed", VString "") ].

Definition calculationStart : string :=
  "🔢 Calculation Checker: Checking if calculation steps needed...".

Definition calculationChecker (question : Question.t) : M JsObject :=
  push calculationStart ;;
  let prompt := CalculationPrompt question in
  tryCatch
    (raw <- llm prompt groq fast defaultTemperature ;;
     result <- lift (parseJSON raw) ;;
     push ("🔢 Calculation Checker: "
           ++ (if truthy (get result "requiresCalculation")
               then "Calculation needed" else "No calculation needed")) ;;
     ret result)
    (fun e =>
       push ("⚠ Calculation Checker failed: " ++ message e) ;;
       ret calculationDefault).
End Agents.

(** The results of the two [Promise.all] rounds; [None] is the [null] of an
    agent that was not called. *)
Record Stage1 : Type := {
  answerResult : option JsObject;
  difficultyResult : option JsObject;
  unitResult : option JsObject
}.

Record Stage2 : Type := {
  conflictResult : option JsObject;
  explanationResult : option JsObject;
  memoryResult : option JsObject;
  calcResult : option JsObject
}.

Definition dq : string := String (ascii_of_nat 34) "".

Section Pipeline.
Variable host : Host.

(** [cond ? agent(...) : Promise.resolve(null)] *)
Definition runIf (cond : bool) (agent : M JsObject) : M (option JsObject) :=
  if cond then (result <- agent ;; ret (Some result)) else ret None.

Definition now : M Z := fun st => (Returned (Date_now host (calls st)), st).

(** Step 2: run agents in parallel where possible. *)
Definition step2 (question : Question.t) (agentSet : list value) : M Stage1 :=
  a <- settle (runIf (has agentSet "answer_verifier")
                     (answerVerifier host question)) ;;
  d <- settle (runIf (has agentSet "difficulty_rater")
                     (difficultyRater host question)) ;;
  u <- settle (runIf (has agentSet "unit_checker")
                     (unitChecker host question)) ;;
  abc <- lift (both a (both d u)) ;;
  ret {| answerResult := fst abc;
         difficultyResult := fst (snd abc);
         unitResult := snd (snd abc) |}.

Definition detectConflict (question : Question.t)
           (answerResult : option JsObject) : bool :=
  negb (String.eqb (Question.rightOption question) (Question.aiAnswer question))
  || negb (String.eqb (Question.rightOption question)
                      (Question.finalAnswer question))
  || isString "uncertain" (opt answerResult "verdict").

(** Step 3: run dependent agents. *)
Definition step3 (question : Question.t) (plan : JsObject)
           (agentSet : list value) (answerResult : option JsObject)
           (hasConflict : bool) : M Stage2 :=
  c <- settle
         match answerResult with
         | Some answer =>
             runIf (has agentSet "conflict_analyzer" || hasConflict)
                   (conflictAnalyzer host question answer)
         | None => ret None
         end ;;
  e <- settle (runIf (has agentSet "explanation_critic")
                     (explanationCritic host question)) ;;
  m <- settle (runIf (has agentSet "memory_trick_generator")
                     (memoryTrickGenerator host question)) ;;
  k <- settle (runIf (has agentSet "calculation_checker"
                      || truthy (get plan "isNumerical"))
                     (calculationChecker host question)) ;;
  cemk <- lift (both c (both e (both m k))) ;;
  ret {| conflictResult := fst cemk;
         explanationResult := fst (snd cemk);
         memoryResult := fst (snd (snd cemk));
         calcResult := snd (snd (snd cemk)) |}.

Definition selectFinalAnswer (question : Question.t)
           (conflictResult answerResult : option JsObject) : value :=
  opt conflictResult "finalRecommendedAnswer"
  ||| opt answerResult "correctAnswer"
  ||| VString (Question.finalAnswer question)
  ||| VString (Question.rightOption question).

Definition decideNeedsHuman (answerResult conflictResult : option JsObject)
  : value :=
  opt answerResult "needsHumanReview"
  ||| opt conflictResult "escalateToHuman"
  ||| VBool (isString "low" (opt answerResult "confidence"))
  ||| VBool (isString "uncertain" (opt answerResult "verdict")).

(** The [queryParts] array, in the order of the [push] calls. *)
Definition buildQueryParts (needsHuman : value) (hasConflict : bool)
           (s1 : Stage1) (s2 : Stage2) : M (list string) :=
  human <-
    (if truthy needsHuman then
       reason <- str host (opt (answerResult s1) "humanReviewReason"
                           ||| opt (conflictResult s2) "escalationReason"
                           ||| VString "Uncertain answer") ;;
       ret ["⚠ HUMAN REVIEW NEEDED: " ++ reason]
     else ret []) ;;
  conflict <-
    match conflictResult s2 with
    | Some c =>
        if hasConflict then
          conflictType <- str host (get c "conflictType") ;;
          explanation <- str host (get c "explanation") ;;
          ret ["Answer conflict: " ++ conflictType ++ " — " ++ explanation]
        else ret []
    | None => ret []
    end ;;
  difficulty <-
    match difficultyResult s1 with
    | Some d =>
        if negb (truthy (get d "currentRatingCorrect")) then
          label <- str host (get d "difficulty") ;;
          ret ["Difficulty: change to " ++ label]
        else ret []
    | None => ret []
    end ;;
  unit_ <-
    (if negb (truthy (opt (unitResult s1) "belongsInUnit")) then
       suggested <- str host (opt (unitResult s1) "suggestedUnit") ;;
       ret ["Unit mismatch: move to " ++ dq ++ suggested ++ dq]
     else ret []) ;;
  explanation <-
    (if isString "Needs Improvement" (opt (explanationResult s2) "quality")
        || isString "Poor" (opt (explanationResult s2) "quality") then
       suggestion <- str host (opt (explanationResult s2)
                                   "improvementSuggestion") ;;
       ret ["Explanation: " ++ suggestion]
     else ret []) ;;
  calculation <-
    (if truthy (opt (calcResult s2) "requiresCalculation") then
       steps <- str host (opt (calcResult s2) "calculationSteps") ;;
       ret ["Add calculation: " ++ steps]
     else ret []) ;;
  let queryParts :=
    (human ++ conflict ++ difficulty ++ unit_ ++ explanation
       ++ calculation)%list in
  ret match queryParts with
      | [] => ["c) Kept as is — all checks passed"]
      | _ => queryParts
      end.

(** Step 4: synthesize final result. *)
Definition step4 (question : Question.t) (startTime : Z) (plan : JsObject)
           (s1 : Stage1) (hasConflict : bool) (s2 : Stage2) : M Review.t :=
  let finalAnswer :=
    selectFinalAnswer question (conflictResult s2) (answerResult s1) in
  let needsHuman := decideNeedsHuman (answerResult s1) (conflictResult s2) in
  endTime <- now ;;
  let elapsed := toFixed1 host (endTime - startTime) in
  count <- lift (lengthText (get plan "agents")) ;;
  push ("✓ Complete in " ++ elapsed ++ "s — " ++ count ++ " agents ran") ;;
  queryParts <- buildQueryParts needsHuman hasConflict s1 s2 ;;
  improvements <-
    lift (optJoin host (opt (explanationResult s2) "missingElements") "; ") ;;
  thresholds <-
    lift (optJoin host (opt (calcResult s2) "thresholdsInvolved") ", ") ;;
  agentLog <- readLog ;;
  ret {| Review.status := "done";
         Review.needsHuman := needsHuman;
         Review.hasConflict := hasConflict;
         Review.elapsed := VString elapsed;
         Review.agentLog := agentLog;
         Review.plan := VObject plan;
         Review.finalAnswer := finalAnswer;
         Review.correctAnswer := opt (answerResult s1) "correctAnswer";
         Review.answerVerdict := opt (answerResult s1) "verdict";
         Review.answerConfidence := opt (answerResult s1) "confidence";
         Review.answerReasoning := opt (answerResult s1) "reasoning";
         Review.conflictType := opt (conflictResult s2) "conflictType";
         Review.conflictExplanation := opt (conflictResult s2) "explanation";
         Review.difficulty :=
           opt (difficultyResult s1) "difficulty"
           ||| VString (Question.difficulty question);
         Review.difficultyReasoning := opt (difficultyResult s1) "reasoning";
         Review.difficultyChanged :=
           match difficultyResult s1 with
           | Some d => VBool (negb (truthy (get d "currentRatingCorrect")))
           | None => VBool false
           end;
         Review.unitMatch := opt (unitResult s1) "belongsInUnit";
         Review.suggestedUnit := opt (unitResult s1) "suggestedUnit";
         Review.questionType :=
           opt (unitResult s1) "questionType"
           ||| VString (Question.category question);
         Review.yearDependentReason :=
           opt (unitResult s1) "yearDependentReason";
         Review.explanationQuality := opt (explanationResult s2) "quality";
         Review.explanationScore := opt (explanationResult s2) "score";
         Review.explanationImprovements := improvements;
         Review.explanationSuggestion :=
           opt (explanationResult s2) "improvementSuggestion";
         Review.needsCalculation :=
           opt (calcResult s2) "requiresCalculation";
         Review.calculationSteps := opt (calcResult s2) "calculationSteps";
         Review.thresholds := thresholds;
         Review.memoryTrick := opt (memoryResult s2) "memoryTrick";
         Review.memoryType := opt (memoryResult s2) "type";
         Review.keyConceptSummary :=
           opt (memoryResult s2) "keyConceptSummary";
         Review.queries := String.concat " | " queryParts |}.

(** The body of the [try] block. *)
Definition reviewBody (question : Question.t) (startTime : Z) : M Review.t :=
  plan <- orchestrate host question ;;
  agentSet <- lift (newSet (get plan "agents")) ;;
  s1 <- step2 question agentSet ;;
  let hasConflict := detectConflict question (answerResult s1) in
  s2 <- step3 question plan agentSet (answerResult s1) hasConflict ;;
  step4 question startTime plan s1 hasConflict s2.

(** The object the [catch] block returns. *)
Definition systemError (question : Question.t) (agentLog : list string)
           (e : exn) : Review.t :=
  {| Review.status := "error";
     Review.needsHuman := VBool true;
     Review.hasConflict := false;
     Review.elapsed := VUndefined;
     Review.agentLog := agentLog;
     Review.plan := VUndefined;
     Review.finalAnswer :=
       VString (orElse (Question.finalAnswer question)
                       (Question.rightOption question));
     Review.correctAnswer := VUndefined;
     Review.answerVerdict := VUndefined;
     Review.answerConfidence := VUndefined;
     Review.answerReasoning := VUndefined;
     Review.conflictType := VUndefined;
     Review.conflictExplanation := VUndefined;
     Review.difficulty := VString (Question.difficulty question);
     Review.difficultyReasoning := VUndefined;
     Review.difficultyChanged := VUndefined;
     Review.unitMatch := VUndefined;
     Review.suggestedUnit := VUndefined;
     Review.questionType := VUndefined;
     Review.yearDependentReason := VUndefined;
     Review.explanationQuality := VUndefined;
     Review.explanationScore := VUndefined;
     Review.explanationImprovements := VUndefined;
     Review.explanationSuggestion := VUndefined;
     Review.needsCalculation := VUndefined;
     Review.calculationSteps := VUndefined;
     Review.thresholds := VUndefined;
     Review.memoryTrick := VUndefined;
     Review.memoryType := VUndefined;
     Review.keyConceptSummary := VUndefined;
     Review.queries :=
       "⚠ SYSTEM ERROR — needs human review: " ++ message e |}.

Definition reviewQuestion (question : Question.t) : M Review.t :=
  newLog ;;
  startTime <- now ;;
  tryCatch
    (reviewBody question startTime)
    (fun e =>
       push ("💥 System error: " ++ message e) ;;
       agentLog <- readLog ;;
       ret (systemError question agentLog e)).
End Pipeline.

(* ------------------------------------------------------------------------- *)
(** ** The batch endpoint [POST /api/review-all] *)

Module Server.

(** An element of the [results] array: [{ index: i, ...result }], or the
    object the [catch] branch pushes. *)
Inductive Entry : Type :=
| Reviewed (index : nat) (result : Review.t)
| Failed (index : nat) (queries : string).

Definition index (e : Entry) : nat :=
  match e with Reviewed i _ | Failed i _ => i end.

(** The element that the loop records for question [i], given how its
    review ended. *)
Definition entryOf (i : nat) (o : outcome Review.t) : Entry :=
  match o with
  | Returned r => Reviewed i r
  | Thrown e => Failed i ("⚠ Error: " ++ message e)
  end.

Inductive Event : Type :=
| start (total : nat)
| progress (index : nat) (code question : string)
| log (index : nat) (message : string)
| question_done (index : nat) (result : Review.t)
| question_error (index : nat) (error : string)
| complete (total : nat) (results : list Entry).

Inductive Effect : Type :=
| Send (e : Event)
| Sleep (ms : nat).

Inductive Reply : Type :=
| BadRequest (error : string)
| EventStream (effects : list Effect).

Section Batch.
(** The endpoint over any implementation of [reviewQuestion] and any
    world it runs in, so that the [catch] branch has a meaning. *)
Variable World : Type.
Variable review : Question.t -> World -> outcome Review.t * World.

Record Conn : Type := {
  world : World;
  sent : list Effect;
  results : list Entry
}.

Definition sendEvent (e : Event) (c : Conn) : Conn :=
  {| world := world c; sent := (sent c ++ [Send e])%list; results := results c |}.

Definition pushResult (r : Entry) (c : Conn) : Conn :=
  {| world := world c; sent := sent c; results := (results c ++ [r])%list |}.

Definition sleep (ms : nat) (c : Conn) : Conn :=
  {| world := world c; sent := (sent c ++ [Sleep ms])%list; results := results c |}.

(** One turn of the [for] loop.  The text of the [progress] event is
    cut after 80 bytes here and after 80 UTF-16 code units in the code;
    the two agree on ASCII text. *)
Definition iteration (total i : nat) (q : Question.t) (c : Conn) : Conn :=
  let c := sendEvent (progress i (Question.code q)
                        (substring 0 80 (Question.question q))) c in
  let (r, w) := review q (world c) in
  let c := {| world := w; sent := sent c; results := results c |} in
  let c :=
    match r with
    | Returned result =>
        let c := pushResult (Reviewed i result) c in
        let c := fold_left (fun c line => sendEvent (log i line) c)
                           (Review.agentLog result) c in
        sendEvent (question_done i result) c
    | Thrown e =>
        let c := sendEvent (question_error i (message e)) c in
        pushResult (Failed i ("⚠ Error: " ++ message e)) c
    end in
  if (i <? total - 1)%nat then sleep 400 c else c.

Fixpoint loop (total i : nat) (questions : list Question.t) (c : Conn)
  : Conn :=
  match questions with
  | [] => c
  | q :: rest => loop total (S i) rest (iteration total i q c)
  end.

Definition reviewAll (questions : list Question.t) (w : World)
  : Reply * list Entry * World :=
  match questions with
  | [] => (BadRequest "No questions provided", [], w)
  | _ =>
      let total := List.length questions in
      let c := {| world := w; sent := []; results := [] |} in
      let c := sendEvent (start total) c in
      let c := loop total 0 questions c in
      let c := sendEvent (complete total (results c)) c in
      (EventStream (sent c), results c, world c)
  end.

(** What a sequential pass over the questions records, question by
    question, starting at index [i] in world [w]. *)
Fixpoint entries (i : nat) (questions : list Question.t) (w : World)
  : list Entry :=
  match questions with
  | [] => []
  | q :: rest =>
      entryOf i (fst (review q w)) :: entries (S i) rest (snd (review q w))
  end.

(** The world in which question [i] is reviewed when the questions are
    taken one after the other. *)
Definition worldBefore (questions : list Question.t) (w : World) (i : nat)
  : World :=
  fold_left (fun w q => snd (review q w)) (firstn i questions) w.
End Batch.
End Server.

(* ------------------------------------------------------------------------- *)
(** ** Naming the intermediate values of a review

    [reviewQuestion] keeps the plan and the agents' results in local
    variables.  The relations below name them, so that a statement can speak
    of the plan in force or of what the Answer Verifier returned. *)

Definition startState (st : State) : State := snd (newLog st).

(** The Orchestrator returned [plan]; [agentSet] is [new Set(plan.agents)]. *)
Definition Planned (host : Host) (q : Question.t) (st : State)
           (plan : JsObject) (agentSet : list value) (st1 : State) : Prop :=
  orchestrate host q (startState st) = (Returned plan, st1)
  /\ newSet (get plan "agents") = Returned agentSet.

(** The first [Promise.all] resolved to [s1]. *)
Definition Stage1Done (host : Host) (q : Question.t) (st : State)
           (plan : JsObject) (agentSet : list value) (s1 : Stage1)
           (st2 : State) : Prop :=
  exists st1,
    Planned host q st plan agentSet st1
    /\ step2 host q agentSet st1 = (Returned s1, st2).

(** The second [Promise.all] resolved to [s2]. *)
Definition Stage2Done (host : Host) (q : Question.t) (st : State)
           (plan : JsObject) (agentSet : list value) (s1 : Stage1)
           (s2 : Stage2) (st3 : State) : Prop :=
  exists st2,
    Stage1Done host q st plan agentSet s1 st2
    /\ step3 host q plan agentSet (answerResult s1)
             (detectConflict q (answerResult s1)) st2
       = (Returned s2, st3).

(* ------------------------------------------------------------------------- *)
(** ** Reference definitions for the statements

    Written from the wording of the specification, to be compared with what
    the code computes. *)

(** The answer an agent produced: it ran, and the field holds a value that
    [||] does not skip. *)
Definition produced (result : option JsObject) (field : string)
  : option value :=
  match result with
  | Some o => if truthy (get o field) then Some (get o field) else None
  | None => None
  end.

(** Conflict Analyzer's recommendation, else Answer Verifier's answer, else
    the question's own final answer, else its manual answer. *)
Definition finalAnswerByPriority (conflict answer : option JsObject)
           (q : Question.t) : value :=
  match produced conflict "finalRecommendedAnswer" with
  | Some a => a
  | None =>
      match produced answer "correctAnswer" with
      | Some a => a
      | None =>
          if String.eqb (Question.finalAnswer q) ""
          then VString (Question.rightOption q)
          else VString (Question.finalAnswer q)
      end
  end.

(** The same order when the placeholder of a degraded default counts as no
    answer. *)
Definition usable (result : option JsObject) (field : string) : option value :=
  match produced result field with
  | Some a => if isString "?" a then None else Some a
  | None => None
  end.

Definition finalAnswerSkippingPlaceholders (conflict answer : option JsObject)
           (q : Question.t) : value :=
  match usable conflict "finalRecommendedAnswer" with
  | Some a => a
  | None =>
      match usable answer "correctAnswer" with
      | Some a => a
      | None =>
          if String.eqb (Question.finalAnswer q) ""
          then VString (Question.rightOption q)
          else VString (Question.finalAnswer q)
      end
  end.

(** The calls of the Inference Client that [m] makes when run in [st]. *)
Definition callsMade {A} (m : M A) (st : State) : list Call :=
  skipn (List.length (calls st)) (calls (snd (m st))).

(** The reasoning block and the fenced block of the round-trip property. *)
Definition reasoningBlock (reasoning : string) : string :=
  "<think>" ++ reasoning ++ "</think>".

Definition fencedBlock (text : string) : string :=
  "```json" ++ Str.nl ++ text ++ Str.nl ++ "```".

Definition wrapResponse (reasoning text : string) : string :=
  reasoningBlock reasoning ++ Str.nl ++ fencedBlock text.

(** The calls the Answer Verifier and the other agents can make. *)
Definition call (p : Prompt) (pr : Provider) (t : Tier) (temp : float) : Call :=
  {| prompt := p; provider := pr; tier := t; temperature := temp |}.

Definition verifierCall (q : Question.t) (pr : Provider) (t : Tier) : Call :=
  call (VerifyPrompt q) pr t defaultTemperature.

(* ------------------------------------------------------------------------- *)
(** ** Vocabulary of the statements and proofs *)

(** A line written by the Conflict Analyzer. *)
Definition conflictLine (line : string) : bool :=
  prefix "⚡ Conflict Analyzer" line || prefix "⚠ Conflict Analyzer" line.

Definition quiet (line : string) : Prop := conflictLine line = false.

Definition anyLine : string -> Prop := fun _ => True.

(** The line the [catch] block of [reviewQuestion] appends. *)
Definition systemErrorLine (e : exn) : string :=
  "💥 System error: " ++ message e.

(** [o] is a rejection. *)
Definition throws {A} (o : outcome A) : bool :=
  match o with
  | Thrown _ => true
  | Returned _ => false
  end.

(** The outer [try] block of the Answer Verifier, the groq path, and its
    [catch] block, the OpenRouter path; [answerVerifier] is the first line
    of the log followed by the one guarded by the other. *)
Definition verifierGroqPath (host : Host) (question : Question.t)
  : M JsObject :=
  let prompt := VerifyPrompt question in
  raw <- tryCatch
           (llm host prompt groq reason defaultTemperature)
           (fun _ => llm host prompt groq smart defaultTemperature) ;;
  result <- lift (parseJSON host raw) ;;
  correctAnswer <- str host (get result "correctAnswer") ;;
  confidence <- str host (get result "confidence") ;;
  verdict <- str host (get result "verdict") ;;
  push ("✅ Answer Verifier: " ++ correctAnswer ++ " (" ++ confidence
        ++ " confidence) — " ++ verdict) ;;
  ret result.

Definition verifierOpenRouterPath (host : Host) (question : Question.t)
  : exn -> M JsObject :=
  fun _ =>
    let prompt := VerifyPrompt question in
    tryCatch
      (raw <- llm host prompt openrouter smart defaultTemperature ;;
       result <- lift (parseJSON host raw) ;;
       correctAnswer <- str host (get result "correctAnswer") ;;
       push ("✅ Answer Verifier (OpenRouter fallback): "
             ++ correctAnswer) ;;
       ret result)
      (fun e2 =>
         push ("⚠ Answer Verifier failed: " ++ message e2) ;;
         ret (verifierDefault e2)).

(** The fence markers removed as [parseJSON] removes them. *)
Definition stripFences (s : string) : string :=
  Str.replaceAll Str.fenceRe (Str.replaceAll Str.fenceJsonRe s).

(** Every call the Answer Verifier can make fails. *)
Definition verifierCallsFail (host : Host) (q : Question.t) : Prop :=
  forall pr t temp st,
    exists e, fst (llm host (VerifyPrompt q) pr t temp st) = Thrown e.

(** [total m]: [m] returns, whatever the state. *)
Definition total {A} (m : M A) : Prop :=
  forall st, exists a st', m st = (Returned a, st').

(** [adds P n st st']: from [st] to [st'] the log grew by lines that
    satisfy [P], and at most [n] calls were made. *)
Definition adds (P : string -> Prop) (n : nat) (st st' : State) : Prop :=
  exists lines cs,
    agentLog st' = (agentLog st ++ lines)%list /\ Forall P lines
    /\ calls st' = (calls st ++ cs)%list /\ List.length cs <= n.

Definition effect {A} (P : string -> Prop) (n : nat) (m : M A) : Prop :=
  forall st, adds P n st (snd (m st)).

Definition backtick : ascii := "`"%char.

(** The closing fence of a fenced block, on a line of its own. *)
Definition closing : string := Str.nl ++ "```".

(** No character of [p] is (up to case, under [i]) the character [h]. *)
Fixpoint avoids (i : bool) (h : ascii) (p : string) : bool :=
  match p with
  | "" => true
  | String a p' => negb (Str.eqbChar i a h) && avoids i h p'
  end.

(** Expressions that can only match where a fence marker starts. *)
Definition fenceLike (re : string -> option nat) : Prop :=
  forall s, Str.matchLit false "```" s = None -> re s = None.

Fixpoint hasChar (c : ascii) (s : string) : bool :=
  match s with
  | "" => false
  | String a s' => Ascii.eqb a c || hasChar c s'
  end.

Definition noBrace (s : string) : bool :=
  negb (hasChar "{" s) && negb (hasChar "}" s).

(** The three replacements of [parseJSON], before the trim. *)
Definition stripAll (s : string) : string :=
  Str.replaceAll Str.thinkRe
    (Str.replaceAll Str.fenceRe (Str.replaceAll Str.fenceJsonRe s)).

(* ------------------------------------------------------------------------- *)
(** ** Concrete hosts and questions

    Used to run the model on explicit inputs. *)

Module Fixture.

Definition SyntaxError (msg : string) : exn :=
  {| name := "SyntaxError"; message := msg |}.

Definition emptyState : State :=
  {| agentLog := []; console := []; calls := []; requests := [] |}.

(** Whole seconds only, which is all the fixtures' clock produces. *)
Definition wholeSeconds (ms : Z) : string :=
  natToString (Z.to_nat (ms / 1000)) ++ ".0".

(** No API key is configured: every call of the Inference Client fails. *)
Definition offline : Host :=
  {| getKey := fun _ => None;
     fetch := fun _ _ => Rejected (TypeError "fetch failed");
     JSON_parse := fun _ => Thrown (SyntaxError "Unexpected end of JSON input");
     Number_toString := fun _ => "0";
     Date_now := fun cs => (1000 * Z.of_nat (List.length cs))%Z;
     toFixed1 := wholeSeconds |}.

Definition promptKind (p : Prompt) : string :=
  match p with
  | PlanPrompt _ => "plan"
  | VerifyPrompt _ => "verify"
  | ConflictPrompt _ _ _ => "conflict"
  | DifficultyPrompt _ => "difficulty"
  | UnitPrompt _ => "unit"
  | ExplanationPrompt _ _ => "explanation"
  | MemoryPrompt _ => "memory"
  | CalculationPrompt _ => "calculation"
  end.

Fixpoint assoc {A} (key : string) (table : list (string * A)) : option A :=
  match table with
  | [] => None
  | (k, v) :: rest => if String.eqb k key then Some v else assoc key rest
  end.

(** Both keys are configured.  A prompt listed in [replies] is answered
    with the given text, any other with status 503.  [decode] lists what
    [JSON.parse] returns on the texts the fixture uses. *)
Definition scripted (replies : list (string * string))
           (decode : list (string * JsObject)) : Host :=
  {| getKey := fun p => Some match p with
                             | groq => "gsk_test"
                             | openrouter => "sk-or-test"
                             end;
     fetch := fun _ req =>
                match assoc (promptKind (messages req)) replies with
                | Some text => Content text
                | None => NotOk 503 "Service Unavailable"
                end;
     JSON_parse := fun span =>
                     match assoc span decode with
                     | Some o => Returned o
                     | None => Thrown (SyntaxError "Unexpected token")
                     end;
     Number_toString := fun _ => "7";
     Date_now := fun cs => (1000 * Z.of_nat (List.length cs))%Z;
     toFixed1 := wholeSeconds |}.

Definition quoted (s : string) : string := dq ++ s ++ dq.

(** The Orchestrator's model asks for the Difficulty Rater only and marks
    the question as not numeric. *)
Definition ratingPlanText : string :=
  "{" ++ quoted "agents" ++ ":[" ++ quoted "difficulty_rater" ++ "],"
  ++ quoted "reasoning" ++ ":" ++ quoted "rate only" ++ ","
  ++ quoted "hasAnswerConflict" ++ ":true,"
  ++ quoted "isNumerical" ++ ":false}".

Definition ratingPlan : JsObject :=
  [ ("agents", VArray [VString "difficulty_rater"]);
    ("reasoning", VString "rate only");
    ("hasAnswerConflict", VBool true);
    ("isNumerical", VBool false) ].

Definition ratingOnly : Host :=
  scripted [("plan", ratingPlanText)] [(ratingPlanText, ratingPlan)].

(** The Orchestrator's model asks for the Explanation Critic only, whose
    model then gives [missingElements] as a string instead of a list. *)
Definition critiquePlanText : string :=
  "{" ++ quoted "agents" ++ ":[" ++ quoted "explanation_critic" ++ "],"
  ++ quoted "reasoning" ++ ":" ++ quoted "explanation only" ++ ","
  ++ quoted "hasAnswerConflict" ++ ":false,"
  ++ quoted "isNumerical" ++ ":false}".

Definition critiquePlan : JsObject :=
  [ ("agents", VArray [VString "explanation_critic"]);
    ("reasoning", VString "explanation only");
    ("hasAnswerConflict", VBool false);
    ("isNumerical", VBool false) ].

Definition critiqueText : string :=
  "{" ++ quoted "quality" ++ ":" ++ quoted "Good" ++ ","
  ++ quoted "score" ++ ":7,"
  ++ quoted "missingElements" ++ ":" ++ quoted "none" ++ "}".

Definition critique : JsObject :=
  [ ("quality", VString "Good");
    ("score", VNumber 7%float);
    ("missingElements", VString "none") ].

Definition sloppy : Host :=
  scripted [("plan", critiquePlanText); ("explanation", critiqueText)]
           [(critiquePlanText, critiquePlan); (critiqueText, critique)].

(** All three recorded answers agree; no explanation. *)
Definition settled : Question.t :=
  {| Question.code := "E2-001";
     Question.chapter := "Filing";
     Question.unit := "Individual Income";
     Question.question := "Which form reports wages paid to an employee?";
     Question.optionA := "Form W-2";
     Question.optionB := "Form 1099-NEC";
     Question.optionC := "Form W-4";
     Question.optionD := "Form 1040";
     Question.rightOption := "A";
     Question.feedback := "";
     Question.aiAnswer := "A";
     Question.finalAnswer := "A";
     Question.finalExplanation := "";
     Question.difficulty := "Easy";
     Question.category := "Static Question";
     Question.queries := "" |}.

(** The AI-derived answer differs from the manual one; the text holds a
    currency marker; an explanation exists. *)
Definition disputed : Question.t :=
  {| Question.code := "E2-002";
     Question.chapter := "Deductions";
     Question.unit := "Individual Income";
     Question.question := "A taxpayer paid $500 of interest. How much is deductible?";
     Question.optionA := "$0";
     Question.optionB := "$250";
     Question.optionC := "$500";
     Question.optionD := "$1,000";
     Question.rightOption := "A";
     Question.feedback := "See Publication 936.";
     Question.aiAnswer := "B";
     Question.finalAnswer := "A";
     Question.finalExplanation := "";
     Question.difficulty := "";
     Question.category := "Year-Dependent";
     Question.queries := "" |}.

End Fixture.

(* ------------------------------------------------------------------------- *)
(** ** The other endpoints of [server.js] *)

Module Api.

(** *** [GET /api/health]

    [!!key && !key.includes('your_')] for an environment variable that is
    unset ([None]) or holds [key]. *)
Definition configured (key : option string) : bool :=
  match key with
  | Some k => negb (String.eqb k "") && negb (Str.includes "your_" k)
  | None => false
  end.

(** The body of the answer.  [ANTHROPIC_API_KEY] is read here and nowhere
    else. *)
Definition health (host : Host) (ANTHROPIC_API_KEY : option string)
  : JsObject :=
  [ ("status", VString "ok");
    ("groq", VBool (configured (getKey host groq)));
    ("openrouter", VBool (configured (getKey host openrouter)));
    ("anthropic", VBool (configured ANTHROPIC_API_KEY)) ].

(** *** [POST /api/review] *)

Inductive Event : Type :=
| log (message : string)
| result (r : Review.t)
| done
| error (message : string).

Inductive Reply : Type :=
| BadRequest (reason : string)
| EventStream (events : list Event).

Section Review.
(** As for the batch endpoint: over any implementation of
    [reviewQuestion], so that the [catch] branch has a meaning. *)
Variable World : Type.
Variable review : Question.t -> World -> outcome Review.t * World.

Definition sendEvent (e : Event) (sent : list Event) : list Event :=
  (sent ++ [e])%list.

(** [question] is [None] when the body holds no question. *)
Definition reviewOne (question : option Question.t) (w : World)
  : Reply * World :=
  match question with
  | None => (BadRequest "No question provided", w)
  | Some q =>
      let (r, w') := review q w in
      match r with
      | Returned result_ =>
          let sent :=
            fold_left (fun sent line => sendEvent (log line) sent)
                      (Review.agentLog result_) [] in
          let sent := sendEvent (result result_) sent in
          let sent := sendEvent done sent in
          (EventStream sent, w')
      | Thrown e => (EventStream (sendEvent (error (message e)) []), w')
      end
  end.
End Review.

End Api.

(* ------------------------------------------------------------------------- *)
(** ** [normalizeRow] and the end of [POST /api/parse] *)

Module Normalize.
Section Normalize.
(** [String.prototype.toLowerCase] *)
Variable toLowerCase : string -> string.

(** A record of the CSV parser: the columns in the order of
    [Object.keys], each with its cell. *)
Definition Row : Type := list (string * string).

(** [row[k]] *)
Fixpoint cell (row : Row) (k : string) : option string :=
  match row with
  | [] => None
  | (key, v) :: rest => if String.eqb key k then Some v else cell rest k
  end.

Definition keys (row : Row) : list string := map fst row.

(** The inner function [get(...aliases)] of [normalizeRow]. *)
Fixpoint get (row : Row) (aliases : list string) : string :=
  match aliases with
  | [] => ""
  | alias :: rest =>
      match find (fun k => Str.includes (toLowerCase alias) (toLowerCase k))
                 (keys row) with
      | Some k =>
          if String.eqb k "" then get row rest
          else Str.trim match cell row k with
                        | Some v => orElse v ""
                        | None => ""
                        end
      | None => get row rest
      end
  end.

Definition normalizeRow (row : Row) : Question.t :=
  {| Question.code := get row ["code"; "id"; "e2-"; "question id"];
     Question.chapter := get row ["chapter"; "ch_"];
     Question.unit := get row ["final sub unit"; "sub unit"; "unit"];
     Question.question := get row ["question"];
     Question.optionA := get row ["option a"; "optiona"];
     Question.optionB := get row ["option b"; "optionb"];
     Question.optionC := get row ["option c"; "optionc"];
     Question.optionD := get row ["option d"; "optiond"];
     Question.rightOption :=
       get row ["right option"; "right answer"; "manual"];
     Question.feedback := get row ["general feedback"; "feedback"];
     Question.aiAnswer :=
       get row ["aimatch"; "ai match"; "ai answer"; " ai"];
     Question.finalAnswer := get row ["final answer"];
     Question.finalExplanation := get row ["final explanation"];
     Question.difficulty := get row ["difficulty"];
     Question.category := get row ["category"];
     Question.queries := get row ["queries"] |}.

(** What [POST /api/parse] answers once the CSV parser has returned
    [records]: [{ questions, count }]. *)
Definition parsed (records : list Row) : list Question.t * nat :=
  let questions :=
    filter (fun q => negb (String.eqb (Question.question q) ""))
           (map normalizeRow records) in
  (questions, List.length questions).
End Normalize.
End Normalize.

(* ------------------------------------------------------------------------- *)
(** ** [POST /api/export]

    The body is what the client sends back: the questions as the parse
    endpoint returned them, and [results], when present, an array of any
    JSON values.  The CSV text is produced by a library from the rows built
    here. *)

Module Exporter.

(** [v.key] for a value that is neither [null] nor [undefined].  None of
    the keys read below is a property of an array, a string, a number or
    a boolean, or of [Object.prototype]. *)
Definition prop (v : value) (key : string) : value :=
  match v with
  | VObject o => get o key
  | _ => VUndefined
  end.

(** The object [resultMap]: its own properties, the latest first, and its
    prototype when an assignment to the key [__proto__] replaced
    [Object.prototype] by an element of [results]. *)
Record ResultMap : Type := {
  own : JsObject;
  proto : option JsObject
}.

Definition emptyMap : ResultMap := {| own := []; proto := None |}.

(** [resultMap[key] = r].  The key [__proto__] reaches the setter of
    [Object.prototype], which replaces the prototype by an object and
    ignores anything else, unless the map or its prototype has a property
    of that name of its own. *)
Definition assign (m : ResultMap) (key : string) (r : value) : ResultMap :=
  if String.eqb key "__proto__"
     && negb (hasOwn (own m) key
              || match proto m with
                 | Some o => hasOwn o key
                 | None => false
                 end)
  then
    match r with
    | VObject o => {| own := own m; proto := Some o |}
    | _ => m
    end
  else {| own := (key, r) :: own m; proto := proto m |}.

(** [resultMap[i]] *)
Definition lookup (m : ResultMap) (i : nat) : value :=
  let key := natToString i in
  if hasOwn (own m) key then get (own m) key
  else match proto m with
       | Some o => get o key
       | None => VUndefined
       end.

Inductive Reply : Type :=
| BadRequest (reason : string)
| Csv (rows : list JsObject).

Section Rows.
Variable host : Host.

(** [for (const r of results) resultMap[r.index] = r] *)
Fixpoint fill (results : list value) (m : ResultMap)
  : outcome ResultMap :=
  match results with
  | [] => Returned m
  | r :: rest =>
      match r with
      | VUndefined =>
          Thrown (TypeError
                    "Cannot read properties of undefined (reading 'index')")
      | VNull =>
          Thrown (TypeError
                    "Cannot read properties of null (reading 'index')")
      | _ =>
          match toString host (prop r "index") with
          | Thrown e => Thrown e
          | Returned key => fill rest (assign m key r)
          end
      end
  end.

Definition yesNo (v : value) (yes : string) : value :=
  VString (if truthy v then yes else "No").

(** The object built for question [q] and [r = resultMap[i] || {}]. *)
Definition row (q : Question.t) (r : value) : outcome JsObject :=
  let text := fun s => VString (orElse s "") in
  match
    match prop r "unitMatch" with
    | VBool false =>
        match toString host (prop r "suggestedUnit") with
        | Returned unit => Returned ("No — suggest: " ++ unit)
        | Thrown e => Thrown e
        end
    | _ => Returned "Yes"
    end
  with
  | Thrown e => Thrown e
  | Returned unitMatch =>
      Returned
        [ ("Code", text (Question.code q));
          ("Chapter", text (Question.chapter q));
          ("Unit", text (Question.unit q));
          ("Question", text (Question.question q));
          ("Option A", text (Question.optionA q));
          ("Option B", text (Question.optionB q));
          ("Option C", text (Question.optionC q));
          ("Option D", text (Question.optionD q));
          ("Original Answer", text (Question.rightOption q));
          ("AI Column Answer", text (Question.aiAnswer q));
          ("Final Answer",
           prop r "finalAnswer" ||| VString (Question.finalAnswer q)
           ||| VString "");
          ("Answer Verdict", prop r "answerVerdict" ||| VString "");
          ("Answer Confidence", prop r "answerConfidence" ||| VString "");
          ("Difficulty",
           prop r "difficulty" ||| VString (Question.difficulty q)
           ||| VString "");
          ("Difficulty Changed", yesNo (prop r "difficultyChanged") "Yes");
          ("Question Type",
           prop r "questionType" ||| VString (Question.category q)
           ||| VString "");
          ("Unit Match", VString unitMatch);
          ("Explanation Quality",
           prop r "explanationQuality" ||| VString "");
          ("Explanation Score", prop r "explanationScore" ||| VString "");
          ("Explanation Suggestion",
           prop r "explanationSuggestion" ||| VString "");
          ("Needs Calculation", yesNo (prop r "needsCalculation") "Yes");
          ("Calculation Steps", prop r "calculationSteps" ||| VString "");
          ("Thresholds", prop r "thresholds" ||| VString "");
          ("Memory Trick", prop r "memoryTrick" ||| VString "");
          ("Memory Trick Type", prop r "memoryType" ||| VString "");
          ("Key Concept", prop r "keyConceptSummary" ||| VString "");
          ("Needs Human Review", yesNo (prop r "needsHuman") "YES");
          ("Answer Conflict", yesNo (prop r "hasConflict") "YES");
          ("Queries",
           prop r "queries" ||| VString (Question.queries q)
           ||| VString "");
          ("Final Explanation",
           VString (orElse (orElse (Question.finalExplanation q)
                                   (Question.feedback q)) "")) ]
  end.

(** [questions.map((q, i) => ...)], from index [i] on. *)
Fixpoint rows (m : ResultMap) (i : nat) (questions : list Question.t)
  : outcome (list JsObject) :=
  match questions with
  | [] => Returned []
  | q :: rest =>
      match row q (lookup m i ||| VObject []) with
      | Thrown e => Thrown e
      | Returned r =>
          match rows m (S i) rest with
          | Thrown e => Thrown e
          | Returned rs => Returned (r :: rs)
          end
      end
  end.

(** The handler.  [results] is [None] when the body holds none. *)
Definition export (questions : list Question.t)
           (results : option (list value)) : outcome Reply :=
  match questions with
  | [] => Returned (BadRequest "No data to export")
  | _ =>
      match fill match results with Some rs => rs | None => [] end
                 emptyMap with
      | Thrown e => Thrown e
      | Returned resultMap =>
          match rows resultMap 0 questions with
          | Thrown e => Thrown e
          | Returned rs => Returned (Csv rs)
          end
      end
  end.
End Rows.
End Exporter.

(* ------------------------------------------------------------------------- *)
(** ** Further vocabulary *)

(** The key under which the export endpoint files an element of
    [results]. *)
Definition indexKey (host : Host) (r : value) : outcome string :=
  toString host (Exporter.prop r "index").

(** The last element of [results] filed under the index [i]. *)
Fixpoint latest (host : Host) (i : nat) (results : list value)
  : option value :=
  match results with
  | [] => None
  | r :: rest =>
      match latest host i rest with
      | Some later => Some later
      | None =>
          match indexKey host r with
          | Returned key => if String.eqb key (natToString i) then Some r
                            else None
          | Thrown _ => None
          end
      end
  end.

(** No element of [results] is filed under the key [__proto__]. *)
Definition ordinaryKeys (host : Host) (results : list value) : Prop :=
  Forall (fun r => indexKey host r <> Returned "__proto__") results.

(** The sixteen fields of a question. *)
Definition fieldsOf (q : Question.t) : list string :=
  [ Question.code q; Question.chapter q; Question.unit q;
    Question.question q; Question.optionA q; Question.optionB q;
    Question.optionC q; Question.optionD q; Question.rightOption q;
    Question.feedback q; Question.aiAnswer q; Question.finalAnswer q;
    Question.finalExplanation q; Question.difficulty q;
    Question.category q; Question.queries q ].

(** The pauses of an event stream, in milliseconds. *)
Definition pauses (effects : list Server.Effect) : list nat :=
  flat_map (fun e => match e with
                     | Server.Sleep ms => [ms]
                     | Server.Send _ => []
                     end) effects.

Definition isReviewed (e : Server.Entry) : bool :=
  match e with Server.Reviewed _ _ => true | Server.Failed _ _ => false end.

Definition isQuestionError (e : Server.Effect) : bool :=
  match e with
  | Server.Send (Server.question_error _ _) => true
  | _ => false
  end.

(** What the batch endpoint sends for one question, the pause apart. *)
Definition questionEvents (i : nat) (q : Question.t) (o : outcome Review.t)
  : list Server.Effect :=
  Server.Send (Server.progress i (Question.code q)
                 (substring 0 80 (Question.question q)))
  :: match o with
     | Returned r =>
         (map (fun line => Server.Send (Server.log i line)) (Review.agentLog r)
          ++ [Server.Send (Server.question_done i r)])%list
     | Thrown e => [Server.Send (Server.question_error i (message e))]
     end.

(** [s] neither starts nor ends with white space. *)
Definition trimmed (s : string) : Prop :=
  Str.tokenAt Str.whiteSpace s = None
  /\ Str.tokenAt (map Str.rev Str.whiteSpace) (Str.rev s) = None.

(** The state after [callLLM] has been entered with [c] and has sent
    nothing. *)
Definition entered (c : Call) (st : State) : State :=
  {| agentLog := agentLog st; console := console st;
     calls := (calls st ++ [c])%list; requests := requests st |}.

(** Characters that can start a match of one of the three expressions of
    [parseJSON], or delimit its span. *)
Definition plainChar (c : ascii) : bool :=
  negb (Ascii.eqb c "`" || Ascii.eqb c "<" || Ascii.eqb c "{"
        || Ascii.eqb c "}")%char.

Fixpoint plain (s : string) : bool :=
  match s with
  | "" => true
  | String c s' => plainChar c && plain s'
  end.

(* ------------------------------------------------------------------------- *)
(** ** Vocabulary for the query summary *)

(** The entry of the summary for a question whose unit was not checked. *)
Definition unitNotice : string :=
  "Unit mismatch: move to " ++ dq ++ "undefined" ++ dq.

(** A summary entry that does not open with the warning sign: its first
    byte is not the first byte of the sign. *)
Definition unmarked (part : string) : Prop :=
  match part with
  | String c _ => c <> "226"%char
  | "" => False
  end.

(* ------------------------------------------------------------------------- *)
(** ** Vocabulary for degraded results and for the log *)

(** The call [c], made in [st], is rejected with [e]. *)
Definition failsWith (host : Host) (c : Call) (st : State) (e : exn) : Prop :=
  fst (callLLM host c st) = Thrown e.

(** [agent], run in [st], logs its first line, then its failure line with
    the message of [e], and returns [default]. *)
Definition degraded {A} (agent : M A) (st : State) (start failed : string)
           (e : exn) (default : A) : Prop :=
  fst (agent st) = Returned default
  /\ agentLog (snd (agent st))
     = (agentLog st ++ [start; (failed ++ message e)%string])%list.

(** The first line of every review. *)
Definition openingLine (q : Question.t) : string :=
  "🎯 Orchestrator: Analyzing question " ++ Question.code q ++ "...".

(** The line that closes the log of a completed review. *)
Definition completionLine (elapsed : string) (agents : nat) : string :=
  "✓ Complete in " ++ elapsed ++ "s — " ++ natToString agents
  ++ " agents ran".

(** [m] leaves the state as it found it. *)
Definition pure {A} (m : M A) : Prop := forall st, snd (m st) = st.

(* ------------------------------------------------------------------------- *)
(** ** Further fixtures *)

Module Fixture2.
Import Fixture.

(** The verifier's model answers with a verdict that is an object with a
    property named toString. *)
Definition oddVerdictText : string :=
  "{" ++ quoted "correctAnswer" ++ ":" ++ quoted "B" ++ ","
  ++ quoted "verdict" ++ ":{" ++ quoted "toString" ++ ":null}}".

Definition oddVerdict : JsObject :=
  [ ("correctAnswer", VString "B");
    ("verdict", VObject [("toString", VNull)]) ].

Definition odd : Host :=
  scripted [("verify", oddVerdictText)] [(oddVerdictText, oddVerdict)].
End Fixture2.

Module Fixture3.
(** Results as a client sends them back: one for the first question. *)
Definition flagged : value :=
  VObject [ ("index", VNumber 0%float);
            ("needsHuman", VBool true);
            ("unitMatch", VBool false);
            ("suggestedUnit", VString "Partnerships") ].
End Fixture3.

(* ========================================================================= *)
(** * Properties *)

Module StrFacts.
Import Str.

Lemma app_assoc (a b c : string) : (a ++ b) ++ c = a ++ (b ++ c).
Proof. induction a as [|x a IH]; simpl; [reflexivity | now rewrite IH]. Qed.

Lemma app_nil_r (a : string) : a ++ "" = a.
Proof. induction a as [|x a IH]; simpl; [reflexivity | now rewrite IH]. Qed.

Lemma length_app (a b : string) :
  String.length (a ++ b) = String.length a + String.length b.
Proof. induction a as [|x a IH]; simpl; [reflexivity | now rewrite IH]. Qed.

Lemma drop_app (a b : string) : drop (String.length a) (a ++ b) = b.
Proof. induction a as [|x a IH]; simpl; [now destruct b | exact IH]. Qed.

Lemma drop_app_le (n : nat) (a b : string) :
  n <= String.length a -> drop n (a ++ b) = drop n a ++ b.
Proof.
  revert a; induction n as [|n IH]; intros a Hn.
  - now destruct a; destruct b.
  - destruct a as [|x a]; simpl in *; [lia | apply IH; lia].
Qed.

Lemma drop_length_le (n : nat) (s : string) :
  String.length (drop n s) <= String.length s.
Proof.
  revert s; induction n as [|n IH]; intros [|c s]; simpl; auto.
Qed.

Lemma eqbChar_refl i c : eqbChar i c c = true.
Proof. destruct i; simpl; apply Ascii.eqb_refl. Qed.

(** *** Literal matching against a text that is extended on the right *)

Lemma matchLit_length i p s r :
  matchLit i p s = Some r ->
  String.length s = String.length p + String.length r.
Proof.
  revert s; induction p as [|a p IH]; intros s H; simpl in *.
  - now inversion H.
  - destruct s as [|b s]; [discriminate|].
    destruct (eqbChar i a b); [|discriminate].
    simpl; now rewrite (IH _ H).
Qed.

Lemma matchLit_drop i p s r :
  matchLit i p s = Some r -> r = drop (String.length p) s.
Proof.
  revert s; induction p as [|a p IH]; intros s H; simpl in *.
  - inversion H; now destruct r.
  - destruct s as [|b s]; [discriminate|].
    destruct (eqbChar i a b); [|discriminate]. now apply IH.
Qed.

Lemma matchLit_app i p s r x :
  matchLit i p s = Some r -> matchLit i p (s ++ x) = Some (r ++ x).
Proof.
  revert s; induction p as [|a p IH]; intros s H; simpl in *.
  - now inversion H.
  - destruct s as [|b s]; [discriminate|]. simpl.
    destruct (eqbChar i a b); [now apply IH | discriminate].
Qed.

Lemma matchLit_self i p x : matchLit i p (p ++ x) = Some x.
Proof.
  induction p as [|a p IH]; simpl; [reflexivity|].
  now rewrite eqbChar_refl.
Qed.

(** A failed match stays failed when the text is extended by something
    whose first character the pattern does not contain. *)
Lemma matchLit_None_app i p s h x :
  matchLit i p s = None -> avoids i h p = true ->
  matchLit i p (s ++ String h x) = None.
Proof.
  revert s; induction p as [|a p IH]; intros s H Hav; simpl in *.
  - discriminate.
  - apply andb_prop in Hav as [Ha Hp].
    destruct s as [|b s]; simpl.
    + apply negb_true_iff in Ha. now rewrite Ha.
    + destruct (eqbChar i a b); [now apply IH | reflexivity].
Qed.

(** The same when only the tail of the pattern avoids [h], provided the
    text was not empty. *)
Lemma matchLit_None_app_tail i a p b s h x :
  matchLit i (String a p) (String b s) = None -> avoids i h p = true ->
  matchLit i (String a p) (String b s ++ String h x) = None.
Proof.
  simpl. intros H Hav.
  destruct (eqbChar i a b); [|reflexivity].
  destruct p as [|a' p]; [discriminate|].
  now apply matchLit_None_app.
Qed.

Lemma matchLit_None_long i p s x :
  matchLit i p s = None -> String.length p <= String.length s ->
  matchLit i p (s ++ x) = None.
Proof.
  revert s; induction p as [|a p IH]; intros s H Hl; simpl in *.
  - discriminate.
  - destruct s as [|b s]; simpl in *; [lia|].
    destruct (eqbChar i a b); [apply IH; [assumption | lia] | reflexivity].
Qed.

(** *** First occurrence *)

Lemma findLit_bound i p s k :
  findLit i p s = Some k -> k + String.length p <= String.length s.
Proof.
  revert k; induction s as [|c s IH]; intros k H.
  - simpl in H. destruct (matchLit i p "") eqn:E; [|discriminate].
    inversion H; subst. apply matchLit_length in E. simpl in *; lia.
  - cbn [findLit] in H.
    destruct (matchLit i p (String c s)) eqn:E.
    + inversion H; subst. apply matchLit_length in E. lia.
    + destruct (findLit i p s) as [k'|] eqn:F; [|discriminate].
      inversion H; subst. specialize (IH _ eq_refl). simpl; lia.
Qed.

Lemma findLit_app i p s k x :
  findLit i p s = Some k -> findLit i p (s ++ x) = Some k.
Proof.
  revert k; induction s as [|c s IH]; intros k H.
  - simpl in H. destruct (matchLit i p "") eqn:E; [|discriminate].
    inversion H; subst.
    destruct p; [|discriminate]. now destruct x.
  - cbn [findLit] in H.
    destruct (matchLit i p (String c s)) eqn:E.
    + inversion H; subst. change (String c s ++ x) with (String c s ++ x).
      cbn [findLit append].
      change (String c (s ++ x)) with (String c s ++ x).
      now rewrite (@matchLit_app _ _ _ _ x E).
    + destruct (findLit i p s) as [k'|] eqn:F; [|discriminate].
      inversion H; subst.
      pose proof (@findLit_bound _ _ _ _ F) as Hb.
      cbn [append findLit].
      change (String c (s ++ x)) with (String c s ++ x).
      rewrite matchLit_None_long; [|assumption|simpl; lia].
      now rewrite (IH _ eq_refl).
Qed.

Lemma findLit_None_app i a p s h :
  findLit i (String a p) s = None -> avoids i h (String a p) = true ->
  findLit i (String a p) (s ++ String h "") = None.
Proof.
  intros H Hav. induction s as [|c s IH].
  - simpl. apply andb_prop in Hav as [Ha _]. apply negb_true_iff in Ha.
    now rewrite Ha.
  - cbn [findLit] in H.
    destruct (matchLit i (String a p) (String c s)) eqn:E; [discriminate|].
    destruct (findLit i (String a p) s) eqn:F; [discriminate|].
    cbn [append findLit].
    change (String c (s ++ String h "")) with (String c s ++ String h "").
    rewrite matchLit_None_app; [|assumption|assumption].
    now rewrite IH.
Qed.

(** The first occurrence of [p] in [r ++ p ++ y] is at the end of [r] when
    [r] holds no occurrence and [p] has no border starting with its own
    first character. *)
Lemma findLit_first i a p r y :
  findLit i (String a p) r = None -> avoids i a p = true ->
  findLit i (String a p) (r ++ String a p ++ y) = Some (String.length r).
Proof.
  intros H Hav. induction r as [|c r IH].
  - cbn [append findLit String.length].
    change (String a (p ++ y)) with (String a p ++ y).
    now rewrite matchLit_self.
  - cbn [findLit] in H.
    destruct (matchLit i (String a p) (String c r)) eqn:E; [discriminate|].
    destruct (findLit i (String a p) r) eqn:F; [discriminate|].
    cbn [append findLit String.length].
    change (String c (r ++ String a (p ++ y)))
      with (String c r ++ String a (p ++ y)).
    rewrite matchLit_None_app_tail; [|assumption|assumption].
    cbn [append] in IH. now rewrite IH.
Qed.
End StrFacts.

Module ReplaceFacts.
Import Str StrFacts.

Lemma replaceFrom_drop re k s :
  replaceFrom re k s = replaceAll re (drop k s).
Proof.
  revert k; induction s as [|c s IH]; intros [|k]; try reflexivity.
  simpl. apply IH.
Qed.

Lemma replaceAll_match re s n :
  re s = Some n -> 0 < n -> replaceAll re s = replaceAll re (drop n s).
Proof.
  intros H Hn. destruct n as [|n]; [lia|].
  destruct s as [|c s]; [reflexivity|].
  unfold replaceAll at 1. cbn [replaceFrom]. rewrite H. cbn [drop].
  apply replaceFrom_drop.
Qed.

Lemma replaceAll_keep re c s :
  re (String c s) = None ->
  replaceAll re (String c s) = String c (replaceAll re s).
Proof. intros H. unfold replaceAll. cbn [replaceFrom]. now rewrite H. Qed.

(** Strong induction on the length of the scanned text. *)
Lemma length_ind (P : string -> Prop) :
  (forall s, (forall s', String.length s' < String.length s -> P s') -> P s) ->
  forall s, P s.
Proof.
  intros H s.
  assert (G : forall n s, String.length s < n -> P s).
  { induction n as [|n IH]; intros s0 Hs; [lia|].
    apply H. intros s' Hs'. apply IH. lia. }
  apply (G (S (String.length s))). lia.
Qed.

(** *** The fence expressions never match at a character that is not a
    backtick *)

Lemma eqbChar_backtick c : eqbChar true "`" c = Ascii.eqb c backtick.
Proof.
  destruct c as [b0 b1 b2 b3 b4 b5 b6 b7].
  destruct b0, b1, b2, b3, b4, b5, b6, b7; reflexivity.
Qed.

Lemma fenceJsonRe_head c s :
  Ascii.eqb c backtick = false -> fenceJsonRe (String c s) = None.
Proof.
  intros H. unfold fenceJsonRe. cbn [matchLit].
  now rewrite eqbChar_backtick, H.
Qed.

Lemma fenceRe_head c s :
  Ascii.eqb c backtick = false -> fenceRe (String c s) = None.
Proof.
  intros H. unfold fenceRe. cbn [matchLit eqbChar].
  rewrite Ascii.eqb_sym. fold backtick. now rewrite H.
Qed.

Lemma fenceJson_needs_fence s :
  matchLit false "```" s = None -> fenceJsonRe s = None.
Proof.
  unfold fenceJsonRe. intros H.
  destruct s as [|c1 [|c2 [|c3 s]]]; cbn [matchLit] in *;
    rewrite ?eqbChar_backtick; cbn [eqbChar] in H;
    rewrite ?(Ascii.eqb_sym "`") in H; fold backtick in H; try reflexivity.
  - now destruct (Ascii.eqb c1 backtick).
  - destruct (Ascii.eqb c1 backtick); [|reflexivity].
    now destruct (Ascii.eqb c2 backtick).
  - destruct (Ascii.eqb c1 backtick); [|reflexivity].
    destruct (Ascii.eqb c2 backtick); [|reflexivity].
    destruct (Ascii.eqb c3 backtick); [discriminate|reflexivity].
Qed.

Lemma fenceRe_needs_fence s :
  matchLit false "```" s = None -> fenceRe s = None.
Proof. unfold fenceRe. now intros ->. Qed.

Lemma drop_drop n m s : drop (n + m) s = drop m (drop n s).
Proof.
  revert s; induction n as [|n IH]; intros s; [reflexivity|].
  destruct s as [|c s]; simpl; [now destruct m | apply IH].
Qed.

Lemma drop_length_lt n c s :
  0 < n -> String.length (drop n (String c s)) < String.length (String c s).
Proof.
  intros Hn. destruct n as [|n]; [lia|]. cbn [drop String.length].
  pose proof (drop_length_le n s). lia.
Qed.

Lemma optNewline_le s : optNewline s <= 1.
Proof. destruct s as [|c s]; simpl; [lia|]. destruct (Ascii.eqb c _); lia. Qed.

Lemma optNewline_app c s x : optNewline (String c s ++ x) = optNewline (String c s).
Proof. reflexivity. Qed.

(** *** The closing fence appended to an arbitrary text *)

Lemma fenceJson_closing t :
  replaceAll fenceJsonRe (t ++ closing) = replaceAll fenceJsonRe t ++ closing
  \/ replaceAll fenceJsonRe (t ++ closing) = replaceAll fenceJsonRe t ++ "```".
Proof.
  induction t as [t IH] using length_ind.
  destruct t as [|c t0]; [left; reflexivity|].
  destruct (fenceJsonRe (String c t0)) as [n|] eqn:E.
  - unfold fenceJsonRe in E.
    destruct (matchLit true "```json" (String c t0)) as [rest|] eqn:M;
      [|discriminate].
    injection E as <-.
    pose proof (matchLit_length _ _ _ M) as L.
    pose proof (matchLit_drop _ _ _ M) as D.
    assert (E' : fenceJsonRe (String c t0 ++ closing)
                 = Some (7 + optNewline (rest ++ closing))).
    { unfold fenceJsonRe. now rewrite (@matchLit_app _ _ _ _ closing M). }
    assert (E0 : fenceJsonRe (String c t0) = Some (7 + optNewline rest)).
    { unfold fenceJsonRe. now rewrite M. }
    rewrite (replaceAll_match _ _ E') by lia.
    rewrite (replaceAll_match _ _ E0) by lia.
    destruct rest as [|d rest].
    + right.
      change (optNewline ("" ++ closing)) with 1.
      change (optNewline "") with 0.
      change (String.length "```json") with 7 in D, L.
      rewrite (drop_drop 7 1), Nat.add_0_r.
      rewrite drop_app_le by (rewrite L; lia).
      rewrite <- D. reflexivity.
    + rewrite optNewline_app.
      pose proof (optNewline_le (String d rest)) as O.
      change (String.length "```json") with 7 in L.
      cbn [String.length] in L.
      rewrite drop_app_le by (cbn [String.length]; lia).
      apply IH. apply drop_length_lt. lia.
  - assert (E' : fenceJsonRe (String c t0 ++ closing) = None).
    { unfold fenceJsonRe in *.
      destruct (matchLit true "```json" (String c t0)) eqn:M; [discriminate|].
      unfold closing, nl. cbn [append].
      change (String c (t0 ++ ?x)) with (String c t0 ++ x).
      rewrite matchLit_None_app; [reflexivity|assumption|reflexivity]. }
    cbn [append] in *. rewrite (replaceAll_keep _ _ _ E').
    rewrite (replaceAll_keep _ _ _ E). cbn [append].
    destruct (IH t0) as [H|H]; [simpl; lia| |]; rewrite H; auto.
Qed.
End ReplaceFacts.

Module FenceFacts.
Import Str StrFacts ReplaceFacts.

Lemma fenceRe_closing t :
  replaceAll fenceRe (t ++ closing) = replaceAll fenceRe t ++ nl
  \/ replaceAll fenceRe (t ++ closing) = replaceAll fenceRe t.
Proof.
  induction t as [t IH] using length_ind.
  destruct t as [|c t0]; [left; reflexivity|].
  destruct (fenceRe (String c t0)) as [n|] eqn:E.
  - unfold fenceRe in E.
    destruct (matchLit false "```" (String c t0)) as [rest|] eqn:M;
      [|discriminate].
    injection E as <-.
    pose proof (matchLit_length _ _ _ M) as L.
    pose proof (matchLit_drop _ _ _ M) as D.
    change (String.length "```") with 3 in D, L.
    assert (E' : fenceRe (String c t0 ++ closing)
                 = Some (3 + optNewline (rest ++ closing))).
    { unfold fenceRe. now rewrite (@matchLit_app _ _ _ _ closing M). }
    assert (E0 : fenceRe (String c t0) = Some (3 + optNewline rest)).
    { unfold fenceRe. now rewrite M. }
    rewrite (replaceAll_match _ _ E') by lia.
    rewrite (replaceAll_match _ _ E0) by lia.
    destruct rest as [|d rest].
    + right.
      change (optNewline ("" ++ closing)) with 1.
      change (optNewline "") with 0.
      rewrite (drop_drop 3 1), Nat.add_0_r.
      rewrite drop_app_le by (rewrite L; lia).
      rewrite <- D. reflexivity.
    + rewrite optNewline_app.
      pose proof (optNewline_le (String d rest)) as O.
      cbn [String.length] in L.
      rewrite drop_app_le by (cbn [String.length]; lia).
      apply IH. apply drop_length_lt. lia.
  - assert (E' : fenceRe (String c t0 ++ closing) = None).
    { unfold fenceRe in *.
      destruct (matchLit false "```" (String c t0)) eqn:M; [discriminate|].
      unfold closing, nl. cbn [append].
      change (String c (t0 ++ ?x)) with (String c t0 ++ x).
      rewrite matchLit_None_app; [reflexivity|assumption|reflexivity]. }
    cbn [append] in *. rewrite (replaceAll_keep _ _ _ E').
    rewrite (replaceAll_keep _ _ _ E). cbn [append].
    destruct (IH t0) as [H|H]; [simpl; lia| |]; rewrite H; auto.
Qed.

(** A bare fence marker appended to the text disappears, also when the
    text ends in one or two backticks. *)
Lemma fenceRe_marker t :
  replaceAll fenceRe (t ++ "```") = replaceAll fenceRe t.
Proof.
  induction t as [t IH] using length_ind.
  destruct t as [|c t0]; [reflexivity|].
  destruct (fenceRe (String c t0)) as [n|] eqn:E.
  - unfold fenceRe in E.
    destruct (matchLit false "```" (String c t0)) as [rest|] eqn:M;
      [|discriminate].
    injection E as <-.
    pose proof (matchLit_length _ _ _ M) as L.
    change (String.length "```") with 3 in L.
    assert (O : optNewline (rest ++ "```") = optNewline rest)
      by now destruct rest.
    assert (E' : fenceRe (String c t0 ++ "```") = Some (3 + optNewline rest)).
    { unfold fenceRe. now rewrite (@matchLit_app _ _ _ _ "```" M), O. }
    assert (E0 : fenceRe (String c t0) = Some (3 + optNewline rest)).
    { unfold fenceRe. now rewrite M. }
    rewrite (replaceAll_match _ _ E') by lia.
    rewrite (replaceAll_match _ _ E0) by lia.
    assert (Hn : 3 + optNewline rest <= String.length (String c t0)).
    { rewrite L. destruct rest as [|d rest]; [simpl; lia|].
      pose proof (optNewline_le (String d rest)). cbn [String.length]. lia. }
    rewrite drop_app_le by exact Hn.
    apply IH. apply drop_length_lt. lia.
  - assert (K : fenceRe (String c t0 ++ "```") = None
                \/ String c t0 = "`" \/ String c t0 = "``").
    { destruct (Ascii.eqb c backtick) eqn:C1;
        [|left; apply fenceRe_head; assumption].
      apply Ascii.eqb_eq in C1; subst c.
      destruct t0 as [|c2 t1]; [right; left; reflexivity|].
      destruct (Ascii.eqb c2 backtick) eqn:C2.
      2:{ left. unfold fenceRe. cbn [append matchLit eqbChar].
          rewrite (Ascii.eqb_sym _ c2). fold backtick. now rewrite C2. }
      apply Ascii.eqb_eq in C2; subst c2.
      destruct t1 as [|c3 t2]; [right; right; reflexivity|].
      destruct (Ascii.eqb c3 backtick) eqn:C3.
      - apply Ascii.eqb_eq in C3; subst c3. discriminate E.
      - left. unfold fenceRe. cbn [append matchLit eqbChar].
        rewrite (Ascii.eqb_sym _ c3). fold backtick. now rewrite C3. }
    destruct K as [E'|[->| ->]]; try reflexivity.
    cbn [append] in *. rewrite (replaceAll_keep _ _ _ E').
    rewrite (replaceAll_keep _ _ _ E).
    now rewrite IH by (simpl; lia).
Qed.

(** *** The reasoning trace *)

Lemma thinkRe_newline v :
  replaceAll thinkRe (v ++ nl) = replaceAll thinkRe v ++ nl.
Proof.
  induction v as [v IH] using length_ind.
  destruct v as [|c v0]; [reflexivity|].
  destruct (thinkRe (String c v0)) as [n|] eqn:E.
  - unfold thinkRe in E.
    destruct (matchLit true "<think>" (String c v0)) as [rest|] eqn:M;
      [|discriminate].
    destruct (findLit true "</think>" rest) as [k|] eqn:F; [|discriminate].
    injection E as <-.
    pose proof (matchLit_length _ _ _ M) as L.
    pose proof (findLit_bound _ _ _ F) as B.
    change (String.length "<think>") with 7 in L.
    change (String.length "</think>") with 8 in B.
    assert (E' : thinkRe (String c v0 ++ nl) = Some (7 + k + 8)).
    { unfold thinkRe. rewrite (@matchLit_app _ _ _ _ nl M).
      now rewrite (@findLit_app _ _ _ _ nl F). }
    assert (E0 : thinkRe (String c v0) = Some (7 + k + 8)).
    { unfold thinkRe. now rewrite M, F. }
    rewrite (replaceAll_match _ _ E') by lia.
    rewrite (replaceAll_match _ _ E0) by lia.
    rewrite drop_app_le by lia.
    apply IH. apply drop_length_lt. lia.
  - assert (E' : thinkRe (String c v0 ++ nl) = None).
    { unfold thinkRe in *. unfold nl.
      destruct (matchLit true "<think>" (String c v0)) as [rest|] eqn:M.
      - rewrite (@matchLit_app _ _ _ _ _ M).
        destruct (findLit true "</think>" rest) eqn:F; [discriminate|].
        rewrite findLit_None_app; [reflexivity|assumption|reflexivity].
      - rewrite matchLit_None_app; [reflexivity|assumption|reflexivity]. }
    cbn [append] in *. rewrite (replaceAll_keep _ _ _ E').
    rewrite (replaceAll_keep _ _ _ E). cbn [append].
    now rewrite IH by (simpl; lia).
Qed.

(** A reasoning block at the head of the text is removed whole. *)
Lemma thinkRe_block r y :
  findLit true "</think>" r = None ->
  replaceAll thinkRe ("<think>" ++ r ++ "</think>" ++ y)
  = replaceAll thinkRe y.
Proof.
  intros H.
  assert (E : thinkRe ("<think>" ++ r ++ "</think>" ++ y)
              = Some (7 + String.length r + 8)).
  { unfold thinkRe. rewrite matchLit_self.
    change ("</think>" ++ y) with (String "<" "/think>" ++ y).
    rewrite findLit_first; [reflexivity|assumption|reflexivity]. }
  rewrite (replaceAll_match _ _ E) by lia.
  f_equal.
  replace (7 + String.length r + 8)
    with (String.length "<think>"
          + (String.length r + String.length "</think>")) by (simpl; lia).
  now rewrite drop_drop, drop_app, drop_drop, drop_app, drop_app.
Qed.
End FenceFacts.

Module SpanFacts.
Import Str StrFacts ReplaceFacts FenceFacts.

Lemma hasChar_app c a b : hasChar c (a ++ b) = hasChar c a || hasChar c b.
Proof.
  induction a as [|x a IH]; simpl; [reflexivity|].
  now rewrite IH, orb_assoc.
Qed.

Lemma hasChar_rev c a : hasChar c (rev a) = hasChar c a.
Proof.
  induction a as [|x a IH]; simpl; [reflexivity|].
  rewrite hasChar_app, IH. simpl. rewrite orb_false_r. apply orb_comm.
Qed.

Lemma noBrace_app a b : noBrace (a ++ b) = noBrace a && noBrace b.
Proof.
  unfold noBrace. rewrite !hasChar_app.
  destruct (hasChar "{" a), (hasChar "{" b), (hasChar "}" a), (hasChar "}" b);
    reflexivity.
Qed.

Lemma noBrace_rev a : noBrace (rev a) = noBrace a.
Proof. unfold noBrace. now rewrite !hasChar_rev. Qed.

Lemma indexOf_skip c a s :
  hasChar c a = false ->
  indexOf c (a ++ s) = option_map (Nat.add (String.length a)) (indexOf c s).
Proof.
  intros H. induction a as [|x a IH]; simpl in *.
  - now destruct (indexOf c s).
  - apply orb_false_elim in H as [H1 H2]. rewrite H1, (IH H2).
    now destruct (indexOf c s).
Qed.

Lemma indexOf_None c s : hasChar c s = false -> indexOf c s = None.
Proof.
  intros H. induction s as [|x s IH]; simpl in *; [reflexivity|].
  apply orb_false_elim in H as [H1 H2]. now rewrite H1, (IH H2).
Qed.

Lemma indexOf_app_r c s b :
  hasChar c b = false -> indexOf c (s ++ b) = indexOf c s.
Proof.
  intros H. induction s as [|x s IH]; simpl.
  - now apply indexOf_None.
  - now rewrite IH.
Qed.

Lemma lastIndexOf_None c s : hasChar c s = false -> lastIndexOf c s = None.
Proof.
  intros H. induction s as [|x s IH]; simpl in *; [reflexivity|].
  apply orb_false_elim in H as [H1 H2]. now rewrite (IH H2), H1.
Qed.

Lemma lastIndexOf_skip c a s :
  hasChar c a = false ->
  lastIndexOf c (a ++ s)
  = option_map (Nat.add (String.length a)) (lastIndexOf c s).
Proof.
  intros H. induction a as [|x a IH]; simpl in *.
  - now destruct (lastIndexOf c s).
  - apply orb_false_elim in H as [H1 H2]. rewrite (IH H2), H1.
    now destruct (lastIndexOf c s).
Qed.

Lemma lastIndexOf_app_r c s b :
  hasChar c b = false -> lastIndexOf c (s ++ b) = lastIndexOf c s.
Proof.
  intros H. induction s as [|x s IH]; simpl.
  - now apply lastIndexOf_None.
  - now rewrite IH.
Qed.

Lemma lastIndexOf_bound c s j :
  lastIndexOf c s = Some j -> j < String.length s.
Proof.
  revert j; induction s as [|x s IH]; intros j H; simpl in *; [discriminate|].
  destruct (lastIndexOf c s) as [k|].
  - inversion H; subst. specialize (IH _ eq_refl). lia.
  - destruct (Ascii.eqb x c); inversion H; lia.
Qed.

Lemma substring_zero n s : substring n 0 s = "".
Proof.
  revert n; induction s as [|x s IH]; intros [|n]; simpl; auto.
Qed.

Lemma substring_skip a n m s :
  substring (String.length a + n) m (a ++ s) = substring n m s.
Proof. induction a as [|x a IH]; simpl; auto. Qed.

Lemma substring_app_l n m s b :
  n + m <= String.length s -> substring n m (s ++ b) = substring n m s.
Proof.
  revert n m; induction s as [|x s IH]; intros n m H; simpl in *.
  - assert (n = 0) by lia; assert (m = 0) by lia; subst.
    now rewrite substring_zero.
  - destruct n as [|n].
    + destruct m as [|m]; [reflexivity|]. f_equal. apply (IH 0 m). lia.
    + apply IH. lia.
Qed.

(** Text without braces on either side does not move the span. *)
Lemma jsonSpan_frame a s b :
  noBrace a = true -> noBrace b = true ->
  jsonSpan (a ++ s ++ b) = jsonSpan s.
Proof.
  unfold noBrace. intros Ha Hb.
  apply andb_prop in Ha as [Ha1 Ha2]. apply andb_prop in Hb as [Hb1 Hb2].
  apply negb_true_iff in Ha1, Ha2, Hb1, Hb2.
  unfold jsonSpan.
  rewrite indexOf_skip, indexOf_app_r, lastIndexOf_skip, lastIndexOf_app_r
    by assumption.
  destruct (indexOf "{" s) as [i|]; [|reflexivity].
  destruct (lastIndexOf "}" s) as [j|] eqn:J; [|reflexivity].
  apply lastIndexOf_bound in J.
  cbn [option_map]. f_equal. unfold slice.
  replace (String.length a + j + 1 - (String.length a + i)) with (j + 1 - i)
    by lia.
  rewrite substring_skip.
  destruct (le_lt_dec i j) as [L|L].
  - apply substring_app_l. lia.
  - replace (j + 1 - i) with 0 by lia. now rewrite !substring_zero.
Qed.

(** *** [trim] only removes text without braces *)

Lemma matchLit_exact p s r : matchLit false p s = Some r -> s = p ++ r.
Proof.
  revert s; induction p as [|a p IH]; intros s H; simpl in *.
  - now inversion H.
  - destruct s as [|b s]; [discriminate|].
    destruct (Ascii.eqb a b) eqn:E; [|discriminate].
    apply Ascii.eqb_eq in E; subst. now rewrite (IH _ H).
Qed.

Lemma tokenAt_split tokens s n :
  forallb noBrace tokens = true -> tokenAt tokens s = Some n ->
  exists t, s = t ++ drop n s /\ noBrace t = true.
Proof.
  induction tokens as [|t ts IH]; intros Hall H; simpl in *; [discriminate|].
  apply andb_prop in Hall as [Ht Hts].
  destruct (matchLit false t s) as [r|] eqn:M.
  - inversion H; subst. exists t. split; [|assumption].
    rewrite <- (matchLit_drop _ _ _ M). now apply matchLit_exact.
  - now apply IH.
Qed.

Lemma stripTokens_split tokens fuel s :
  forallb noBrace tokens = true ->
  exists a, s = a ++ stripTokens tokens fuel s /\ noBrace a = true.
Proof.
  intros Hall. revert s; induction fuel as [|f IH]; intros s; simpl.
  - now exists "".
  - destruct (tokenAt tokens s) as [n|] eqn:T; [|now exists ""].
    destruct (tokenAt_split _ _ Hall T) as (t & Hs & Ht).
    destruct (IH (drop n s)) as (a & Ha & Hn).
    exists (t ++ a). split.
    + rewrite app_assoc, <- Ha. exact Hs.
    + now rewrite noBrace_app, Ht, Hn.
Qed.

Lemma rev_app a b : rev (a ++ b) = rev b ++ rev a.
Proof.
  induction a as [|x a IH]; simpl.
  - now rewrite app_nil_r.
  - now rewrite IH, app_assoc.
Qed.

Lemma rev_involutive a : rev (rev a) = a.
Proof.
  induction a as [|x a IH]; simpl; [reflexivity|].
  now rewrite rev_app, IH.
Qed.

Lemma jsonSpan_trim s : jsonSpan (trim s) = jsonSpan s.
Proof.
  unfold trim.
  destruct (stripTokens_split whiteSpace (String.length s) s eq_refl)
    as (a & Ha & Hna).
  fold (trimStart s) in Ha.
  set (u := trimStart s) in *.
  destruct (stripTokens_split (map rev whiteSpace) (String.length u) (rev u)
              eq_refl) as (b & Hb & Hnb).
  apply (f_equal rev) in Hb. rewrite rev_involutive, rev_app in Hb.
  fold (trimEnd u) in Hb.
  transitivity (jsonSpan (a ++ trimEnd u ++ rev b)).
  - symmetry. apply jsonSpan_frame; [assumption|]. now rewrite noBrace_rev.
  - f_equal. now rewrite <- Hb.
Qed.
End SpanFacts.

Module WrapFacts.
Import Str StrFacts ReplaceFacts FenceFacts SpanFacts.

Lemma optNewline_length s : optNewline s <= String.length s.
Proof.
  destruct s as [|c s]; cbn [optNewline String.length]; [lia|].
  destruct (Ascii.eqb c _); lia.
Qed.

Lemma optNewline_mark s x : optNewline (s ++ String "<" x) = optNewline s.
Proof. destruct s; reflexivity. Qed.

(** A text is processed in two parts when no match runs over the end of
    the first part and matches in it do not depend on what follows. *)
Lemma replaceFrom_split re b a k :
  (forall s n, re s = Some n -> n <= String.length s) ->
  (forall c s, re (String c s ++ b) = re (String c s)) ->
  k <= String.length a ->
  replaceFrom re k (a ++ b) = replaceFrom re k a ++ replaceAll re b.
Proof.
  intros Bound Mark. revert k.
  induction a as [|c a IH]; intros k Hk.
  - cbn [String.length] in Hk. replace k with 0 by lia.
    destruct b; reflexivity.
  - cbn [append replaceFrom].
    change (String c (a ++ b)) with (String c a ++ b).
    cbn [String.length] in Hk. destruct k as [|k].
    + rewrite Mark.
      destruct (re (String c a)) as [[|n]|] eqn:E.
      * cbn [append]. f_equal. apply IH. lia.
      * apply IH. apply Bound in E. cbn [String.length] in E. lia.
      * cbn [append]. f_equal. apply IH. lia.
    + apply IH. lia.
Qed.

Lemma fenceRe_bound s n : fenceRe s = Some n -> n <= String.length s.
Proof.
  unfold fenceRe. destruct (matchLit false "```" s) as [rest|] eqn:M;
    [|discriminate].
  intros E. injection E as <-.
  apply matchLit_length in M. pose proof (optNewline_length rest).
  cbn [String.length] in M. lia.
Qed.

Lemma fenceJsonRe_bound s n : fenceJsonRe s = Some n -> n <= String.length s.
Proof.
  unfold fenceJsonRe. destruct (matchLit true "```json" s) as [rest|] eqn:M;
    [|discriminate].
  intros E. injection E as <-.
  apply matchLit_length in M. pose proof (optNewline_length rest).
  cbn [String.length] in M. lia.
Qed.

Lemma fenceRe_mark s x : fenceRe (s ++ String "<" x) = fenceRe s.
Proof.
  unfold fenceRe. destruct (matchLit false "```" s) as [rest|] eqn:M.
  - rewrite (matchLit_app _ _ _ (String "<" x) M).
    now rewrite optNewline_mark.
  - now rewrite matchLit_None_app.
Qed.

Lemma fenceJsonRe_mark s x : fenceJsonRe (s ++ String "<" x) = fenceJsonRe s.
Proof.
  unfold fenceJsonRe. destruct (matchLit true "```json" s) as [rest|] eqn:M.
  - rewrite (matchLit_app _ _ _ (String "<" x) M).
    now rewrite optNewline_mark.
  - now rewrite matchLit_None_app.
Qed.

(** A fence pass goes through the reasoning block, removing the markers
    the reasoning text holds, and leaves the delimiters of the block. *)
Lemma fence_pass_block re r y :
  fenceLike re ->
  (forall s n, re s = Some n -> n <= String.length s) ->
  (forall s x, re (s ++ String "<" x) = re s) ->
  replaceAll re (reasoningBlock r ++ nl ++ y)
  = reasoningBlock (replaceAll re r) ++ nl ++ replaceAll re y.
Proof.
  intros Hre Bound Mark. unfold reasoningBlock, nl.
  rewrite !app_assoc. cbn [append].
  do 7 (rewrite replaceAll_keep by (apply Hre; reflexivity); f_equal).
  unfold replaceAll at 1.
  rewrite replaceFrom_split;
    [|exact Bound|intros c s; apply Mark|apply Nat.le_0_l].
  fold (replaceAll re r). f_equal.
  do 9 (rewrite replaceAll_keep by (apply Hre; reflexivity); f_equal).
Qed.

Lemma stripAll_wrap r t :
  findLit true "</think>" (stripFences r) = None ->
  stripAll (wrapResponse r t) = nl ++ stripAll t ++ nl
  \/ stripAll (wrapResponse r t) = nl ++ stripAll t.
Proof.
  intros Hc. unfold stripAll, wrapResponse.
  rewrite (@fence_pass_block fenceJsonRe r _ fenceJson_needs_fence
             fenceJsonRe_bound fenceJsonRe_mark).
  assert (Open : replaceAll fenceJsonRe (fencedBlock t)
                 = replaceAll fenceJsonRe (t ++ closing)).
  { unfold fencedBlock.
    rewrite (@replaceAll_match fenceJsonRe _ 8); [reflexivity|reflexivity|lia]. }
  rewrite Open.
  set (u := replaceAll fenceJsonRe t).
  assert (Second :
    replaceAll fenceRe (replaceAll fenceJsonRe (t ++ closing))
    = replaceAll fenceRe u ++ nl
    \/ replaceAll fenceRe (replaceAll fenceJsonRe (t ++ closing))
       = replaceAll fenceRe u).
  { destruct (fenceJson_closing t) as [-> | ->]; fold u.
    - apply fenceRe_closing.
    - right. apply fenceRe_marker. }
  rewrite (@fence_pass_block fenceRe _ _ fenceRe_needs_fence
             fenceRe_bound fenceRe_mark).
  fold (stripFences r).
  set (v := replaceAll fenceRe u) in *.
  assert (Keep : forall y, replaceAll thinkRe (nl ++ y)
                           = nl ++ replaceAll thinkRe y)
    by (intros y; apply replaceAll_keep; reflexivity).
  unfold reasoningBlock. rewrite !app_assoc.
  rewrite (@thinkRe_block (stripFences r) _ Hc), Keep.
  destruct Second as [-> | ->].
  - left. now rewrite thinkRe_newline.
  - now right.
Qed.

Lemma jsonSpan_wrap r t :
  findLit true "</think>" (stripFences r) = None ->
  jsonSpan (cleanResponse (wrapResponse r t)) = jsonSpan (cleanResponse t).
Proof.
  intros Hc. unfold cleanResponse. fold (stripAll (wrapResponse r t)).
  fold (stripAll t). rewrite !jsonSpan_trim.
  destruct (@stripAll_wrap r t Hc) as [-> | ->].
  - now apply jsonSpan_frame.
  - rewrite <- (app_nil_r (stripAll t)) at 1. now apply jsonSpan_frame.
Qed.
End WrapFacts.

(** ** Reasoning about [M] *)

Lemma bind_Returned {A B} (m : M A) (k : A -> M B) st b st' :
  bind m k st = (Returned b, st') ->
  exists a s, m st = (Returned a, s) /\ k a s = (Returned b, st').
Proof.
  unfold bind. destruct (m st) as [[a|e] s]; intros H; [eauto|discriminate].
Qed.

Lemma bind_Thrown {A B} (m : M A) (k : A -> M B) st e st' :
  bind m k st = (Thrown e, st') ->
  m st = (Thrown e, st')
  \/ exists a s, m st = (Returned a, s) /\ k a s = (Thrown e, st').
Proof.
  unfold bind. destruct (m st) as [[a|e0] s]; intros H; [eauto|].
  left. now inversion H.
Qed.

Lemma tryCatch_Returned {A} (m : M A) h st a st' :
  tryCatch m h st = (Returned a, st') ->
  m st = (Returned a, st')
  \/ exists e s, m st = (Thrown e, s) /\ h e s = (Returned a, st').
Proof.
  unfold tryCatch. destruct (m st) as [[x|e] s]; intros H; [now left|eauto].
Qed.

Lemma total_ret {A} (a : A) : total (ret a).
Proof. intros st. now exists a, st. Qed.

Lemma total_bind {A B} (m : M A) (k : A -> M B) :
  total m -> (forall a, total (k a)) -> total (bind m k).
Proof.
  intros Hm Hk st. destruct (Hm st) as (a & s & E).
  destruct (Hk a s) as (b & s' & E'). exists b, s'.
  unfold bind. now rewrite E.
Qed.

Lemma total_tryCatch {A} (m : M A) h :
  (forall e, total (h e)) -> total (tryCatch m h).
Proof.
  intros Hh st. unfold tryCatch. destruct (m st) as [[a|e] s]; [eauto|].
  apply Hh.
Qed.

Lemma total_push msg : total (push msg).
Proof. intros st. unfold push. eauto. Qed.

Lemma total_console_log msg : total (console_log msg).
Proof. intros st. unfold console_log. eauto. Qed.

Lemma total_settle {A} (m : M A) : total (settle m).
Proof. intros st. unfold settle. destruct (m st). eauto. Qed.

Lemma total_readLog : total readLog.
Proof. intros st. unfold readLog. eauto. Qed.

Lemma total_runIf cond agent : total agent -> total (runIf cond agent).
Proof.
  intros H. unfold runIf. destruct cond; [|apply total_ret].
  apply total_bind; [assumption|]. intros a. apply total_ret.
Qed.

Ltac total_tac :=
  repeat first
    [ apply total_ret | apply total_push | apply total_console_log
    | apply total_settle | apply total_readLog
    | apply total_tryCatch; intros ?
    | apply total_bind; [|intros ?]
    | apply total_runIf ].

Section AgentTotality.
Variable host : Host.

Lemma orchestrate_total q : total (orchestrate host q).
Proof. unfold orchestrate. total_tac. Qed.

Lemma answerVerifier_total q : total (answerVerifier host q).
Proof. unfold answerVerifier. total_tac. Qed.

Lemma difficultyRater_total q : total (difficultyRater host q).
Proof. unfold difficultyRater. total_tac. Qed.

Lemma unitChecker_total q : total (unitChecker host q).
Proof. unfold unitChecker. total_tac. Qed.

Lemma explanationCritic_total q : total (explanationCritic host q).
Proof.
  unfold explanationCritic. apply total_bind; [total_tac|intros _].
  destruct (String.eqb _ ""); total_tac.
Qed.

Lemma memoryTrickGenerator_total q : total (memoryTrickGenerator host q).
Proof. unfold memoryTrickGenerator. total_tac. Qed.

Lemma calculationChecker_total q : total (calculationChecker host q).
Proof. unfold calculationChecker. total_tac. Qed.

Lemma reviewQuestion_total q : total (reviewQuestion host q).
Proof.
  unfold reviewQuestion. apply total_bind.
  - intros st. unfold newLog. eauto.
  - intros _. apply total_bind.
    + intros st. unfold now. eauto.
    + intros t0. total_tac.
Qed.
End AgentTotality.

(** ** What a computation adds to the log and to the calls *)

Lemma adds_refl P st : adds P 0 st st.
Proof. exists [], []. now rewrite !app_nil_r. Qed.

Lemma adds_trans P n m st1 st2 st3 :
  adds P n st1 st2 -> adds P m st2 st3 -> adds P (n + m) st1 st3.
Proof.
  intros (l1 & c1 & A1 & F1 & B1 & N1) (l2 & c2 & A2 & F2 & B2 & N2).
  exists (l1 ++ l2)%list, (c1 ++ c2)%list. repeat split.
  - now rewrite A2, A1, app_assoc.
  - now apply Forall_app.
  - now rewrite B2, B1, app_assoc.
  - rewrite length_app. lia.
Qed.

Lemma adds_weaken P n m st st' : adds P n st st' -> n <= m -> adds P m st st'.
Proof.
  intros (l & c & A & F & B & N) H. exists l, c. repeat split; auto. lia.
Qed.

Lemma adds_In P n st st' x :
  adds P n st st' -> In x (agentLog st) -> In x (agentLog st').
Proof.
  intros (l & c & A & _) H. rewrite A. apply in_or_app. now left.
Qed.

Lemma effect_weaken {A} P n m (c : M A) : effect P n c -> n <= m -> effect P m c.
Proof. intros H L st. eapply adds_weaken; eauto. Qed.

Lemma effect_ret {A} P (a : A) : effect P 0 (ret a).
Proof. intros st. apply adds_refl. Qed.

Lemma effect_lift {A} P (o : outcome A) : effect P 0 (lift o).
Proof. intros st. apply adds_refl. Qed.

Lemma effect_readLog P : effect P 0 readLog.
Proof. intros st. apply adds_refl. Qed.

Lemma effect_push (P : string -> Prop) msg : P msg -> effect P 0 (push msg).
Proof.
  intros H st. exists [msg], []. simpl. rewrite app_nil_r. repeat split; auto.
Qed.

Lemma effect_console_log P msg : effect P 0 (console_log msg).
Proof. intros st. exists [], []. simpl. now rewrite !app_nil_r. Qed.

Lemma effect_bind {A B} P n m (c : M A) (k : A -> M B) :
  effect P n c -> (forall a, effect P m (k a)) -> effect P (n + m) (bind c k).
Proof.
  intros Hc Hk st. unfold bind. specialize (Hc st).
  destruct (c st) as [[a|e] s]; simpl in *.
  - eapply adds_trans; [exact Hc | apply Hk].
  - eapply adds_weaken; [exact Hc | lia].
Qed.

Lemma effect_tryCatch {A} P n m (c : M A) h :
  effect P n c -> (forall e, effect P m (h e)) ->
  effect P (n + m) (tryCatch c h).
Proof.
  intros Hc Hh st. unfold tryCatch. specialize (Hc st).
  destruct (c st) as [[a|e] s]; simpl in *.
  - eapply adds_weaken; [exact Hc | lia].
  - eapply adds_trans; [exact Hc | apply Hh].
Qed.

Lemma effect_settle {A} P n (c : M A) : effect P n c -> effect P n (settle c).
Proof.
  intros Hc st. unfold settle. specialize (Hc st). now destruct (c st).
Qed.

Lemma effect_runIf P n cond agent :
  effect P n agent -> effect P n (runIf cond agent).
Proof.
  intros H. unfold runIf. destruct cond.
  - rewrite <- (Nat.add_0_r n). apply effect_bind; [assumption|].
    intros a. apply effect_ret.
  - eapply effect_weaken; [apply effect_ret | lia].
Qed.

Lemma effect_if {A} P n m (c : bool) (a b : M A) :
  effect P n a -> effect P m b -> effect P (n + m) (if c then a else b).
Proof.
  intros Ha Hb. destruct c; eapply effect_weaken; eauto; lia.
Qed.

Section Effects.
Variable host : Host.

Lemma effect_callLLM P c : effect P 1 (callLLM host c).
Proof.
  intros st. unfold callLLM.
  exists [], [c]. rewrite app_nil_r.
  destruct (getKey host (provider c)) as [k|]; simpl; auto.
  destruct (String.eqb k "" || Str.includes "your_" k); simpl; auto.
  destruct (fetch host _ _); simpl; auto.
Qed.

Lemma effect_llm P p pr t temp : effect P 1 (llm host p pr t temp).
Proof. apply effect_callLLM. Qed.

Lemma effect_str P v : effect P 0 (str host v).
Proof. apply effect_lift. Qed.

Lemma effect_now P : effect P 0 (now host).
Proof. intros st. apply adds_refl. Qed.
End Effects.

Section AgentEffects.
Variable host : Host.
Variable P : string -> Prop.
Hypothesis P_any : forall line, conflictLine line = false -> P line.

Ltac effects :=
  repeat lazymatch goal with
    | |- effect _ _ (ret _) => apply effect_ret
    | |- effect _ _ (lift _) => apply effect_lift
    | |- effect _ _ readLog => apply effect_readLog
    | |- effect _ _ (str _ _) => apply effect_str
    | |- effect _ _ (now _) => apply effect_now
    | |- effect _ _ (llm _ _ _ _ _) => apply effect_llm
    | |- effect _ _ (console_log _) => apply effect_console_log
    | |- effect _ _ (push _) => apply effect_push; apply P_any; reflexivity
    | |- effect _ _ (settle _) => apply effect_settle
    | |- effect _ _ (runIf _ _) => apply effect_runIf
    | |- effect _ _ (tryCatch _ _) => apply effect_tryCatch; [|intros ?]
    | |- effect _ _ (bind _ _) => apply effect_bind; [|intros ?]
    | |- effect _ _ (if _ then _ else _) => apply effect_if
    | |- effect _ _ (match ?x with Some _ => _ | None => _ end) =>
        destruct x
    end.

Ltac agent f := eapply effect_weaken; [unfold f; cbv beta zeta; effects |
                                        simpl; lia].

Lemma effect_orchestrate q : effect P 1 (orchestrate host q).
Proof. agent orchestrate. Qed.

Lemma effect_answerVerifier q : effect P 3 (answerVerifier host q).
Proof. agent answerVerifier. Qed.

Lemma effect_difficultyRater q : effect P 1 (difficultyRater host q).
Proof. agent difficultyRater. Qed.

Lemma effect_unitChecker q : effect P 1 (unitChecker host q).
Proof. agent unitChecker. Qed.

Lemma effect_explanationCritic q : effect P 1 (explanationCritic host q).
Proof. agent explanationCritic. Qed.

Lemma effect_memoryTrickGenerator q :
  effect P 1 (memoryTrickGenerator host q).
Proof. agent memoryTrickGenerator. Qed.

Lemma effect_calculationChecker q : effect P 1 (calculationChecker host q).
Proof. agent calculationChecker. Qed.

Lemma effect_step2 q agentSet : effect P 5 (step2 host q agentSet).
Proof.
  eapply effect_weaken.
  - unfold step2.
    apply effect_bind; [apply effect_settle, effect_runIf,
                         effect_answerVerifier|intros ?].
    apply effect_bind; [apply effect_settle, effect_runIf,
                         effect_difficultyRater|intros ?].
    apply effect_bind; [apply effect_settle, effect_runIf,
                         effect_unitChecker|intros ?].
    effects.
  - simpl; lia.
Qed.

Lemma effect_buildQueryParts needsHuman hasConflict s1 s2 :
  effect P 0 (buildQueryParts host needsHuman hasConflict s1 s2).
Proof. agent buildQueryParts. Qed.

Lemma effect_step4 q t0 plan s1 c s2 :
  effect P 0 (step4 host q t0 plan s1 c s2).
Proof.
  eapply effect_weaken.
  - unfold step4. cbv beta zeta.
    apply effect_bind; [apply effect_now|intros ?].
    apply effect_bind; [apply effect_lift|intros ?].
    apply effect_bind; [apply effect_push, P_any; reflexivity|intros ?].
    apply effect_bind; [apply effect_buildQueryParts|intros ?].
    effects.
  - simpl; lia.
Qed.
End AgentEffects.

Section ConflictEffects.
Variable host : Host.

Lemma effect_conflictAnalyzer q answer :
  effect (fun _ => True) 1 (conflictAnalyzer host q answer).
Proof.
  eapply effect_weaken.
  - unfold conflictAnalyzer.
    repeat lazymatch goal with
      | |- effect _ _ (ret _) => apply effect_ret
      | |- effect _ _ (lift _) => apply effect_lift
      | |- effect _ _ (str _ _) => apply effect_str
      | |- effect _ _ (llm _ _ _ _ _) => apply effect_llm
      | |- effect _ _ (push _) => apply effect_push; exact I
      | |- effect _ _ (tryCatch _ _) => apply effect_tryCatch; [|intros ?]
      | |- effect _ _ (bind _ _) => apply effect_bind; [|intros ?]
      end.
  - simpl; lia.
Qed.
End ConflictEffects.

Lemma bind_run {A B} (m : M A) (k : A -> M B) st a s :
  m st = (Returned a, s) -> bind m k st = k a s.
Proof. intros H. unfold bind. now rewrite H. Qed.

Lemma lift_Returned {A} (o : outcome A) st a st' :
  lift o st = (Returned a, st') -> o = Returned a /\ st' = st.
Proof. unfold lift. intros H. now inversion H. Qed.

Lemma readLog_Returned st l st' :
  readLog st = (Returned l, st') -> l = agentLog st /\ st' = st.
Proof. unfold readLog. intros H. now inversion H. Qed.

Lemma ret_Returned {A} (a b : A) st st' :
  ret a st = (Returned b, st') -> b = a /\ st' = st.
Proof. unfold ret. intros H. now inversion H. Qed.

(** Peel the binds of a computation known to have returned. *)
Ltac peel H :=
  let a := fresh "a" in
  let s := fresh "s" in
  let E := fresh "E" in
  apply bind_Returned in H; destruct H as (a & s & E & H).

Section Synthesis.
Variable host : Host.

(** What [step4] puts into the fields the claims speak of. *)
Lemma step4_done q t0 plan s1 c s2 st r st' :
  step4 host q t0 plan s1 c s2 st = (Returned r, st') ->
  Review.status r = "done"
  /\ Review.agentLog r = agentLog st'
  /\ Review.hasConflict r = c
  /\ Review.plan r = VObject plan
  /\ Review.finalAnswer r
     = selectFinalAnswer q (conflictResult s2) (answerResult s1)
  /\ Review.needsHuman r
     = decideNeedsHuman (answerResult s1) (conflictResult s2)
  /\ Review.answerVerdict r = opt (answerResult s1) "verdict".
Proof.
  unfold step4. intros H.
  do 6 peel H. peel H.
  apply readLog_Returned in E5 as [-> ->].
  apply ret_Returned in H as [-> ->].
  cbn. repeat split; reflexivity.
Qed.

Lemma reviewBody_done q t0 st r st' :
  reviewBody host q t0 st = (Returned r, st') ->
  Review.status r = "done" /\ Review.agentLog r = agentLog st'.
Proof.
  unfold reviewBody. intros H. do 4 peel H.
  apply step4_done in H. tauto.
Qed.

(** The two ways [reviewQuestion] returns. *)
Lemma reviewQuestion_cases q st r st' :
  reviewQuestion host q st = (Returned r, st') ->
  reviewBody host q (Date_now host (calls st)) (startState st)
  = (Returned r, st')
  \/ exists e s,
      reviewBody host q (Date_now host (calls st)) (startState st)
      = (Thrown e, s)
      /\ r = systemError q (agentLog s ++ [systemErrorLine e])%list e
      /\ agentLog st' = (agentLog s ++ [systemErrorLine e])%list.
Proof.
  unfold reviewQuestion. intros H.
  unfold bind at 1 in H. cbn [newLog] in H.
  unfold bind at 1 in H. cbn [now calls] in H.
  unfold tryCatch in H. unfold startState. cbn [newLog snd].
  destruct (reviewBody host q _ _) as [[a|e] s] eqn:B.
  - left. exact H.
  - right. exists e, s. split; [reflexivity|].
    cbn in H. inversion H; subst. split; reflexivity.
Qed.

Lemma reviewQuestion_log q st r st' :
  reviewQuestion host q st = (Returned r, st') ->
  Review.agentLog r = agentLog st'.
Proof.
  intros H. apply reviewQuestion_cases in H as [H|(e & s & _ & -> & ->)].
  - now apply reviewBody_done in H.
  - reflexivity.
Qed.
End Synthesis.

Lemma bind_lift {A B} (o : outcome A) (k : A -> M B) st a :
  o = Returned a -> bind (lift o) k st = k a st.
Proof. intros ->. reflexivity. Qed.

Lemma quiet_any line : conflictLine line = false -> quiet line.
Proof. exact (fun H => H). Qed.

Lemma true_any line : conflictLine line = false -> (fun _ : string => True) line.
Proof. exact (fun _ => I). Qed.

Lemma adds_run {A} P n (m : M A) st o st' :
  effect P n m -> m st = (o, st') -> adds P n st st'.
Proof. intros H E. specialize (H st). now rewrite E in H. Qed.

Section Stages.
Variable host : Host.

Lemma join_array v sep s :
  join host v sep = Returned s -> exists items, v = VArray items.
Proof. destruct v; simpl; intros H; try discriminate. eauto. Qed.

Lemma orchestrate_agents q st plan st' :
  orchestrate host q st = (Returned plan, st') ->
  exists items, get plan "agents" = VArray items.
Proof.
  unfold orchestrate. cbv beta zeta. intros H.
  apply bind_Returned in H as (? & s0 & _ & H).
  apply tryCatch_Returned in H as [H|(e & s & _ & H)].
  - do 5 peel H. apply ret_Returned in H as [-> ->].
    apply lift_Returned in E1 as [E1 _].
    now apply join_array in E1.
  - peel H. apply ret_Returned in H as [-> ->]. cbn. eauto.
Qed.

Lemma planned_exists q st :
  exists plan agentSet st1, Planned host q st plan agentSet st1.
Proof.
  destruct (orchestrate_total host q (startState st)) as (plan & st1 & E).
  destruct (orchestrate_agents _ _ E) as (items & A).
  exists plan, items, st1. split; [assumption|]. now rewrite A.
Qed.

(** An operand of [Promise.all] whose agent always returns. *)
Lemma settle_runIf cond agent st :
  total agent ->
  exists o st', settle (runIf cond agent) st = (Returned (Returned o), st')
                /\ runIf cond agent st = (Returned o, st').
Proof.
  intros T. destruct (total_runIf cond T st) as (o & st' & E).
  exists o, st'. unfold settle. now rewrite E.
Qed.

Lemma step2_total q agentSet : total (step2 host q agentSet).
Proof.
  intros st. unfold step2.
  destruct (settle_runIf (has agentSet "answer_verifier") st
              (answerVerifier_total host q)) as (a & s1 & E1 & _).
  destruct (settle_runIf (has agentSet "difficulty_rater") s1
              (difficultyRater_total host q)) as (d & s2 & E2 & _).
  destruct (settle_runIf (has agentSet "unit_checker") s2
              (unitChecker_total host q)) as (u & s3 & E3 & _).
  erewrite bind_run by exact E1. erewrite bind_run by exact E2.
  erewrite bind_run by exact E3.
  unfold bind, lift, ret. cbn. eauto.
Qed.

Lemma stage1_exists q st :
  exists plan agentSet s1 st2, Stage1Done host q st plan agentSet s1 st2.
Proof.
  destruct (planned_exists q st) as (plan & agentSet & st1 & P).
  destruct (step2_total q agentSet st1) as (s1 & st2 & E).
  exists plan, agentSet, s1, st2, st1. now split.
Qed.

Lemma both_Returned {A B} (a : outcome A) (b : outcome B) p :
  both a b = Returned p -> a = Returned (fst p) /\ b = Returned (snd p).
Proof.
  destruct a, b; simpl; intros H; try discriminate. now inversion H.
Qed.

Lemma settle_Returned {A} (m : M A) st o st' :
  settle m st = (Returned o, st') -> m st = (o, st').
Proof. unfold settle. destruct (m st). intros H. now inversion H. Qed.

(** What the first round leaves in [answerResult]. *)
Lemma step2_answer q agentSet st s1 st' :
  step2 host q agentSet st = (Returned s1, st') ->
  if has agentSet "answer_verifier"
  then exists av s, answerVerifier host q st = (Returned av, s)
                    /\ answerResult s1 = Some av
  else answerResult s1 = None.
Proof.
  unfold step2. intros H. do 4 peel H.
  apply ret_Returned in H as [-> ->]. cbn [answerResult].
  apply lift_Returned in E2 as [E2 _].
  apply both_Returned in E2 as [Ea _]. subst a.
  apply settle_Returned in E. unfold runIf in E.
  destruct (has agentSet "answer_verifier").
  - peel E. apply ret_Returned in E as [E _]. eauto.
  - apply ret_Returned in E as [E _]. now symmetry.
Qed.
End Stages.

Section ReviewLog.
Variable host : Host.

Lemma stage1_log q st plan agentSet s1 st2 :
  Stage1Done host q st plan agentSet s1 st2 -> Forall quiet (agentLog st2).
Proof.
  intros (st1 & (O & _) & S).
  apply (@adds_run _ _ _ _ _ _ _ (@effect_orchestrate host _ quiet_any q)) in O.
  apply (@adds_run _ _ _ _ _ _ _ (@effect_step2 host _ quiet_any q agentSet)) in S.
  destruct (adds_trans O S) as (lines & _ & L & F & _).
  now rewrite L.
Qed.

(** With the first round done, the body is the second round followed by
    the synthesis. *)
Lemma reviewBody_stage1 q st t0 plan agentSet s1 st2 :
  Stage1Done host q st plan agentSet s1 st2 ->
  reviewBody host q t0 (startState st)
  = bind (step3 host q plan agentSet (answerResult s1)
                (detectConflict q (answerResult s1)))
         (fun s2 => step4 host q t0 plan s1
                          (detectConflict q (answerResult s1)) s2) st2.
Proof.
  intros (st1 & (O & N) & S). unfold reviewBody.
  erewrite bind_run by exact O.
  erewrite bind_lift by exact N.
  erewrite bind_run by exact S. reflexivity.
Qed.

(** The log of the result: what the second round left, then lines of the
    synthesis and of the [catch] block. *)
Lemma review_tail q st plan agentSet s1 st2 r st' :
  Stage1Done host q st plan agentSet s1 st2 ->
  reviewQuestion host q st = (Returned r, st') ->
  exists tail,
    Review.agentLog r
    = (agentLog (snd (step3 host q plan agentSet (answerResult s1)
                            (detectConflict q (answerResult s1)) st2))
       ++ tail)%list
    /\ Forall quiet tail.
Proof.
  intros S1 H.
  apply reviewQuestion_cases in H as [H|(e & s & H & -> & _)];
    rewrite (reviewBody_stage1 _ S1) in H.
  - peel H. rewrite E. cbn [snd].
    pose proof (@adds_run _ _ _ _ _ _ _
                  (@effect_step4 host _ quiet_any _ _ _ _ _ _) H)
      as (lines & _ & L & F & _).
    apply step4_done in H as (_ & -> & _).
    exists lines. now split.
  - cbn [systemError Review.agentLog].
    apply bind_Thrown in H as [H|(s2 & s3 & E & H)].
    + rewrite H. cbn [snd]. exists [systemErrorLine e]. split; [reflexivity|].
      repeat constructor.
    + rewrite E. cbn [snd].
      pose proof (@adds_run _ _ _ _ _ _ _
                  (@effect_step4 host _ quiet_any _ _ _ _ _ _) H)
        as (lines & _ & L & F & _).
      exists (lines ++ [systemErrorLine e])%list. rewrite L.
      split; [now rewrite app_assoc|].
      apply Forall_app. split; [assumption|]. repeat constructor.
Qed.

(** A completed review went through both rounds and the synthesis. *)
Lemma review_done q st plan agentSet s1 st2 r st' :
  Stage1Done host q st plan agentSet s1 st2 ->
  reviewQuestion host q st = (Returned r, st') ->
  Review.status r = "done" ->
  exists s2 st3,
    Stage2Done host q st plan agentSet s1 s2 st3
    /\ step4 host q (Date_now host (calls st)) plan s1
             (detectConflict q (answerResult s1)) s2 st3
       = (Returned r, st').
Proof.
  intros S1 H D.
  apply reviewQuestion_cases in H as [H|(e & s & H & -> & _)];
    [|discriminate D].
  rewrite (reviewBody_stage1 _ S1) in H. peel H.
  exists a, s. split; [|assumption]. exists st2. now split.
Qed.

(** *** The second round *)

Lemma step3_quiet q plan agentSet answer hasConflict :
  answer = None \/ has agentSet "conflict_analyzer" || hasConflict = false ->
  effect quiet 3 (step3 host q plan agentSet answer hasConflict).
Proof.
  intros C. eapply effect_weaken.
  - unfold step3.
    apply effect_bind.
    { apply effect_settle.
      instantiate (1 := 0).
      destruct answer as [av|]; [|apply effect_ret].
      destruct C as [C| ->]; [discriminate|]. apply effect_ret. }
    intros c.
    apply effect_bind; [apply effect_settle, effect_runIf,
      (@effect_explanationCritic host _ quiet_any)|intros e].
    apply effect_bind; [apply effect_settle, effect_runIf,
      (@effect_memoryTrickGenerator host _ quiet_any)|intros m].
    apply effect_bind; [apply effect_settle, effect_runIf,
      (@effect_calculationChecker host _ quiet_any)|intros k].
    apply effect_bind; [apply effect_lift|intros x]. apply effect_ret.
  - simpl; lia.
Qed.

Lemma conflictAnalyzer_starts q answer st :
  In conflictStart (agentLog (snd (conflictAnalyzer host q answer st))).
Proof.
  unfold conflictAnalyzer. unfold bind at 1. cbn [push].
  match goal with |- In _ (agentLog (snd (?k ?s))) =>
    assert (A : adds (fun _ => True) 1 s (snd (k s))) end.
  { match goal with |- adds _ _ _ (snd (?k _)) =>
      assert (E : effect (fun _ : string => True) 1 k) end.
    { eapply effect_weaken.
      - repeat lazymatch goal with
          | |- effect _ _ (ret _) => apply effect_ret
          | |- effect _ _ (lift _) => apply effect_lift
          | |- effect _ _ (str _ _) => apply effect_str
          | |- effect _ _ (llm _ _ _ _ _) => apply effect_llm
          | |- effect _ _ (push _) => apply effect_push; exact I
          | |- effect _ _ (tryCatch _ _) =>
              apply effect_tryCatch; [|intros ?]
          | |- effect _ _ (bind _ _) => apply effect_bind; [|intros ?]
          end.
      - simpl; lia. }
    apply E. }
  eapply adds_In; [exact A|]. cbn. apply in_or_app. right. now left.
Qed.

Lemma calculationChecker_starts q st :
  In calculationStart (agentLog (snd (calculationChecker host q st))).
Proof.
  unfold calculationChecker. unfold bind at 1. cbn [push].
  match goal with |- In _ (agentLog (snd (?k ?s))) =>
    assert (A : adds (fun _ => True) 1 s (snd (k s))) end.
  { match goal with |- adds _ _ _ (snd (?k _)) =>
      assert (E : effect (fun _ : string => True) 1 k) end.
    { eapply effect_weaken.
      - cbv beta zeta.
        repeat lazymatch goal with
          | |- effect _ _ (ret _) => apply effect_ret
          | |- effect _ _ (lift _) => apply effect_lift
          | |- effect _ _ (llm _ _ _ _ _) => apply effect_llm
          | |- effect _ _ (push _) => apply effect_push; exact I
          | |- effect _ _ (tryCatch _ _) =>
              apply effect_tryCatch; [|intros ?]
          | |- effect _ _ (bind _ _) => apply effect_bind; [|intros ?]
          end.
      - simpl; lia. }
    apply E. }
  eapply adds_In; [exact A|]. cbn. apply in_or_app. right. now left.
Qed.

Lemma runIf_true_state agent st :
  snd (settle (runIf true agent) st) = snd (agent st).
Proof.
  unfold settle, runIf, bind, ret. destruct (agent st) as [[a|e] s];
    reflexivity.
Qed.

(** Whatever is in the log stays there through the rest of the round. *)
Lemma step3_conflict q plan agentSet av hasConflict st :
  has agentSet "conflict_analyzer" || hasConflict = true ->
  In conflictStart
     (agentLog (snd (step3 host q plan agentSet (Some av) hasConflict st))).
Proof.
  intros C. unfold step3. rewrite C. unfold bind at 1.
  pose proof (conflictAnalyzer_starts q av st) as I0.
  rewrite <- runIf_true_state in I0.
  destruct (settle (runIf true (conflictAnalyzer host q av)) st)
    as [[c|e] s]; cbn [snd] in *; [|assumption].
  match goal with |- In _ (agentLog (snd (?k _))) =>
    assert (E : effect (fun _ : string => True) 3 k) end.
  { eapply effect_weaken.
    - apply effect_bind; [apply effect_settle, effect_runIf,
        (@effect_explanationCritic host _ true_any)|intros e].
      apply effect_bind; [apply effect_settle, effect_runIf,
        (@effect_memoryTrickGenerator host _ true_any)|intros m].
      apply effect_bind; [apply effect_settle, effect_runIf,
        (@effect_calculationChecker host _ true_any)|intros k].
      apply effect_bind; [apply effect_lift|intros x]. apply effect_ret.
    - simpl; lia. }
  eapply adds_In; [apply E|assumption].
Qed.
End ReviewLog.

(** Goals that only need evaluation. *)
Ltac run := vm_compute; reflexivity.
Ltac stage1 := eexists; split; [split; [run | run] | run].

Lemma existsb_In (x : string) (l : list string) :
  In x l -> existsb (String.eqb x) l = true.
Proof.
  intros H. apply existsb_exists. exists x. split; [assumption|].
  apply String.eqb_refl.
Qed.

Section SecondRound.
Variable host : Host.

Lemma step3_calculation q plan agentSet answer hasConflict st :
  has agentSet "calculation_checker" || truthy (get plan "isNumerical") = true ->
  In calculationStart
     (agentLog (snd (step3 host q plan agentSet answer hasConflict st))).
Proof.
  intros C. unfold step3. rewrite C.
  destruct (total_settle
              match answer with
              | Some a => runIf (has agentSet "conflict_analyzer" || hasConflict)
                                (conflictAnalyzer host q a)
              | None => ret None
              end st) as (c & s1 & E1).
  erewrite bind_run by exact E1.
  destruct (total_settle (runIf (has agentSet "explanation_critic")
                                (explanationCritic host q)) s1)
    as (e & s2 & E2).
  erewrite bind_run by exact E2.
  destruct (total_settle (runIf (has agentSet "memory_trick_generator")
                                (memoryTrickGenerator host q)) s2)
    as (m & s3 & E3).
  erewrite bind_run by exact E3.
  unfold bind at 1.
  pose proof (calculationChecker_starts host q s3) as I0.
  rewrite <- runIf_true_state in I0.
  destruct (settle (runIf true (calculationChecker host q)) s3)
    as [[k|x] s4]; cbn [snd] in *; [|assumption].
  unfold bind, lift, ret.
  destruct (both c (both e (both m k))); assumption.
Qed.
End SecondRound.

(** ** C4 *)

(** C4, as stated, fails: with a plan that leaves the Answer Verifier out,
    the manual and the AI-derived answers differ and yet the Conflict
    Analyzer is not called. *)
Lemma forced_conflict_analysis_counterexample :
  ~ (forall host q st r st',
        reviewQuestion host q st = (Returned r, st') ->
        Question.rightOption q <> Question.aiAnswer q ->
        In conflictStart (Review.agentLog r)).
Proof.
  intros Claim.
  assert (E : exists r st',
             reviewQuestion Fixture.ratingOnly Fixture.disputed
                            Fixture.emptyState = (Returned r, st')
             /\ existsb (String.eqb conflictStart) (Review.agentLog r) = false).
  { vm_compute. eexists. eexists. split; reflexivity. }
  destruct E as (r & st' & E & N).
  apply Claim in E; [|discriminate].
  apply existsb_In in E. congruence.
Qed.

(** C4 (amended): the plan's agent set is advisory.  Whenever the Answer
    Verifier produced a result and a disagreement is detected (manual answer
    differs from the AI-derived answer, or from the final answer, or the
    verifier's verdict is uncertain), the Conflict Analyzer runs, whether or
    not the plan lists it; and whenever the plan marks the question numeric,
    the Calculation Checker runs, whether or not the plan lists it. *)
Theorem forced_agents_run host q st plan agentSet s1 st2 r st' :
  Stage1Done host q st plan agentSet s1 st2 ->
  reviewQuestion host q st = (Returned r, st') ->
  (forall answer,
      answerResult s1 = Some answer ->
      Question.rightOption q <> Question.aiAnswer q
      \/ Question.rightOption q <> Question.finalAnswer q
      \/ get answer "verdict" = VString "uncertain" ->
      In conflictStart (Review.agentLog r))
  /\ (truthy (get plan "isNumerical") = true ->
      In calculationStart (Review.agentLog r)).
Proof.
  intros S1 H.
  destruct (review_tail S1 H) as (tail & L & _).
  split.
  - intros answer A D. rewrite L. apply in_or_app. left.
    rewrite A. apply step3_conflict.
    replace (detectConflict q (Some answer)) with true;
      [apply orb_true_r|].
    symmetry. unfold detectConflict.
    destruct D as [D|[D|D]].
    + apply String.eqb_neq in D. now rewrite D.
    + apply String.eqb_neq in D. rewrite D. apply orb_true_iff. left.
      apply orb_true_r.
    + cbn [opt]. rewrite D. apply orb_true_r.
  - intros N. rewrite L. apply in_or_app. left.
    apply step3_calculation. rewrite N. apply orb_true_r.
Qed.

Lemma forced_agents_run_witness :
  exists r,
    fst (reviewQuestion Fixture.offline Fixture.settled Fixture.emptyState)
    = Returned r
    /\ In conflictStart (Review.agentLog r).
Proof.
  eassert (S : Stage1Done Fixture.offline Fixture.settled Fixture.emptyState
                          _ _ _ _) by stage1.
  eassert (H : reviewQuestion Fixture.offline Fixture.settled
                              Fixture.emptyState = (Returned _, _)) by run.
  eexists. split; [rewrite H; reflexivity|].
  eapply (proj1 (@forced_agents_run _ _ _ _ _ _ _ _ _ S H)).
  - reflexivity.
  - right. right. reflexivity.
Defined.

(** ** C5 *)

(** C5: when the manual, AI-derived and final answers agree and the Answer
    Verifier's verdict is not uncertain, [hasConflict] is false and, unless
    the plan lists the Conflict Analyzer, no line of the Conflict Analyzer is
    in the log. *)
Theorem no_conflict_when_answers_agree host q st plan agentSet s1 st2 r st' :
  Stage1Done host q st plan agentSet s1 st2 ->
  reviewQuestion host q st = (Returned r, st') ->
  Question.rightOption q = Question.aiAnswer q ->
  Question.rightOption q = Question.finalAnswer q ->
  opt (answerResult s1) "verdict" <> VString "uncertain" ->
  Review.hasConflict r = false
  /\ (has agentSet "conflict_analyzer" = false ->
      Forall (fun line => conflictLine line = false) (Review.agentLog r)).
Proof.
  intros S1 H A F V.
  assert (D : detectConflict q (answerResult s1) = false).
  { unfold detectConflict. rewrite <- A, <- F, String.eqb_refl. cbn.
    destruct (opt (answerResult s1) "verdict") as [| |b|x|s|l|o]; try reflexivity.
    cbn. destruct (String.eqb_spec s "uncertain"); [subst; now elim V|reflexivity]. }
  split.
  - pose proof H as H0.
    apply reviewQuestion_cases in H0 as [H0|(e & s & _ & -> & _)];
      [|reflexivity].
    rewrite (reviewBody_stage1 _ S1) in H0. peel H0.
    apply step4_done in H0 as (_ & _ & -> & _). exact D.
  - intros C.
    destruct (review_tail S1 H) as (tail & L & T). rewrite L, D.
    apply Forall_app. split; [|exact T].
    pose proof (@step3_quiet host q plan agentSet (answerResult s1) false
                  (or_intror (eq_trans (orb_false_r _) C)) st2)
      as (lines & _ & E & Q & _).
    rewrite E. apply Forall_app. split; [|exact Q].
    exact (stage1_log S1).
Qed.

Lemma no_conflict_when_answers_agree_witness :
  exists r,
    fst (reviewQuestion Fixture.ratingOnly Fixture.settled Fixture.emptyState)
    = Returned r
    /\ Review.hasConflict r = false
    /\ Forall (fun line => conflictLine line = false) (Review.agentLog r).
Proof.
  eassert (S : Stage1Done Fixture.ratingOnly Fixture.settled
                          Fixture.emptyState _ _ _ _) by stage1.
  eassert (H : reviewQuestion Fixture.ratingOnly Fixture.settled
                              Fixture.emptyState = (Returned _, _)) by run.
  eexists. split; [rewrite H; reflexivity|].
  destruct (@no_conflict_when_answers_agree _ _ _ _ _ _ _ _ _ S H)
    as [C L]; try reflexivity.
  - discriminate.
  - split; [exact C | apply L; reflexivity].
Defined.

Ltac stage2 := eexists; split; [stage1 | run].

(** ** C6 *)

(** C6, as stated, fails: the text holds a currency marker, the plan the
    Orchestrator's model returned omits the Calculation Checker and does not
    mark the question numeric, and the Calculation Checker is not called. *)
Lemma numeric_text_forces_calculation_counterexample :
  ~ (forall host q st plan agentSet st1 r st',
        Planned host q st plan agentSet st1 ->
        reviewQuestion host q st = (Returned r, st') ->
        numericText (Question.question q) = true ->
        has agentSet "calculation_checker" = false ->
        In calculationStart (Review.agentLog r)).
Proof.
  intros Claim.
  eassert (P : Planned Fixture.ratingOnly Fixture.disputed Fixture.emptyState
                       _ _ _) by (split; run).
  eassert (H : reviewQuestion Fixture.ratingOnly Fixture.disputed
                              Fixture.emptyState = (Returned _, _)) by run.
  assert (N : numericText (Question.question Fixture.disputed) = true) by run.
  assert (C : has [VString "difficulty_rater"] "calculation_checker" = false)
    by run.
  specialize (Claim _ _ _ _ _ _ _ _ P H N C).
  apply existsb_In in Claim. vm_compute in Claim. discriminate Claim.
Qed.

(** C6 (amended): when the plan in force is the Orchestrator's default plan,
    which omits the Calculation Checker, and the question text contains one
    of the markers [$], [%], [million], [thousand], [percent], the
    Calculation Checker still runs. *)
Theorem default_plan_forces_calculation host q st agentSet st1 r st' :
  Planned host q st (defaultPlan q) agentSet st1 ->
  numericText (Question.question q) = true ->
  reviewQuestion host q st = (Returned r, st') ->
  has agentSet "calculation_checker" = false
  /\ In calculationStart (Review.agentLog r).
Proof.
  intros P N H. split.
  - destruct P as [_ P]. cbn in P. inversion P. reflexivity.
  - destruct (step2_total host q agentSet st1) as (s1 & st2 & E).
    assert (S1 : Stage1Done host q st (defaultPlan q) agentSet s1 st2)
      by (exists st1; now split).
    destruct (review_tail S1 H) as (tail & L & _). rewrite L.
    apply in_or_app. left. apply step3_calculation.
    change (get (defaultPlan q) "isNumerical")
      with (VBool (numericText (Question.question q))).
    cbn [truthy]. rewrite N. apply orb_true_r.
Qed.

Lemma default_plan_forces_calculation_witness :
  exists r,
    fst (reviewQuestion Fixture.offline Fixture.disputed Fixture.emptyState)
    = Returned r
    /\ In calculationStart (Review.agentLog r).
Proof.
  eassert (P : Planned Fixture.offline Fixture.disputed Fixture.emptyState
                       (defaultPlan Fixture.disputed) _ _) by (split; run).
  eassert (H : reviewQuestion Fixture.offline Fixture.disputed
                              Fixture.emptyState = (Returned _, _)) by run.
  eexists. split; [rewrite H; reflexivity|].
  assert (N : numericText (Question.question Fixture.disputed) = true) by run.
  exact (proj2 (@default_plan_forces_calculation _ _ _ _ _ _ _ P N H)).
Defined.

(** ** C10 *)

Lemma tryCatch_thrown {A} (m : M A) h st e s :
  m st = (Thrown e, s) -> tryCatch m h st = h e s.
Proof. intros H. unfold tryCatch. now rewrite H. Qed.

Lemma bind_thrown {A B} (m : M A) (k : A -> M B) st e s :
  m st = (Thrown e, s) -> bind m k st = (Thrown e, s).
Proof. intros H. unfold bind. now rewrite H. Qed.

Lemma answerVerifier_degrades host q st :
  verifierCallsFail host q ->
  exists e2 st', answerVerifier host q st = (Returned (verifierDefault e2), st').
Proof.
  intros F.
  assert (F' : forall pr t temp s, exists e s',
               llm host (VerifyPrompt q) pr t temp s = (Thrown e, s')).
  { intros pr t temp s. destruct (F pr t temp s) as (e & E).
    destruct (llm host (VerifyPrompt q) pr t temp s) as [o s'].
    cbn in E. subst o. eauto. }
  unfold answerVerifier. unfold bind at 1. cbn [push].
  match goal with |- context [tryCatch _ _ ?s] => set (s0 := s) end.
  destruct (F' groq reason defaultTemperature s0) as (e1 & s1 & E1).
  destruct (F' groq smart defaultTemperature s1) as (e2 & s2 & E2).
  destruct (F' openrouter smart defaultTemperature s2) as (e3 & s3 & E3).
  erewrite tryCatch_thrown.
  2:{ apply bind_thrown. erewrite tryCatch_thrown by exact E1. exact E2. }
  erewrite tryCatch_thrown by (apply bind_thrown; exact E3).
  unfold bind, push, ret. eauto.
Qed.

(** C10: when every call attempt of the Answer Verifier fails, a completed
    review has [needsHuman] true and [answerVerdict] uncertain. *)
Theorem verifier_failure_escalates host q st plan agentSet st1 r st' :
  Planned host q st plan agentSet st1 ->
  has agentSet "answer_verifier" = true ->
  verifierCallsFail host q ->
  reviewQuestion host q st = (Returned r, st') ->
  Review.status r = "done" ->
  Review.needsHuman r = VBool true
  /\ Review.answerVerdict r = VString "uncertain".
Proof.
  intros P A F H D.
  destruct (step2_total host q agentSet st1) as (s1 & st2 & E).
  assert (S1 : Stage1Done host q st plan agentSet s1 st2)
    by (exists st1; now split).
  pose proof (@step2_answer _ _ _ _ _ _ E) as V. rewrite A in V.
  destruct V as (av & s & V & R).
  destruct (@answerVerifier_degrades host q st1 F) as (e2 & s' & V').
  rewrite V' in V. inversion V; subst av s.
  destruct (review_done S1 H D) as (s2 & st3 & _ & K).
  apply step4_done in K as (_ & _ & _ & _ & _ & -> & ->).
  rewrite R. split; reflexivity.
Qed.

Lemma verifier_failure_escalates_witness :
  exists r,
    fst (reviewQuestion Fixture.offline Fixture.settled Fixture.emptyState)
    = Returned r
    /\ Review.needsHuman r = VBool true
    /\ Review.answerVerdict r = VString "uncertain".
Proof.
  eassert (P : Planned Fixture.offline Fixture.settled Fixture.emptyState
                       _ _ _) by (split; run).
  eassert (H : reviewQuestion Fixture.offline Fixture.settled
                              Fixture.emptyState = (Returned _, _)) by run.
  eexists. split; [rewrite H; reflexivity|].
  eapply (@verifier_failure_escalates _ _ _ _ _ _ _ _ P).
  - run.
  - intros pr t temp st. eexists. reflexivity.
  - exact H.
  - reflexivity.
Defined.

(** ** C2 *)

Lemma selectFinalAnswer_priority q conflict answer :
  selectFinalAnswer q conflict answer
  = finalAnswerByPriority conflict answer q.
Proof.
  unfold selectFinalAnswer, finalAnswerByPriority, produced, or.
  destruct conflict as [c|]; cbn [opt].
  - destruct (truthy (get c "finalRecommendedAnswer")) eqn:T.
    + cbn [truthy]. rewrite T.
      destruct (truthy (VString (Question.finalAnswer q))); now rewrite ?T.
    + destruct answer as [a|]; cbn [opt truthy].
      * destruct (truthy (get a "correctAnswer")) eqn:U.
        -- rewrite U. reflexivity.
        -- cbn [truthy]. now destruct (String.eqb (Question.finalAnswer q) "").
      * cbn [truthy]. now destruct (String.eqb (Question.finalAnswer q) "").
  - destruct answer as [a|]; cbn [opt truthy].
    + destruct (truthy (get a "correctAnswer")) eqn:U.
      * rewrite U. reflexivity.
      * cbn [truthy]. now destruct (String.eqb (Question.finalAnswer q) "").
    + cbn [truthy]. now destruct (String.eqb (Question.finalAnswer q) "").
Qed.

Lemma stage2_step4 host q st plan agentSet s1 s2 st3 r st' :
  Stage2Done host q st plan agentSet s1 s2 st3 ->
  reviewQuestion host q st = (Returned r, st') ->
  Review.status r = "done" ->
  step4 host q (Date_now host (calls st)) plan s1
        (detectConflict q (answerResult s1)) s2 st3
  = (Returned r, st').
Proof.
  intros (st2 & S1 & E) H D.
  apply reviewQuestion_cases in H as [H|(e & s & _ & -> & _)];
    [|discriminate D].
  rewrite (reviewBody_stage1 _ S1) in H.
  erewrite bind_run in H by exact E. exact H.
Qed.

(** C2, as stated, fails: the placeholder of a degraded default is not
    treated as absent.  With every call failing, the final answer is the
    Conflict Analyzer's placeholder and not the question's own answer. *)
Lemma final_answer_priority_counterexample :
  ~ (forall host q st plan agentSet s1 s2 st3 r st',
        Stage2Done host q st plan agentSet s1 s2 st3 ->
        reviewQuestion host q st = (Returned r, st') ->
        Review.status r = "done" ->
        Review.finalAnswer r
        = finalAnswerSkippingPlaceholders (conflictResult s2)
                                          (answerResult s1) q).
Proof.
  intros Claim.
  eassert (S : Stage2Done Fixture.offline Fixture.settled Fixture.emptyState
                          _ _ _ _ _) by stage2.
  eassert (H : reviewQuestion Fixture.offline Fixture.settled
                              Fixture.emptyState = (Returned _, _)) by run.
  specialize (Claim _ _ _ _ _ _ _ _ _ _ S H).
  vm_compute in Claim. specialize (Claim eq_refl). discriminate Claim.
Qed.

(** C2 (amended): in a completed review the final answer is the Conflict
    Analyzer's recommended option if the analyzer ran and its recommendation
    is truthy, else the Answer Verifier's chosen option if the verifier ran
    and its answer is truthy, else the question's final answer if not empty,
    else its manual answer.  The placeholder of a degraded default is truthy
    and is selected like any other answer. *)
Theorem final_answer_priority host q st plan agentSet s1 s2 st3 r st' :
  Stage2Done host q st plan agentSet s1 s2 st3 ->
  reviewQuestion host q st = (Returned r, st') ->
  Review.status r = "done" ->
  Review.finalAnswer r
  = finalAnswerByPriority (conflictResult s2) (answerResult s1) q.
Proof.
  intros S H D.
  pose proof (stage2_step4 S H D) as K.
  apply step4_done in K as (_ & _ & _ & _ & -> & _).
  apply selectFinalAnswer_priority.
Qed.

Lemma final_answer_priority_witness :
  exists r,
    fst (reviewQuestion Fixture.ratingOnly Fixture.disputed Fixture.emptyState)
    = Returned r
    /\ Review.finalAnswer r = VString "A".
Proof.
  eassert (S : Stage2Done Fixture.ratingOnly Fixture.disputed
                          Fixture.emptyState _ _ _ _ _) by stage2.
  eassert (H : reviewQuestion Fixture.ratingOnly Fixture.disputed
                              Fixture.emptyState = (Returned _, _)) by run.
  eexists. split; [rewrite H; reflexivity|].
  rewrite (@final_answer_priority _ _ _ _ _ _ _ _ _ _ S H); [run|reflexivity].
Defined.

(** ** C1 *)

(** C1: [reviewQuestion] never throws: it returns a result whose status is
    done or error; and when the body of its [try] block throws [e], the
    result has status error, [needsHuman] true and a query summary that ends
    with the message of [e]. *)
Theorem reviewQuestion_never_throws host q st :
  (exists r st',
      reviewQuestion host q st = (Returned r, st')
      /\ (Review.status r = "done" \/ Review.status r = "error"))
  /\ (forall e s,
        reviewBody host q (Date_now host (calls st)) (startState st)
        = (Thrown e, s) ->
        exists r st',
          reviewQuestion host q st = (Returned r, st')
          /\ Review.status r = "error"
          /\ Review.needsHuman r = VBool true
          /\ Review.queries r
             = "⚠ SYSTEM ERROR — needs human review: " ++ message e).
Proof.
  destruct (reviewQuestion_total host q st) as (r & st' & H).
  split.
  - exists r, st'. split; [assumption|].
    apply reviewQuestion_cases in H as [H|(e & s & _ & -> & _)].
    + left. now apply reviewBody_done in H.
    + now right.
  - intros e s B. exists r, st'. split; [assumption|].
    apply reviewQuestion_cases in H as [H|(e' & s' & B' & -> & _)].
    + rewrite B in H. discriminate H.
    + rewrite B in B'. inversion B'; subst. repeat split.
Qed.

Lemma reviewQuestion_never_throws_witness :
  exists r,
    fst (reviewQuestion Fixture.sloppy Fixture.disputed Fixture.emptyState)
    = Returned r
    /\ Review.status r = "error"
    /\ Review.needsHuman r = VBool true
    /\ Review.queries r
       = "⚠ SYSTEM ERROR — needs human review: join is not a function".
Proof.
  eassert (B : reviewBody Fixture.sloppy Fixture.disputed
                 (Date_now Fixture.sloppy (calls Fixture.emptyState))
                 (startState Fixture.emptyState) = (Thrown _, _)) by run.
  destruct (proj2 (reviewQuestion_never_throws Fixture.sloppy Fixture.disputed
                     Fixture.emptyState) _ _ B) as (r & st' & H & S & N & Q).
  exists r. rewrite H. repeat split; assumption.
Defined.

(** ** C9 *)

(** C9: for a question with no explanation text the Explanation Critic
    returns quality Missing and score 0, makes no call of the Inference
    Client and sends no request, and appends its notice to the log. *)
Theorem explanationCritic_short_circuit host q st :
  Question.finalExplanation q = "" ->
  Question.feedback q = "" ->
  exists result st',
    explanationCritic host q st = (Returned result, st')
    /\ get result "quality" = VString "Missing"
    /\ get result "score" = VNumber 0%float
    /\ calls st' = calls st
    /\ requests st' = requests st
    /\ agentLog st' = (agentLog st ++ [explanationStart; explanationNotice])%list.
Proof.
  intros E F. unfold explanationCritic. rewrite E, F.
  eexists. eexists. split; [reflexivity|]. cbn.
  repeat split. now rewrite <- app_assoc.
Qed.

Lemma explanationCritic_short_circuit_witness :
  exists result st',
    explanationCritic Fixture.ratingOnly Fixture.settled Fixture.emptyState
    = (Returned result, st')
    /\ get result "quality" = VString "Missing"
    /\ get result "score" = VNumber 0%float
    /\ calls st' = []
    /\ requests st' = []
    /\ agentLog st' = [explanationStart; explanationNotice].
Proof.
  exact (@explanationCritic_short_circuit Fixture.ratingOnly Fixture.settled
           Fixture.emptyState eq_refl eq_refl).
Defined.

(** ** C8 *)

(** C8, as stated, fails: a reasoning text in which removing a fence marker
    brings a closing marker together ends the block early, and the brace
    left behind it is taken for the start of the object. *)
Lemma parseJSON_round_trip_counterexample :
  ~ (forall host reasoning text record,
        parseJSON host text = Returned record ->
        parseJSON host (wrapResponse reasoning text) = Returned record).
Proof.
  intros Claim.
  specialize (Claim Fixture.ratingOnly "a</thi```nk>{" Fixture.ratingPlanText
                Fixture.ratingPlan).
  assert (T : parseJSON Fixture.ratingOnly Fixture.ratingPlanText
              = Returned Fixture.ratingPlan) by run.
  specialize (Claim T).
  assert (W : parseJSON Fixture.ratingOnly
                (wrapResponse "a</thi```nk>{" Fixture.ratingPlanText)
              = Thrown (Fixture.SyntaxError "Unexpected token")) by run.
  rewrite W in Claim. discriminate Claim.
Qed.

(** C8 (amended): a text that the parser decodes to a record is decoded to
    the same record after it is put in a fenced code block and a reasoning
    block is put in front, for every reasoning text that holds no closing
    marker of the block, in any letter case, once its fence markers are
    removed as the parser removes them.  The reasoning text may hold fence
    markers, fenced drafts and braces. *)
Theorem parseJSON_wrapped host reasoning text record :
  Str.findLit true "</think>" (stripFences reasoning) = None ->
  parseJSON host text = Returned record ->
  parseJSON host (wrapResponse reasoning text) = Returned record.
Proof.
  intros C H. unfold parseJSON in *.
  now rewrite (@WrapFacts.jsonSpan_wrap reasoning text C).
Qed.

Lemma parseJSON_wrapped_witness :
  parseJSON Fixture.ratingOnly
            (wrapResponse ("A first draft: ```json" ++ Str.nl ++ "{agents: ?}"
                           ++ Str.nl ++ "``` is not complete.")
                          Fixture.ratingPlanText)
  = Returned Fixture.ratingPlan.
Proof.
  apply parseJSON_wrapped; run.
Defined.

(** ** C3: counting the calls of an agent *)

Ltac silent :=
  repeat lazymatch goal with
    | |- effect _ _ (ret _) => apply effect_ret
    | |- effect _ _ (lift _) => apply effect_lift
    | |- effect _ _ (str _ _) => apply effect_str
    | |- effect _ _ (console_log _) => apply effect_console_log
    | |- effect _ _ (push _) => apply effect_push; exact I
    | |- effect _ _ (bind _ _) => apply effect_bind; [|intros ?]
    | |- effect _ _ (if _ then _ else _) => apply effect_if
    end.

(** [m] makes no call. *)
Ltac no_call := eapply effect_weaken; [silent | simpl; lia].

Lemma calls_kept {A} (m : M A) st :
  effect anyLine 0 m -> calls (snd (m st)) = calls st.
Proof.
  intros E. destruct (E st) as (l & cs & _ & _ & C & N).
  destruct cs; [|simpl in N; lia]. now rewrite C, app_nil_r.
Qed.

Lemma callsMade_eq {A} (m : M A) st cs :
  calls (snd (m st)) = (calls st ++ cs)%list -> callsMade m st = cs.
Proof.
  intros E. unfold callsMade. rewrite E.
  rewrite skipn_app, Nat.sub_diag, skipn_all. reflexivity.
Qed.

Lemma callsMade_le {A} P n (m : M A) st :
  effect P n m -> List.length (callsMade m st) <= n.
Proof.
  intros E. destruct (E st) as (l & cs & _ & _ & C & N).
  now rewrite (@callsMade_eq _ _ _ _ C).
Qed.

Section Calls.
Variable host : Host.

Lemma callLLM_calls c st :
  calls (snd (callLLM host c st)) = (calls st ++ [c])%list.
Proof.
  unfold callLLM.
  destruct (getKey host (provider c)) as [k|]; [|reflexivity].
  destruct (String.eqb k "" || Str.includes "your_" k); [reflexivity|].
  destruct (fetch host _ _); reflexivity.
Qed.

(** [try { raw = await callLLM(c); K raw } catch (e) { H e }], where
    neither [K] nor [H] calls the Inference Client. *)
Lemma guarded_call {A} c (K : string -> M A) (H : exn -> M A) st :
  (forall raw, effect anyLine 0 (K raw)) ->
  (forall e, effect anyLine 0 (H e)) ->
  calls (snd (tryCatch (bind (callLLM host c) K) H st))
  = (calls st ++ [c])%list.
Proof.
  intros EK EH. pose proof (callLLM_calls c st) as C.
  unfold tryCatch, bind.
  destruct (callLLM host c st) as [[raw|e] s1]; cbn [snd] in C.
  - pose proof (@calls_kept _ _ s1 (EK raw)) as CK.
    destruct (K raw s1) as [[a|e] s2]; cbn [snd] in *.
    + now rewrite CK.
    + now rewrite (@calls_kept _ _ s2 (EH e)), CK.
  - now rewrite (@calls_kept _ _ s1 (EH e)).
Qed.

Lemma pushed_call {A} line c (K : string -> M A) (H : exn -> M A) st :
  (forall raw, effect anyLine 0 (K raw)) ->
  (forall e, effect anyLine 0 (H e)) ->
  callsMade (bind (push line)
                  (fun _ => tryCatch (bind (callLLM host c) K) H)) st
  = [c].
Proof.
  intros EK EH. apply callsMade_eq. unfold bind at 1. cbn [push].
  now rewrite guarded_call.
Qed.

Lemma difficultyRater_calls q st :
  callsMade (difficultyRater host q) st
  = [call (DifficultyPrompt q) groq fast defaultTemperature].
Proof.
  unfold difficultyRater, llm. apply pushed_call; intros; no_call.
Qed.

Lemma unitChecker_calls q st :
  callsMade (unitChecker host q) st
  = [call (UnitPrompt q) groq fast defaultTemperature].
Proof.
  unfold unitChecker, llm. apply pushed_call; intros; no_call.
Qed.

Lemma memoryTrickGenerator_calls q st :
  callsMade (memoryTrickGenerator host q) st
  = [call (MemoryPrompt q) groq fast creativeTemperature].
Proof.
  unfold memoryTrickGenerator, llm. apply pushed_call; intros; no_call.
Qed.

Lemma calculationChecker_calls q st :
  callsMade (calculationChecker host q) st
  = [call (CalculationPrompt q) groq fast defaultTemperature].
Proof.
  unfold calculationChecker, llm. apply pushed_call; intros; no_call.
Qed.

Lemma orchestrate_calls q st :
  callsMade (orchestrate host q) st
  = [call (PlanPrompt q) groq fast defaultTemperature].
Proof.
  unfold orchestrate, llm. cbv beta zeta. apply callsMade_eq.
  unfold bind at 1. unfold bind at 1. cbn [push console_log].
  rewrite guarded_call; [reflexivity| |]; intros; no_call.
Qed.

(** The shape of the Answer Verifier: a primary call with an inner
    fallback, and an outer fallback around the whole. *)
(** The calls of a guarded chain: a first call with its substitute, a
    continuation, and a last call in the handler. *)
Lemma chained_calls {A} p1 p2 p3 (K K3 : string -> M A) (H3 : exn -> M A)
      st :
  (forall raw, effect anyLine 0 (K raw)) ->
  (forall raw, effect anyLine 0 (K3 raw)) ->
  (forall e, effect anyLine 0 (H3 e)) ->
  calls (snd (tryCatch
                (bind (tryCatch (callLLM host p1)
                                (fun _ => callLLM host p2)) K)
                (fun _ => tryCatch (bind (callLLM host p3) K3) H3) st))
  = (calls st
     ++ p1 :: (if throws (fst (callLLM host p1 st)) then [p2] else [])
     ++ (if throws (fst (bind (tryCatch (callLLM host p1)
                                        (fun _ => callLLM host p2)) K st))
         then [p3] else []))%list.
Proof.
  intros Ek Ek3 Eh3.
  set (F := fun _ : exn => tryCatch (bind (callLLM host p3) K3) H3).
  assert (Last : forall e s, calls (snd (F e s)) = (calls s ++ [p3])%list)
    by (intros; unfold F; now apply guarded_call).
  pose proof (callLLM_calls p1 st) as C1.
  unfold tryCatch, bind.
  destruct (callLLM host p1 st) as [[raw|e1] s1]; cbn [snd fst throws] in *.
  - pose proof (@calls_kept _ _ s1 (Ek raw)) as Ck.
    destruct (K raw s1) as [[a|e] s2]; cbn [snd fst throws] in *.
    + now rewrite Ck, C1.
    + rewrite Last, Ck, C1. now rewrite <- app_assoc.
  - pose proof (callLLM_calls p2 s1) as C2.
    destruct (callLLM host p2 s1) as [[raw|e2] s2]; cbn [snd fst throws] in *.
    + pose proof (@calls_kept _ _ s2 (Ek raw)) as Ck.
      destruct (K raw s2) as [[a|e] s3]; cbn [snd fst throws] in *.
      * rewrite Ck, C2, C1. now rewrite <- app_assoc.
      * rewrite Last, Ck, C2, C1. now rewrite <- !app_assoc.
    + rewrite Last, C2, C1. now rewrite <- !app_assoc.
Qed.

Lemma answerVerifier_paths q :
  answerVerifier host q
  = (push verifierStart ;;
     tryCatch (verifierGroqPath host q) (verifierOpenRouterPath host q)).
Proof. reflexivity. Qed.

Lemma answerVerifier_calls q st :
  callsMade (answerVerifier host q) st
  = verifierCall q groq reason
    :: (if throws (fst (callLLM host (verifierCall q groq reason)
                          (snd (push verifierStart st))))
        then [verifierCall q groq smart] else [])
    ++ (if throws (fst (verifierGroqPath host q
                          (snd (push verifierStart st))))
        then [verifierCall q openrouter smart] else []).
Proof.
  apply callsMade_eq. unfold answerVerifier, verifierGroqPath, llm.
  unfold bind at 1. cbn [push].
  match goal with
  | |- context [tryCatch (bind _ ?K) (fun _ => tryCatch (bind _ ?K3) ?H3)] =>
      rewrite (@chained_calls _ (verifierCall q groq reason)
                 (verifierCall q groq smart)
                 (verifierCall q openrouter smart) K K3 H3)
  end; [reflexivity| | |]; intros; no_call.
Qed.

Lemma verifier_paths_fail q st :
  verifierCallsFail host q ->
  throws (fst (callLLM host (verifierCall q groq reason) st)) = true
  /\ throws (fst (verifierGroqPath host q st)) = true.
Proof.
  intros F.
  destruct (F groq reason defaultTemperature st) as [e1 E1].
  unfold llm in E1. fold (call (VerifyPrompt q) groq reason defaultTemperature) in E1.
  fold (verifierCall q groq reason) in E1.
  split; [now rewrite E1|].
  unfold verifierGroqPath, bind at 1, tryCatch, llm.
  fold (call (VerifyPrompt q) groq reason defaultTemperature).
  fold (verifierCall q groq reason).
  destruct (callLLM host (verifierCall q groq reason) st) as [o1 s1].
  cbn [fst] in E1. subst o1.
  destruct (F groq smart defaultTemperature s1) as [e2 E2].
  unfold llm in E2.
  destruct (callLLM host _ s1) as [o2 s2]. cbn [fst] in E2. subst o2.
  reflexivity.
Qed.
End Calls.

(** C3, as stated, fails: the Difficulty Rater's only call fails and no
    fallback call follows (and with every call failing the Answer Verifier
    makes two fallback calls, see below). *)
Lemma one_fallback_hop_counterexample :
  ~ (forall host q st,
        (exists e,
            fst (callLLM host
                   (call (DifficultyPrompt q) groq fast defaultTemperature)
                   (snd (push difficultyStart st)))
            = Thrown e) ->
        List.length (callsMade (difficultyRater host q) st) = 2).
Proof.
  intros Claim.
  specialize (Claim Fixture.offline Fixture.settled Fixture.emptyState).
  rewrite difficultyRater_calls in Claim.
  cbn [List.length] in Claim.
  assert (E : 1 = 2); [|discriminate E].
  apply Claim. eexists. reflexivity.
Qed.

(** C3 (amended): only the Answer Verifier has a fallback chain, of one or
    two hops.  It is its first log line followed by the groq path guarded
    by the OpenRouter path.  After its primary call (groq, reason) it calls
    (groq, smart) exactly when the primary call throws, and then
    (openrouter, smart) exactly when the groq path fails, that is when both
    groq calls throw or the answer obtained cannot be parsed or rendered;
    no other call is made.  So a failure is followed by one fallback
    attempt or by two, and when every call fails by both, before the
    degraded default is returned.  The Orchestrator and each of the other
    agents make one call at most in a run, so that their degraded default
    is returned without any fallback attempt. *)
Theorem fallback_attempts host q st :
  let st1 := snd (push verifierStart st) in
  let primaryFails :=
    throws (fst (callLLM host (verifierCall q groq reason) st1)) in
  let groqPathFails := throws (fst (verifierGroqPath host q st1)) in
  answerVerifier host q
  = (push verifierStart ;;
     tryCatch (verifierGroqPath host q) (verifierOpenRouterPath host q))
  /\ callsMade (answerVerifier host q) st
     = verifierCall q groq reason
       :: (if primaryFails then [verifierCall q groq smart] else [])
       ++ (if groqPathFails then [verifierCall q openrouter smart] else [])
  /\ (verifierCallsFail host q ->
      callsMade (answerVerifier host q) st
      = [verifierCall q groq reason; verifierCall q groq smart;
         verifierCall q openrouter smart])
  /\ callsMade (orchestrate host q) st
     = [call (PlanPrompt q) groq fast defaultTemperature]
  /\ callsMade (difficultyRater host q) st
     = [call (DifficultyPrompt q) groq fast defaultTemperature]
  /\ callsMade (unitChecker host q) st
     = [call (UnitPrompt q) groq fast defaultTemperature]
  /\ callsMade (memoryTrickGenerator host q) st
     = [call (MemoryPrompt q) groq fast creativeTemperature]
  /\ callsMade (calculationChecker host q) st
     = [call (CalculationPrompt q) groq fast defaultTemperature]
  /\ (forall answer,
        List.length (callsMade (conflictAnalyzer host q answer) st) <= 1)
  /\ List.length (callsMade (explanationCritic host q) st) <= 1.
Proof.
  cbv zeta.
  split; [apply answerVerifier_paths|].
  split; [apply answerVerifier_calls|].
  split.
  { intros F. rewrite answerVerifier_calls.
    destruct (@verifier_paths_fail host q (snd (push verifierStart st)) F)
      as [-> ->].
    reflexivity. }
  split; [apply orchestrate_calls|].
  split; [apply difficultyRater_calls|].
  split; [apply unitChecker_calls|].
  split; [apply memoryTrickGenerator_calls|].
  split; [apply calculationChecker_calls|].
  split.
  - intros answer. eapply callsMade_le. apply effect_conflictAnalyzer.
  - eapply callsMade_le. apply (@effect_explanationCritic host _ true_any).
Qed.

(** ** C7: the batch loop *)

Section BatchFacts.
Variable World : Type.
Variable review : Question.t -> World -> outcome Review.t * World.

Import Server.

Lemma send_lines i (lines : list string) (c : Conn World) :
  let c' := fold_left (fun c line => sendEvent (log i line) c) lines c in
  world c' = world c /\ results c' = results c.
Proof.
  revert c; induction lines as [|l lines IH]; intros c; [now split|].
  cbn [fold_left]. destruct (IH (sendEvent (log i l) c)) as [W R].
  now split.
Qed.

Lemma iteration_step total i q (c : Conn World) :
  world (iteration review total i q c) = snd (review q (world c))
  /\ results (iteration review total i q c)
     = (results c ++ [entryOf i (fst (review q (world c)))])%list.
Proof.
  unfold iteration. cbn [sendEvent world sent results].
  destruct (review q (world c)) as [[r|e] w]; cbn [fst snd entryOf].
  - match goal with
    | |- context [fold_left ?f ?l ?c0] =>
        destruct (send_lines i l c0) as [W R];
        cbn zeta in W, R;
        set (c1 := fold_left f l c0) in *
    end.
    destruct (i <? total - 1)%nat; cbn; rewrite ?W, ?R; now split.
  - destruct (i <? total - 1)%nat; cbn; now split.
Qed.

Lemma loop_spec total i questions (c : Conn World) :
  world (loop review total i questions c)
  = fold_left (fun w q => snd (review q w)) questions (world c)
  /\ results (loop review total i questions c)
     = (results c ++ entries review i questions (world c))%list.
Proof.
  revert i c; induction questions as [|q rest IH]; intros i c.
  - cbn. now rewrite app_nil_r.
  - cbn [loop fold_left entries].
    destruct (iteration_step total i q c) as [W R].
    destruct (IH (S i) (iteration review total i q c)) as [W' R'].
    rewrite W', R', W, R. split; [reflexivity|].
    now rewrite <- app_assoc.
Qed.

Lemma entries_length i questions w :
  List.length (entries review i questions w) = List.length questions.
Proof.
  revert i w; induction questions as [|q rest IH]; intros i w; cbn;
    [reflexivity | now rewrite IH].
Qed.

Lemma entries_nth i questions w k q :
  nth_error questions k = Some q ->
  nth_error (entries review i questions w) k
  = Some (entryOf (i + k)
            (fst (review q (worldBefore review questions w k)))).
Proof.
  revert i w k; induction questions as [|q0 rest IH]; intros i w k H.
  - destruct k; discriminate H.
  - destruct k as [|k]; cbn in H.
    + inversion H; subst. cbn. now rewrite Nat.add_0_r.
    + cbn [entries nth_error]. rewrite (IH _ _ _ H).
      unfold worldBefore. cbn [firstn fold_left].
      now rewrite Nat.add_succ_r.
Qed.

(** C7: for a non-empty sequence of questions the endpoint ends its event
    stream with a [complete] event that carries exactly one result per
    question, in the order of the questions: the result at index [i] is
    the one recorded for question [i], reviewed in the world the reviews
    of the questions before it left; when that review throws, the error
    entry is recorded at [i] and the following questions are still
    reviewed. *)
Theorem reviewAll_results q0 rest w :
  let questions := q0 :: rest in
  exists effects results w',
    reviewAll review questions w
    = (EventStream
         (effects ++ [Send (complete (List.length questions) results)]),
       results, w')
    /\ List.length results = List.length questions
    /\ (forall i q,
          nth_error questions i = Some q ->
          nth_error results i
          = Some (entryOf i
                    (fst (review q (worldBefore review questions w i)))))
    /\ w' = worldBefore review questions w (List.length questions).
Proof.
  intros questions. unfold reviewAll. subst questions.
  set (questions := q0 :: rest).
  set (c0 := sendEvent (start (List.length questions))
                       {| world := w; sent := []; results := [] |}).
  destruct (loop_spec (List.length questions) 0 questions c0) as [W R].
  cbn [results c0 sendEvent app world] in W, R.
  eexists. eexists. eexists. split; [reflexivity|].
  cbn [sendEvent results world]. rewrite R, W.
  split; [apply entries_length|]. split.
  - intros i q H. now rewrite (entries_nth 0 _ w _ H).
  - unfold worldBefore. now rewrite firstn_all.
Qed.
End BatchFacts.

(* ------------------------------------------------------------------------- *)
(** ** Trimming *)

Module TrimFacts.
Import Str StrFacts ReplaceFacts FenceFacts SpanFacts.

Lemma matchLit_empty t : t <> "" -> matchLit false t "" = None.
Proof. destruct t; [congruence | reflexivity]. Qed.

Lemma tokenAt_empty tokens :
  Forall (fun t => t <> "") tokens -> tokenAt tokens "" = None.
Proof.
  induction 1 as [|t ts Ht _ IH]; [reflexivity|].
  cbn [tokenAt]. now rewrite (matchLit_empty Ht).
Qed.

Lemma tokenAt_positive tokens s n :
  Forall (fun t => t <> "") tokens -> tokenAt tokens s = Some n -> 0 < n.
Proof.
  induction 1 as [|t ts Ht _ IH]; cbn [tokenAt]; [discriminate|].
  destruct (matchLit false t s).
  - intros E. injection E as <-. destruct t; [congruence | cbn; lia].
  - exact IH.
Qed.

Lemma drop_shorter n s :
  0 < n -> s <> "" -> String.length (drop n s) < String.length s.
Proof.
  intros Hn Hs. destruct s as [|c s]; [congruence|].
  now apply drop_length_lt.
Qed.

(** With fuel for every character, stripping stops only where no token
    is found. *)
Lemma stripTokens_done tokens fuel s :
  Forall (fun t => t <> "") tokens -> String.length s <= fuel ->
  tokenAt tokens (stripTokens tokens fuel s) = None.
Proof.
  intros Ht. revert s.
  induction fuel as [|f IH]; intros s Hs.
  - destruct s; [|cbn in Hs; lia]. cbn [stripTokens].
    now apply tokenAt_empty.
  - cbn [stripTokens]. destruct (tokenAt tokens s) as [n|] eqn:E; [|exact E].
    apply IH.
    assert (0 < n) by (eapply tokenAt_positive; eassumption).
    destruct s as [|c s].
    + rewrite (tokenAt_empty Ht) in E. discriminate.
    + pose proof (@drop_length_lt n c s H). lia.
Qed.

Lemma stripTokens_fixed tokens fuel s :
  tokenAt tokens s = None -> stripTokens tokens fuel s = s.
Proof. intros E. destruct fuel; cbn [stripTokens]; [|rewrite E]; reflexivity. Qed.

Lemma tokenAt_app tokens s b n :
  tokenAt tokens s = Some n -> exists m, tokenAt tokens (s ++ b) = Some m.
Proof.
  induction tokens as [|t ts IH]; cbn [tokenAt]; [discriminate|].
  destruct (matchLit false t s) as [r|] eqn:E.
  - intros _. rewrite (matchLit_app _ _ _ b E). eauto.
  - intros H. destruct (matchLit false t (s ++ b)); eauto.
Qed.

Lemma length_rev s : String.length (rev s) = String.length s.
Proof.
  induction s as [|c s IH]; [reflexivity|].
  cbn [rev]. rewrite length_app, IH. cbn. lia.
Qed.

Lemma whiteSpace_tokens : Forall (fun t => t <> "") whiteSpace.
Proof. repeat constructor; discriminate. Qed.

Lemma whiteSpace_rev_tokens : Forall (fun t => t <> "") (map rev whiteSpace).
Proof. repeat constructor; discriminate. Qed.

Lemma trimEnd_prefix u : exists b, u = trimEnd u ++ b.
Proof.
  unfold trimEnd.
  destruct (@stripTokens_split (map rev whiteSpace) (String.length u) (rev u)
              eq_refl) as [a [E _]].
  exists (rev a).
  rewrite <- (rev_involutive u) at 1. rewrite E at 1.
  now rewrite rev_app.
Qed.

Lemma trim_trimmed s :
  tokenAt whiteSpace (trim s) = None
  /\ tokenAt (map rev whiteSpace) (rev (trim s)) = None.
Proof.
  unfold trim. split.
  - destruct (tokenAt whiteSpace (trimEnd (trimStart s))) as [n|] eqn:E;
      [|reflexivity].
    destruct (trimEnd_prefix (trimStart s)) as [b Hb].
    destruct (tokenAt_app _ _ b E) as [m Hm].
    rewrite <- Hb in Hm. unfold trimStart in Hm.
    rewrite stripTokens_done in Hm;
      [discriminate | exact whiteSpace_tokens | lia].
  - unfold trimEnd at 1. rewrite rev_involutive.
    apply stripTokens_done; [exact whiteSpace_rev_tokens|].
    rewrite length_rev. lia.
Qed.

Lemma trim_fixed s :
  tokenAt whiteSpace s = None ->
  tokenAt (map rev whiteSpace) (rev s) = None ->
  trim s = s.
Proof.
  intros H1 H2. unfold trim, trimStart. rewrite (@stripTokens_fixed _ _ _ H1).
  unfold trimEnd. rewrite (@stripTokens_fixed _ _ _ H2).
  apply rev_involutive.
Qed.

Lemma trim_idempotent s : trim (trim s) = trim s.
Proof. destruct (trim_trimmed s). now apply trim_fixed. Qed.

Lemma trim_substring s : exists a b, s = a ++ trim s ++ b.
Proof.
  unfold trim.
  destruct (trimEnd_prefix (trimStart s)) as [b Hb].
  unfold trimStart in *.
  destruct (@stripTokens_split whiteSpace (String.length s) s eq_refl)
    as [a [E _]].
  exists a, b. rewrite <- Hb. exact E.
Qed.
End TrimFacts.

(* ------------------------------------------------------------------------- *)
(** ** The Inference Client and the health endpoint *)

Lemma entered_requests c st : requests (entered c st) = requests st.
Proof. reflexivity. Qed.

Lemma list_app_one {A} (l : list A) (x : A) : (l ++ [x])%list <> l.
Proof.
  intros E. apply (f_equal (@List.length A)) in E.
  rewrite List.length_app in E. cbn in E. lia.
Qed.

Lemma callLLM_unconfigured host c st :
  Api.configured (getKey host (provider c)) = false ->
  callLLM host c st = (Thrown (missingKey (provider c)), entered c st).
Proof.
  unfold Api.configured, callLLM, entered.
  destruct (getKey host (provider c)) as [k|]; [|reflexivity].
  destruct (String.eqb k ""); [reflexivity|].
  destruct (Str.includes "your_" k); [reflexivity | discriminate].
Qed.

Lemma callLLM_configured host c st :
  Api.configured (getKey host (provider c)) = true ->
  exists key,
    getKey host (provider c) = Some key
    /\ requests (snd (callLLM host c st))
       = (requests st ++ [request key c])%list.
Proof.
  unfold Api.configured, callLLM.
  destruct (getKey host (provider c)) as [k|]; [|discriminate].
  destruct (String.eqb k ""); [discriminate|].
  destruct (Str.includes "your_" k); [discriminate|]. intros _.
  exists k. split; [reflexivity|]. cbn [orb].
  now destruct (fetch host _ _).
Qed.

(** X1: the health endpoint and the Inference Client agree on what a usable
    key is.  The endpoint reports a provider as not configured exactly when
    a call for that provider fails with the missing-key error before any
    request is sent. *)
Theorem health_predicts_missing_key host anthropic c st :
  get (Api.health host anthropic) (providerName (provider c)) = VBool false
  <-> callLLM host c st = (Thrown (missingKey (provider c)), entered c st).
Proof.
  assert (E : get (Api.health host anthropic) (providerName (provider c))
              = VBool (Api.configured (getKey host (provider c))))
    by now destruct (provider c).
  rewrite E. split.
  - intros H. apply callLLM_unconfigured. now injection H.
  - intros H.
    destruct (Api.configured (getKey host (provider c))) eqn:C;
      [|reflexivity].
    destruct (@callLLM_configured host c st C) as [key [_ R]].
    rewrite H in R. cbn [snd] in R. rewrite entered_requests in R.
    symmetry in R. now apply list_app_one in R.
Qed.

(** X2: when the Inference Client returns a text, exactly one request was
    sent, to the endpoint and model of the provider and tier asked for and
    with the key of that provider, and the text neither starts nor ends with
    white space, so that trimming it again changes nothing. *)
Theorem callLLM_returns_trimmed host c st text st' :
  callLLM host c st = (Returned text, st') ->
  (exists key,
      getKey host (provider c) = Some key
      /\ requests st' = (requests st ++ [request key c])%list)
  /\ calls st' = (calls st ++ [c])%list
  /\ trimmed text
  /\ Str.trim text = text.
Proof.
  unfold callLLM.
  destruct (getKey host (provider c)) as [k|]; [|discriminate].
  destruct (String.eqb k "" || Str.includes "your_" k); [discriminate|].
  destruct (fetch host _ _) as [e|status body|content]; try discriminate.
  intros E. injection E as <- <-. cbn [requests calls].
  split; [exists k; split; reflexivity|].
  split; [reflexivity|].
  split; [apply TrimFacts.trim_trimmed | apply TrimFacts.trim_idempotent].
Qed.

Lemma callLLM_returns_trimmed_witness :
  exists text st',
    callLLM Fixture.ratingOnly
            (call (PlanPrompt Fixture.settled) groq fast defaultTemperature)
            Fixture.emptyState = (Returned text, st')
    /\ trimmed text /\ Str.trim text = text.
Proof.
  eexists. eexists.
  assert (H : callLLM Fixture.ratingOnly
                (call (PlanPrompt Fixture.settled) groq fast defaultTemperature)
                Fixture.emptyState
              = (Returned (Str.trim Fixture.ratingPlanText),
                 snd (callLLM Fixture.ratingOnly
                        (call (PlanPrompt Fixture.settled) groq fast
                              defaultTemperature) Fixture.emptyState)))
    by (vm_compute; reflexivity).
  split; [exact H|].
  exact (proj2 (proj2 (@callLLM_returns_trimmed _ _ _ _ _ H))).
Defined.

(* ------------------------------------------------------------------------- *)
(** ** The parser on texts without an object, and on texts with a preamble *)

Module ParserFacts.
Import Str StrFacts ReplaceFacts FenceFacts SpanFacts.

Lemma hasChar_replaceFrom c re k s :
  hasChar c (replaceFrom re k s) = true -> hasChar c s = true.
Proof.
  revert k. induction s as [|a s IH]; intros k; cbn [replaceFrom];
    [trivial|].
  cbn [hasChar]. destruct k as [|k].
  - destruct (re (String a s)) as [[|n]|].
    + cbn [hasChar]. destruct (Ascii.eqb a c); [trivial|]. cbn [orb].
      apply IH.
    + intros H. apply IH in H. rewrite H. apply orb_true_r.
    + cbn [hasChar]. destruct (Ascii.eqb a c); [trivial|]. cbn [orb].
      apply IH.
  - intros H. apply IH in H. rewrite H. apply orb_true_r.
Qed.

Lemma hasChar_clean c raw :
  hasChar c raw = false -> hasChar c (cleanResponse raw) = false.
Proof.
  intros H. destruct (hasChar c (cleanResponse raw)) eqn:E; [|reflexivity].
  unfold cleanResponse in E.
  destruct (TrimFacts.trim_substring
              (replaceAll thinkRe
                 (replaceAll fenceRe (replaceAll fenceJsonRe raw))))
    as [a [b S]].
  assert (F : hasChar c
                (replaceAll thinkRe
                   (replaceAll fenceRe (replaceAll fenceJsonRe raw)))
              = true).
  { rewrite S, !hasChar_app, E. now rewrite orb_true_r. }
  unfold replaceAll in F.
  apply hasChar_replaceFrom in F. apply hasChar_replaceFrom in F.
  apply hasChar_replaceFrom in F. congruence.
Qed.

Lemma eqbChar_lt c : eqbChar true "<" c = Ascii.eqb c "<".
Proof.
  destruct c as [[] [] [] [] [] [] [] []]; reflexivity.
Qed.

Lemma thinkRe_head c s : Ascii.eqb c "<" = false -> thinkRe (String c s) = None.
Proof.
  intros H. unfold thinkRe. cbn [matchLit]. now rewrite eqbChar_lt, H.
Qed.

(** A prefix in which no match can start is copied. *)
Lemma replaceAll_prefix re (guard : ascii -> bool) a x :
  (forall c s, guard c = false -> re (String c s) = None) ->
  (forall c, hasChar c a = true -> guard c = false) ->
  replaceAll re (a ++ x) = a ++ replaceAll re x.
Proof.
  intros Hre. unfold replaceAll.
  induction a as [|c a IH]; intros Ha; [reflexivity|].
  cbn [append replaceFrom].
  rewrite Hre by (apply Ha; cbn [hasChar]; now rewrite Ascii.eqb_refl).
  f_equal. apply IH. intros d Hd. apply Ha. cbn [hasChar].
  rewrite Hd. apply orb_true_r.
Qed.

Lemma plain_hasChar a c :
  plain a = true -> hasChar c a = true -> plainChar c = true.
Proof.
  induction a as [|d a IH]; cbn [plain hasChar]; [discriminate|].
  intros P H. apply andb_true_iff in P as [Pd Pa].
  destruct (Ascii.eqb d c) eqn:E.
  - apply Ascii.eqb_eq in E. now subst.
  - now apply IH.
Qed.

Lemma plain_noBrace a : plain a = true -> noBrace a = true.
Proof.
  intros P. unfold noBrace.
  destruct (hasChar "{" a) eqn:A;
    [apply (@plain_hasChar _ _ P) in A; discriminate|].
  destruct (hasChar "}" a) eqn:B;
    [apply (@plain_hasChar _ _ P) in B; discriminate|].
  reflexivity.
Qed.

Lemma plainChar_backtick c : plainChar c = true -> Ascii.eqb c backtick = false.
Proof.
  unfold plainChar, backtick. destruct (Ascii.eqb c "`"); [discriminate|].
  reflexivity.
Qed.

Lemma plainChar_lt c : plainChar c = true -> Ascii.eqb c "<" = false.
Proof.
  unfold plainChar. destruct (Ascii.eqb c "`"); [discriminate|].
  destruct (Ascii.eqb c "<"); [discriminate | reflexivity].
Qed.

Lemma stripAll_prefix a x : plain a = true -> stripAll (a ++ x) = a ++ stripAll x.
Proof.
  intros P. unfold stripAll.
  rewrite (@replaceAll_prefix fenceJsonRe (fun c => negb (plainChar c)) a x).
  - rewrite (@replaceAll_prefix fenceRe (fun c => negb (plainChar c)) a).
    + rewrite (@replaceAll_prefix thinkRe (fun c => negb (plainChar c)) a).
      * reflexivity.
      * intros c s H. apply thinkRe_head. apply plainChar_lt.
        now apply negb_false_iff.
      * intros c H. apply negb_false_iff. now apply (@plain_hasChar a).
    + intros c s H. apply fenceRe_head. apply plainChar_backtick.
      now apply negb_false_iff.
    + intros c H. apply negb_false_iff. now apply (@plain_hasChar a).
  - intros c s H. apply fenceJsonRe_head. apply plainChar_backtick.
    now apply negb_false_iff.
  - intros c H. apply negb_false_iff. now apply (@plain_hasChar a).
Qed.

Lemma jsonSpan_prefix a x :
  plain a = true ->
  jsonSpan (cleanResponse (a ++ x)) = jsonSpan (cleanResponse x).
Proof.
  intros P. unfold cleanResponse. fold (stripAll (a ++ x)). fold (stripAll x).
  rewrite !jsonSpan_trim, (@stripAll_prefix _ x P).
  rewrite <- (app_nil_r (stripAll x)) at 1.
  apply jsonSpan_frame; [now apply plain_noBrace | reflexivity].
Qed.
End ParserFacts.

(** X3: a response without an opening brace, or without a closing brace, is
    rejected with the parser's own error, whatever [JSON.parse] would make
    of it: removing fences and reasoning blocks and trimming never create a
    brace. *)
Theorem parseJSON_without_object host raw :
  hasChar "{" raw = false \/ hasChar "}" raw = false ->
  parseJSON host raw = Thrown (Error "No JSON object found in response").
Proof.
  intros H. unfold parseJSON, jsonSpan.
  destruct H as [H|H]; apply ParserFacts.hasChar_clean in H.
  - now rewrite (@SpanFacts.indexOf_None _ _ H).
  - rewrite (@SpanFacts.lastIndexOf_None _ _ H).
    now destruct (Str.indexOf "{" (cleanResponse raw)).
Qed.

Lemma parseJSON_without_object_witness :
  parseJSON Fixture.ratingOnly "I cannot answer that."
  = Thrown (Error "No JSON object found in response").
Proof.
  apply parseJSON_without_object. left. reflexivity.
Defined.

(** X4: prose in front of the object is ignored.  A preamble that holds no
    backtick, no [<] and no brace does not change what the parser returns,
    or the error it throws. *)
Theorem parseJSON_skips_preamble host prose raw :
  plain prose = true ->
  parseJSON host (prose ++ raw) = parseJSON host raw.
Proof.
  intros P. unfold parseJSON. now rewrite (@ParserFacts.jsonSpan_prefix _ raw P).
Qed.

Lemma parseJSON_skips_preamble_witness :
  parseJSON Fixture.ratingOnly ("Here is the plan: " ++ Fixture.ratingPlanText)
  = parseJSON Fixture.ratingOnly Fixture.ratingPlanText.
Proof.
  apply parseJSON_skips_preamble. reflexivity.
Defined.

(* ------------------------------------------------------------------------- *)
(** ** What the agents hand to the pipeline *)

Lemma str_Returned host v st s st' :
  str host v st = (Returned s, st') -> toString host v = Returned s /\ st' = st.
Proof. unfold str. apply lift_Returned. Qed.

Lemma push_Returned msg st u st' :
  push msg st = (Returned u, st') -> st' = snd (push msg st).
Proof. intros H. now rewrite H. Qed.

Lemma settle_run {A} (m : M A) st :
  settle m st = (Returned (fst (m st)), snd (m st)).
Proof. unfold settle. now destruct (m st). Qed.

Section AgentResults.
Variable host : Host.

(** X5: the Orchestrator always returns a plan, and the plan in force
    always carries an array under [agents]: a plan of the model whose
    [agents] is anything else is replaced by the default plan.  So the set
    of agents can always be built and the agents counted. *)
Theorem orchestrate_plan_usable (q : Question.t) (st : State) :
  exists plan st' items,
    orchestrate host q st = (Returned plan, st')
    /\ get plan "agents" = VArray items
    /\ newSet (get plan "agents") = Returned items
    /\ lengthText (get plan "agents")
       = Returned (natToString (List.length items)).
Proof.
  destruct (orchestrate_total host q st) as (plan & st' & H).
  destruct (orchestrate_agents _ _ _ H) as [items E].
  exists plan, st', items. rewrite E. repeat split; assumption || reflexivity.
Qed.

(** X6: every agent but the Conflict Analyzer returns a result whatever
    the providers answer: none of them throws. *)
Theorem agents_never_throw (q : Question.t) :
  total (answerVerifier host q)
  /\ total (difficultyRater host q)
  /\ total (unitChecker host q)
  /\ total (explanationCritic host q)
  /\ total (memoryTrickGenerator host q)
  /\ total (calculationChecker host q).
Proof.
  repeat split.
  - apply answerVerifier_total.
  - apply difficultyRater_total.
  - apply unitChecker_total.
  - apply explanationCritic_total.
  - apply memoryTrickGenerator_total.
  - apply calculationChecker_total.
Qed.

Lemma answerVerifier_renders q st r st' :
  answerVerifier host q st = (Returned r, st') ->
  exists text, toString host (get r "correctAnswer") = Returned text.
Proof.
  unfold answerVerifier. intros H. peel H.
  apply tryCatch_Returned in H as [H | (e & s0 & _ & H)].
  - do 5 peel H. peel H. apply ret_Returned in H as [-> _].
    apply str_Returned in E2 as [E2 _]. eauto.
  - apply tryCatch_Returned in H as [H | (e2 & s1 & _ & H)].
    + do 3 peel H. peel H. apply ret_Returned in H as [-> _].
      apply str_Returned in E2 as [E2 _]. eauto.
    + peel H. apply ret_Returned in H as [-> _].
      exists "?". reflexivity.
Qed.

(** X7: whatever the Answer Verifier returns has an answer that can be
    rendered as text: a result of the model whose [correctAnswer] cannot
    be is discarded on both paths. *)
Theorem answerVerifier_answer_renders q st r st' :
  answerVerifier host q st = (Returned r, st') ->
  exists text, toString host (get r "correctAnswer") = Returned text.
Proof. apply answerVerifier_renders. Qed.

Lemma str_run v text st :
  toString host v = Returned text -> str host v st = (Returned text, st).
Proof. intros H. unfold str, lift. now rewrite H. Qed.

Lemma str_fail v e st :
  toString host v = Thrown e -> str host v st = (Thrown e, st).
Proof. intros H. unfold str, lift. now rewrite H. Qed.

Lemma push_run msg st : push msg st = (Returned tt, snd (push msg st)).
Proof. reflexivity. Qed.

Lemma conflictAnalyzer_run q answer st a v :
  toString host (get answer "correctAnswer") = Returned a ->
  toString host (get answer "verdict") = Returned v ->
  exists r st', conflictAnalyzer host q answer st = (Returned r, st').
Proof.
  intros A V. unfold conflictAnalyzer.
  erewrite bind_run by apply push_run.
  erewrite bind_run by (apply str_run; exact A).
  erewrite bind_run by (apply str_run; exact V).
  apply total_tryCatch. intros e. total_tac.
Qed.

Lemma conflictAnalyzer_fail q answer st e :
  toString host (get answer "correctAnswer") = Thrown e
  \/ (exists a, toString host (get answer "correctAnswer") = Returned a)
     /\ toString host (get answer "verdict") = Thrown e ->
  conflictAnalyzer host q answer st
  = (Thrown e, snd (push conflictStart st)).
Proof.
  unfold conflictAnalyzer. erewrite bind_run by apply push_run.
  intros [A | [[a A] V]].
  - apply bind_thrown. apply str_fail. exact A.
  - erewrite bind_run by (apply str_run; exact A).
    apply bind_thrown. apply str_fail. exact V.
Qed.

(** X8: the Conflict Analyzer is the one agent that can throw.  It
    renders the verifier's answer and verdict into its prompt before its
    [try] block: it throws exactly when one of the two cannot be rendered,
    and then it has logged its first line and made no call. *)
Theorem conflictAnalyzer_throws q answer st :
  ((exists e, fst (conflictAnalyzer host q answer st) = Thrown e)
   <-> (exists e, toString host (get answer "correctAnswer") = Thrown e)
       \/ (exists e, toString host (get answer "verdict") = Thrown e))
  /\ forall e,
      fst (conflictAnalyzer host q answer st) = Thrown e ->
      callsMade (conflictAnalyzer host q answer) st = []
      /\ agentLog (snd (conflictAnalyzer host q answer st))
         = (agentLog st ++ [conflictStart])%list.
Proof.
  unfold callsMade.
  destruct (toString host (get answer "correctAnswer")) as [a|e1] eqn:A.
  - destruct (toString host (get answer "verdict")) as [v|e2] eqn:V.
    + destruct (@conflictAnalyzer_run q answer st a v A V) as (r & s' & R).
      rewrite R. cbn [fst]. split.
      * split; [intros [e E]; discriminate E|].
        intros [[e E] | [e E]]; discriminate E.
      * intros e E. discriminate E.
    + rewrite (@conflictAnalyzer_fail q answer st e2)
        by (right; split; [eauto | exact V]).
      cbn [fst snd push calls agentLog]. split.
      * split; eauto.
      * intros e _. now rewrite List.skipn_all.
  - rewrite (@conflictAnalyzer_fail q answer st e1) by (left; exact A).
    cbn [fst snd push calls agentLog]. split.
    + split; eauto.
    + intros e _. now rewrite List.skipn_all.
Qed.
Lemma step3_aborts q plan agentSet answer hasConflict st e s :
  has agentSet "conflict_analyzer" || hasConflict = true ->
  conflictAnalyzer host q answer st = (Thrown e, s) ->
  exists s',
    step3 host q plan agentSet (Some answer) hasConflict st = (Thrown e, s').
Proof.
  intros C F. unfold step3. rewrite C.
  assert (R : settle (runIf true (conflictAnalyzer host q answer)) st
              = (Returned (Thrown e), s)).
  { unfold settle, runIf. erewrite bind_thrown by exact F. reflexivity. }
  erewrite bind_run by exact R.
  erewrite bind_run by apply settle_run.
  erewrite bind_run by apply settle_run.
  erewrite bind_run by apply settle_run.
  eexists. apply bind_thrown. reflexivity.
Qed.

Lemma reviewQuestion_aborted q st e s :
  reviewBody host q (Date_now host (calls st)) (startState st)
  = (Thrown e, s) ->
  exists st',
    reviewQuestion host q st
    = (Returned (systemError q (agentLog s ++ [systemErrorLine e])%list e),
       st').
Proof.
  intros B. unfold reviewQuestion.
  erewrite bind_run by (unfold newLog; reflexivity).
  erewrite bind_run by (unfold now; reflexivity).
  erewrite tryCatch_thrown by exact B.
  eexists. reflexivity.
Qed.

(** X9: a verdict of the Answer Verifier that cannot be rendered as text
    aborts the whole review when the Conflict Analyzer is due: the review
    ends with status error and the message of the conversion error,
    although every agent catches the failures of its own call. *)
Theorem unrenderable_verdict_aborts q st plan agentSet s1 st2 answer e :
  Stage1Done host q st plan agentSet s1 st2 ->
  answerResult s1 = Some answer ->
  has agentSet "conflict_analyzer" || detectConflict q (Some answer) = true ->
  toString host (get answer "verdict") = Thrown e ->
  exists r st',
    reviewQuestion host q st = (Returned r, st')
    /\ Review.status r = "error"
    /\ Review.needsHuman r = VBool true
    /\ Review.queries r
       = "⚠ SYSTEM ERROR — needs human review: " ++ message e
    /\ In (systemErrorLine e) (Review.agentLog r).
Proof.
  intros S A C V.
  assert (S' := S). destruct S' as (st1 & _ & S2).
  pose proof (step2_answer _ _ _ _ S2) as AV.
  assert (R : exists a, toString host (get answer "correctAnswer")
                        = Returned a).
  { destruct (has agentSet "answer_verifier").
    - destruct AV as (av & s & AV & E). rewrite A in E.
      injection E as ->. eapply answerVerifier_renders. exact AV.
    - rewrite A in AV. discriminate AV. }
  destruct (@step3_aborts q plan agentSet answer
              (detectConflict q (Some answer)) st2 e _ C
              (@conflictAnalyzer_fail q answer st2 e
                 (or_intror (conj R V)))) as [s3 S3].
  destruct (@reviewQuestion_aborted q st e s3) as [st' Q].
  { erewrite reviewBody_stage1 by exact S. rewrite A.
    apply bind_thrown. exact S3. }
  eexists. eexists. split; [exact Q|]. cbn.
  repeat split. apply in_or_app. right. now left.
Qed.
End AgentResults.

Lemma unrenderable_verdict_aborts_witness :
  exists r st',
    reviewQuestion Fixture2.odd Fixture.disputed Fixture.emptyState
    = (Returned r, st')
    /\ Review.status r = "error".
Proof.
  eassert (S : Stage1Done Fixture2.odd Fixture.disputed Fixture.emptyState
                 _ _ _ _) by stage1.
  destruct (@unrenderable_verdict_aborts Fixture2.odd Fixture.disputed
              Fixture.emptyState _ _ _ _ Fixture2.oddVerdict
              (TypeError "Cannot convert object to primitive value")
              S eq_refl eq_refl eq_refl)
    as (r & st' & Q & E & _).
  exists r, st'. split; assumption.
Defined.

Lemma answerVerifier_answer_renders_witness :
  exists r st',
    answerVerifier Fixture.offline Fixture.disputed Fixture.emptyState
    = (Returned r, st')
    /\ exists text,
        toString Fixture.offline (get r "correctAnswer") = Returned text.
Proof.
  eassert (H : answerVerifier Fixture.offline Fixture.disputed
                 Fixture.emptyState = (Returned _, _)) by run.
  eexists. eexists. split; [exact H|].
  exact (@answerVerifier_answer_renders _ _ _ _ _ H).
Defined.

(* ------------------------------------------------------------------------- *)
(** ** The query summary *)

Lemma prefix_unmarked part y : unmarked part -> prefix "⚠" (part ++ y) = false.
Proof.
  destruct part as [|c rest]; [contradiction|]. cbn [unmarked append prefix].
  intros H. destruct (ascii_dec _ c) as [E|_]; [|reflexivity].
  now subst c.
Qed.


Lemma concat_cons sep (p : string) rest :
  exists y, String.concat sep (p :: rest) = p ++ y.
Proof.
  destruct rest as [|p' rest]; cbn [String.concat].
  - exists "". now rewrite StrFacts.app_nil_r.
  - eauto.
Qed.


Lemma concat_In sep (p : string) parts :
  In p parts -> exists a b, String.concat sep parts = a ++ p ++ b.
Proof.
  induction parts as [|x rest IH]; [contradiction|].
  intros [-> | H].
  - destruct (concat_cons sep p rest) as [y E]. exists "", y. exact E.
  - destruct (IH H) as (a & b & E).
    destruct rest as [|x' rest']; [contradiction|].
    cbn [String.concat] in *. rewrite E.
    exists (x ++ sep ++ a), b. now rewrite !StrFacts.app_assoc.
Qed.

Lemma findLit_here i p s r :
  Str.matchLit i p s = Some r -> Str.findLit i p s = Some 0.
Proof. intros H. destruct s; cbn [Str.findLit]; now rewrite H. Qed.

Lemma includes_middle needle a b :
  Str.includes needle (a ++ needle ++ b) = true.
Proof.
  unfold Str.includes.
  induction a as [|c a IH]; cbn [append].
  - now rewrite (@findLit_here _ _ _ _ (StrFacts.matchLit_self false needle b)).
  - cbn [Str.findLit].
    destruct (Str.matchLit false needle (String c (a ++ needle ++ b)));
      [reflexivity|].
    destruct (Str.findLit false needle (a ++ needle ++ b));
      [reflexivity | discriminate IH].
Qed.

Section Summary.
Variable host : Host.

Lemma noted (cond : bool) v (f : string -> string) st l st' :
  (if cond then x <- str host v ;; ret [f x] else ret []) st
  = (Returned l, st') ->
  if cond then exists x, toString host v = Returned x /\ l = [f x]
  else l = [].
Proof.
  destruct cond; intros H.
  - peel H. apply str_Returned in E as [E _].
    apply ret_Returned in H as [-> _]. eauto.
  - now apply ret_Returned in H as [-> _].
Qed.

(** The entries of the summary, in the order of the [push] calls. *)
Lemma buildQueryParts_shape needsHuman hasConflict s1 s2 st parts st' :
  buildQueryParts host needsHuman hasConflict s1 s2 st
  = (Returned parts, st') ->
  exists human others,
    (if truthy needsHuman
     then exists reason, human = ["⚠ HUMAN REVIEW NEEDED: " ++ reason]
     else human = [])
    /\ Forall unmarked others
    /\ (unitResult s1 = None -> In unitNotice others)
    /\ parts = match (human ++ others)%list with
               | [] => ["c) Kept as is — all checks passed"]
               | l => l
               end.
Proof.
  unfold buildQueryParts. intros H. do 6 peel H.
  apply ret_Returned in H as [-> _].
  exists a, (a0 ++ a1 ++ a2 ++ a3 ++ a4)%list.
  split; [|split; [|split]].
  - apply noted with (f := fun x => "⚠ HUMAN REVIEW NEEDED: " ++ x) in E.
    destruct (truthy needsHuman); [|exact E].
    destruct E as (x & _ & ->). eauto.
  - rewrite !Forall_app. split; [|split; [|split; [|split]]].
    + destruct (conflictResult s2) as [c|];
        [destruct hasConflict|].
      * do 2 peel E0. apply ret_Returned in E0 as [-> _].
        repeat constructor. discriminate.
      * apply ret_Returned in E0 as [-> _]. constructor.
      * apply ret_Returned in E0 as [-> _]. constructor.
    + destruct (difficultyResult s1) as [d|].
      * apply noted with (f := fun x => "Difficulty: change to " ++ x) in E1.
        destruct (negb (truthy (get d "currentRatingCorrect")));
          [destruct E1 as (x & _ & ->)|subst a1];
          repeat constructor. discriminate.
      * apply ret_Returned in E1 as [-> _]. constructor.
    + apply noted
        with (f := fun x => "Unit mismatch: move to " ++ dq ++ x ++ dq) in E2.
      destruct (negb (truthy (opt (unitResult s1) "belongsInUnit")));
        [destruct E2 as (x & _ & ->)|subst a2];
        repeat constructor. discriminate.
    + apply noted with (f := fun x => "Explanation: " ++ x) in E3.
      destruct (isString "Needs Improvement"
                  (opt (explanationResult s2) "quality")
                || isString "Poor" (opt (explanationResult s2) "quality"));
        [destruct E3 as (x & _ & ->)|subst a3];
        repeat constructor. discriminate.
    + apply noted with (f := fun x => "Add calculation: " ++ x) in E4.
      destruct (truthy (opt (calcResult s2) "requiresCalculation"));
        [destruct E4 as (x & _ & ->)|subst a4];
        repeat constructor. discriminate.
  - intros U.
    apply noted
      with (f := fun x => "Unit mismatch: move to " ++ dq ++ x ++ dq) in E2.
    rewrite U in E2. cbn [opt truthy negb] in E2.
    destruct E2 as (x & X & ->). cbn [toString] in X. injection X as <-.
    apply in_or_app. right. apply in_or_app. right. now left.
  - now destruct (a ++ a0 ++ a1 ++ a2 ++ a3 ++ a4)%list.
Qed.

Lemma step4_queries q t0 plan s1 c s2 st r st' :
  step4 host q t0 plan s1 c s2 st = (Returned r, st') ->
  exists parts s s',
    buildQueryParts host
      (decideNeedsHuman (answerResult s1) (conflictResult s2)) c s1 s2 s
    = (Returned parts, s')
    /\ Review.queries r = String.concat " | " parts
    /\ Review.needsHuman r
       = decideNeedsHuman (answerResult s1) (conflictResult s2)
    /\ Review.unitMatch r = opt (unitResult s1) "belongsInUnit".
Proof.
  unfold step4. intros H.
  do 6 peel H. peel H.
  apply ret_Returned in H as [-> _].
  exists a2, s3, s4. cbn. repeat split. exact E2.
Qed.

Lemma reviewBody_queries q t0 st r st' :
  reviewBody host q t0 st = (Returned r, st') ->
  exists human others,
    (if truthy (Review.needsHuman r)
     then exists reason, human = ["⚠ HUMAN REVIEW NEEDED: " ++ reason]
     else human = [])
    /\ Forall unmarked others
    /\ Review.queries r
       = String.concat " | "
           match (human ++ others)%list with
           | [] => ["c) Kept as is — all checks passed"]
           | l => l
           end.
Proof.
  unfold reviewBody. intros H. do 4 peel H.
  apply step4_queries in H as (parts & s' & s'' & B & Q & N & _).
  apply buildQueryParts_shape in B as (human & others & Hh & Ho & _ & ->).
  exists human, others. rewrite N, Q. auto.
Qed.


(** X11: the summary opens with the warning sign exactly when the review
    asks for a human: every returned review, completed or failed, has
    [needsHuman] truthy if and only if its query summary starts with the
    sign. *)
Theorem human_flag_opens_queries q st r st' :
  reviewQuestion host q st = (Returned r, st') ->
  truthy (Review.needsHuman r) = true
  <-> prefix "⚠" (Review.queries r) = true.
Proof.
  intros H.
  apply reviewQuestion_cases in H as [H | (e & s & _ & -> & _)].
  - apply reviewBody_queries in H as (human & others & Hh & Ho & ->).
    destruct (truthy (Review.needsHuman r)).
    + destruct Hh as [reason ->]. cbn [List.app].
      destruct (concat_cons " | " ("⚠ HUMAN REVIEW NEEDED: " ++ reason)
                  others) as [y ->].
      split; reflexivity.
    + subst human. cbn [List.app].
      destruct others as [|p rest].
      * split; discriminate.
      * destruct (concat_cons " | " p rest) as [y ->].
        rewrite prefix_unmarked by now inversion Ho.
        split; discriminate.
  - split; reflexivity.
Qed.
End Summary.

Lemma human_flag_opens_queries_witness :
  exists r st',
    reviewQuestion Fixture.offline Fixture.disputed Fixture.emptyState
    = (Returned r, st')
    /\ (truthy (Review.needsHuman r) = true
        <-> prefix "⚠" (Review.queries r) = true).
Proof.
  eassert (H : reviewQuestion Fixture.offline Fixture.disputed
                 Fixture.emptyState = (Returned _, _)) by run.
  eexists. eexists. split; [exact H|].
  exact (@human_flag_opens_queries _ _ _ _ _ H).
Defined.

Section UncheckedUnit.
Variable host : Host.

Lemma step2_unit q agentSet st s1 st' :
  step2 host q agentSet st = (Returned s1, st') ->
  has agentSet "unit_checker" = false ->
  unitResult s1 = None.
Proof.
  unfold step2. intros H U. do 4 peel H.
  apply ret_Returned in H as [-> _]. cbn [unitResult].
  apply lift_Returned in E2 as [E2 _].
  apply both_Returned in E2 as [_ E2].
  apply both_Returned in E2 as [_ E2]. subst a1.
  apply settle_Returned in E1. rewrite U in E1. unfold runIf in E1.
  apply ret_Returned in E1 as [E1 _]. now symmetry.
Qed.

(** X12: a completed review whose plan leaves the Unit Checker out still
    reports a unit mismatch: the summary holds the entry that asks to move
    the question to the unit named undefined, while [unitMatch] itself is
    undefined. *)
Theorem unchecked_unit_reported q st plan agentSet s1 st2 r st' :
  Stage1Done host q st plan agentSet s1 st2 ->
  has agentSet "unit_checker" = false ->
  reviewQuestion host q st = (Returned r, st') ->
  Review.status r = "done" ->
  Str.includes unitNotice (Review.queries r) = true
  /\ Review.unitMatch r = VUndefined.
Proof.
  intros S U H D.
  assert (N : unitResult s1 = None).
  { destruct S as (st1 & _ & S2). eapply step2_unit; eassumption. }
  destruct (review_done S H D) as (s2 & st3 & _ & F).
  apply step4_queries in F as (parts & s & s' & B & Q & _ & M).
  rewrite M, N. split; [|reflexivity].
  apply buildQueryParts_shape in B as (human & others & _ & _ & I & ->).
  specialize (I N).
  assert (J : In unitNotice (human ++ others)%list)
    by (apply in_or_app; now right).
  destruct (human ++ others)%list as [|p rest]; [contradiction|].
  destruct (concat_In " | " _ _ J) as (a & b & E).
  rewrite Q, E. apply includes_middle.
Qed.
End UncheckedUnit.

Lemma unchecked_unit_reported_witness :
  exists r st',
    reviewQuestion Fixture.ratingOnly Fixture.settled Fixture.emptyState
    = (Returned r, st')
    /\ Str.includes unitNotice (Review.queries r) = true
    /\ Review.unitMatch r = VUndefined.
Proof.
  eassert (S : Stage1Done Fixture.ratingOnly Fixture.settled
                 Fixture.emptyState _ _ _ _) by stage1.
  eassert (H : reviewQuestion Fixture.ratingOnly Fixture.settled
                 Fixture.emptyState = (Returned _, _)) by run.
  eexists. eexists. split; [exact H|].
  exact (@unchecked_unit_reported _ _ _ _ _ _ _ _ _ S eq_refl H eq_refl).
Defined.

(* ------------------------------------------------------------------------- *)
(** ** The event stream of the batch endpoint *)

Section StreamFacts.
Variable World : Type.
Variable review : Question.t -> World -> outcome Review.t * World.
Import Server.

Lemma send_lines_sent i (lines : list string) (c : Conn World) :
  sent (fold_left (fun c line => sendEvent (log i line) c) lines c)
  = (sent c ++ map (fun line => Send (log i line)) lines)%list.
Proof.
  revert c. induction lines as [|l lines IH]; intros c; cbn [fold_left map].
  - now rewrite List.app_nil_r.
  - rewrite IH. cbn [sendEvent sent]. now rewrite <- List.app_assoc.
Qed.

(** What one turn of the loop sends. *)
Lemma iteration_sent total i q (c : Conn World) :
  sent (iteration review total i q c)
  = (sent c ++ questionEvents i q (fst (review q (world c)))
       ++ if (i <? total - 1)%nat then [Sleep 400] else [])%list.
Proof.
  unfold iteration, questionEvents.
  cbn [sendEvent world sent results].
  destruct (review q (world c)) as [[r|e] w]; cbn [fst];
    destruct (i <? total - 1)%nat;
    cbn [sleep pushResult sendEvent sent world results];
    rewrite ?send_lines_sent; cbn [pushResult sent];
    repeat (rewrite <- List.app_assoc; cbn [List.app]);
    rewrite ?List.app_nil_r; reflexivity.
Qed.

Lemma pauses_app a b : pauses (a ++ b) = (pauses a ++ pauses b)%list.
Proof. apply flat_map_app. Qed.

Lemma pauses_questionEvents i q o : pauses (questionEvents i q o) = [].
Proof.
  unfold questionEvents. destruct o as [r|e]; [|reflexivity].
  cbn [pauses flat_map List.app]. fold (pauses).
  change (flat_map _ ?l) with (pauses l).
  rewrite pauses_app. cbn [pauses flat_map List.app].
  rewrite List.app_nil_r.
  induction (Review.agentLog r) as [|l ls IH]; [reflexivity|exact IH].
Qed.

Lemma loop_pauses total i questions (c : Conn World) :
  i + List.length questions = total ->
  pauses (sent (loop review total i questions c))
  = (pauses (sent c) ++ repeat 400 (List.length questions - 1))%list.
Proof.
  revert i c. induction questions as [|q rest IH]; intros i c T.
  - cbn. now rewrite List.app_nil_r.
  - cbn [loop]. rewrite IH by (cbn [List.length] in T; lia).
    rewrite iteration_sent, !pauses_app, pauses_questionEvents.
    cbn [List.app List.length]. rewrite <- List.app_assoc. f_equal.
    destruct rest as [|q' rest'].
    + cbn [List.length] in *.
      replace (i <? total - 1)%nat with false
        by (symmetry; apply Nat.ltb_ge; lia).
      reflexivity.
    + cbn [List.length] in *.
      replace (i <? total - 1)%nat with true
        by (symmetry; apply Nat.ltb_lt; lia).
      cbn. now rewrite Nat.sub_0_r.
Qed.

Lemma loop_last total i questions (c : Conn World) :
  questions <> [] -> i + List.length questions = total ->
  exists before e, sent (loop review total i questions c)
                   = (before ++ [Send e])%list.
Proof.
  revert i c. induction questions as [|q rest IH]; intros i c N T;
    [congruence|].
  cbn [loop]. destruct rest as [|q' rest'].
  - cbn [loop]. rewrite iteration_sent.
    cbn [List.length] in T.
    replace (i <? total - 1)%nat with false
      by (symmetry; apply Nat.ltb_ge; lia).
    rewrite List.app_nil_r. unfold questionEvents.
    destruct (fst (review q (world c))) as [r|e].
    + exists (sent c
              ++ Send (progress i (Question.code q)
                         (substring 0 80 (Question.question q)))
              :: map (fun line => Send (log i line)) (Review.agentLog r))%list,
        (question_done i r).
      now rewrite <- List.app_assoc.
    + exists (sent c
              ++ [Send (progress i (Question.code q)
                          (substring 0 80 (Question.question q)))])%list,
        (question_error i (message e)).
      now rewrite <- List.app_assoc.
  - apply IH; [discriminate | cbn [List.length] in *; lia].
Qed.

Lemma reviewAll_run questions w :
  questions <> [] ->
  let total := List.length questions in
  let c := loop review total 0 questions
             (sendEvent (start total)
                {| world := w; sent := []; results := [] |}) in
  reviewAll review questions w
  = (EventStream (sent c ++ [Send (complete total (results c))])%list,
     results c, world c).
Proof. destruct questions; [congruence | reflexivity]. Qed.

(** X13: the batch endpoint pauses between questions only: a batch of
    [n] questions holds exactly [n - 1] pauses, each of 400 ms, and what
    precedes the closing [complete] event is an event of the last
    question, not a pause. *)
Theorem batch_pauses questions w effects results w' :
  reviewAll review questions w = (EventStream effects, results, w') ->
  pauses effects = repeat 400 (List.length questions - 1)
  /\ exists before e,
      effects
      = (before ++ [Send e; Send (complete (List.length questions) results)])%list.
Proof.
  intros H.
  assert (N : questions <> []) by (destruct questions; discriminate).
  rewrite (reviewAll_run w N) in H. cbv zeta in H.
  injection H as <- <- _. split.
  - rewrite pauses_app, loop_pauses by reflexivity.
    cbn [sendEvent sent pauses flat_map List.app].
    now rewrite List.app_nil_r.
  - destruct (@loop_last (List.length questions) 0 questions
                (sendEvent (start (List.length questions))
                   {| world := w; sent := []; results := [] |}) N eq_refl)
      as (before & e & E).
    exists before, e. rewrite E. now rewrite <- List.app_assoc.
Qed.

Hypothesis review_returns :
  forall q w, exists r w', review q w = (Returned r, w').

Lemma loop_reviewed total i questions (c : Conn World) :
  forallb isReviewed (results c) = true ->
  existsb isQuestionError (sent c) = false ->
  forallb isReviewed (results (loop review total i questions c)) = true
  /\ existsb isQuestionError (sent (loop review total i questions c)) = false.
Proof.
  revert i c. induction questions as [|q rest IH]; intros i c R S;
    [now split|].
  cbn [loop]. apply IH.
  - destruct (iteration_step review total i q c) as [_ ->].
    rewrite forallb_app, R.
    destruct (review_returns q (world c)) as (r & w' & ->). reflexivity.
  - rewrite iteration_sent, !existsb_app, S.
    destruct (review_returns q (world c)) as (r & w' & ->).
    cbn [fst questionEvents existsb isQuestionError orb].
    rewrite existsb_app. cbn [existsb isQuestionError orb].
    rewrite orb_false_r.
    replace (existsb isQuestionError
               (if (i <? total - 1)%nat then [Sleep 400] else []))
      with false by now destruct (i <? total - 1)%nat.
    rewrite orb_false_r.
    induction (Review.agentLog r) as [|l ls IHl]; [reflexivity|exact IHl].
Qed.

Lemma reviewAll_reviewed questions w :
  forallb isReviewed (snd (fst (reviewAll review questions w))) = true
  /\ match fst (fst (reviewAll review questions w)) with
     | EventStream effects => existsb isQuestionError effects = false
     | BadRequest _ => questions = []
     end.
Proof.
  unfold reviewAll. destruct questions as [|q0 rest]; [now split|].
  cbn [fst snd sendEvent sent results].
  destruct (@loop_reviewed (List.length (q0 :: rest)) 0 (q0 :: rest)
              (sendEvent (start (List.length (q0 :: rest)))
                 {| world := w; sent := []; results := [] |})
              eq_refl eq_refl) as [R S].
  split; [exact R|].
  rewrite existsb_app, S. reflexivity.
Qed.
End StreamFacts.

Lemma batch_pauses_witness :
  exists effects results st',
    Server.reviewAll (reviewQuestion Fixture.offline)
      [Fixture.settled; Fixture.disputed] Fixture.emptyState
    = (Server.EventStream effects, results, st')
    /\ pauses effects = [400].
Proof.
  eassert (H : Server.reviewAll (reviewQuestion Fixture.offline)
                 [Fixture.settled; Fixture.disputed] Fixture.emptyState
               = (Server.EventStream _, _, _)) by run.
  eexists. eexists. eexists. split; [exact H|].
  exact (proj1 (@batch_pauses _ _ _ _ _ _ _ H)).
Defined.

(** X14: with the pipeline's own [reviewQuestion] the batch endpoint never
    takes its [catch] branch: every element of [results] is a review, and
    no [question-error] event is sent. *)
Theorem batch_never_fails host questions st :
  forallb isReviewed
    (snd (fst (Server.reviewAll (reviewQuestion host) questions st))) = true
  /\ match fst (fst (Server.reviewAll (reviewQuestion host) questions st)) with
     | Server.EventStream effects => existsb isQuestionError effects = false
     | Server.BadRequest _ => questions = []
     end.
Proof.
  apply reviewAll_reviewed. intros q w. apply reviewQuestion_total.
Qed.

(* ------------------------------------------------------------------------- *)
(** ** The single-question endpoint *)

Lemma send_lines_log (lines : list string) (sent : list Api.Event) :
  fold_left (fun sent line => Api.sendEvent (Api.log line) sent) lines sent
  = (sent ++ map Api.log lines)%list.
Proof.
  revert sent. induction lines as [|l lines IH]; intros sent;
    cbn [fold_left map].
  - now rewrite List.app_nil_r.
  - rewrite IH. unfold Api.sendEvent. now rewrite <- List.app_assoc.
Qed.

(** X15: the single-question endpoint, run with the pipeline's own
    [reviewQuestion], never sends an [error] event: it streams one [log]
    event per line of the review's log, in order, then the [result] event
    with the review, then [done]. *)
Theorem review_endpoint_stream host q st :
  exists r st',
    reviewQuestion host q st = (Returned r, st')
    /\ Api.reviewOne (reviewQuestion host) (Some q) st
       = (Api.EventStream
            (map Api.log (Review.agentLog r) ++ [Api.result r; Api.done]),
          st').
Proof.
  destruct (reviewQuestion_total host q st) as (r & st' & H).
  exists r, st'. split; [exact H|].
  unfold Api.reviewOne. rewrite H. rewrite send_lines_log.
  unfold Api.sendEvent. cbn [List.app].
  now rewrite <- List.app_assoc.
Qed.

(* ------------------------------------------------------------------------- *)
(** ** Rows of an upload *)

Section RowFacts.
Variable toLowerCase : string -> string.

Lemma trimmed_trim s : trimmed (Str.trim s).
Proof. apply TrimFacts.trim_trimmed. Qed.

Lemma trimmed_empty : trimmed "".
Proof. split; reflexivity. Qed.

Lemma get_trimmed row aliases :
  trimmed (Normalize.get toLowerCase row aliases).
Proof.
  induction aliases as [|alias rest IH]; cbn [Normalize.get];
    [exact trimmed_empty|].
  destruct (find _ _) as [k|]; [|exact IH].
  destruct (String.eqb k ""); [exact IH | apply trimmed_trim].
Qed.

(** X16: every field of a normalised row is trimmed: it neither starts
    nor ends with white space, whatever the column names and cells of the
    record are. *)
Theorem normalizeRow_trimmed row :
  Forall trimmed (fieldsOf (Normalize.normalizeRow toLowerCase row)).
Proof.
  unfold fieldsOf, Normalize.normalizeRow.
  cbn [Question.code Question.chapter Question.unit Question.question
       Question.optionA Question.optionB Question.optionC Question.optionD
       Question.rightOption Question.feedback Question.aiAnswer
       Question.finalAnswer Question.finalExplanation Question.difficulty
       Question.category Question.queries].
  repeat (apply Forall_cons; [apply get_trimmed|]). apply Forall_nil.
Qed.

(** X17: the parse endpoint never returns a question without text.  Each
    question it returns is the normalised form of one of the records, with
    a question text that is not empty and is trimmed; [count] is their
    number, at most the number of records. *)
Theorem parsed_questions records :
  let questions := fst (Normalize.parsed toLowerCase records) in
  snd (Normalize.parsed toLowerCase records) = List.length questions
  /\ List.length questions <= List.length records
  /\ Forall (fun q =>
               Question.question q <> ""
               /\ trimmed (Question.question q)
               /\ exists row,
                   In row records
                   /\ q = Normalize.normalizeRow toLowerCase row)
            questions.
Proof.
  cbv zeta. unfold Normalize.parsed. cbn [fst snd].
  split; [reflexivity|]. split.
  - etransitivity; [apply List.filter_length_le|].
    now rewrite List.length_map.
  - apply Forall_forall. intros q Hq.
    apply filter_In in Hq as [I N].
    apply in_map_iff in I as (row & <- & I).
    split; [|split].
    + intros E. rewrite E in N. discriminate N.
    + apply get_trimmed.
    + eauto.
Qed.
End RowFacts.

(* ------------------------------------------------------------------------- *)
(** ** The export endpoint *)

Section ExportFacts.
Variable host : Host.
Import Exporter.

Lemma lookup_assign m key r i :
  key <> "__proto__" ->
  lookup (assign m key r) i
  = if String.eqb key (natToString i) then r else lookup m i.
Proof.
  intros N. unfold assign.
  apply String.eqb_neq in N. rewrite N. cbn [andb].
  unfold lookup. cbn [own proto hasOwn existsb fst get].
  destruct (String.eqb key (natToString i)); reflexivity.
Qed.

Lemma fill_step r rest m m' :
  fill host (r :: rest) m = Returned m' ->
  exists key,
    indexKey host r = Returned key
    /\ fill host rest (assign m key r) = Returned m'.
Proof.
  unfold indexKey. cbn [fill].
  destruct r; try discriminate;
    (destruct (toString host _) as [key|e]; [eauto | discriminate]).
Qed.

(** Where [resultMap[i]] comes from. *)
Lemma fill_lookup results m m' i :
  fill host results m = Returned m' ->
  ordinaryKeys host results ->
  lookup m' i = match latest host i results with
                | Some r => r
                | None => lookup m i
                end.
Proof.
  revert m. induction results as [|r rest IH]; intros m F O.
  - cbn in F. injection F as <-. reflexivity.
  - apply fill_step in F as (key & K & F).
    inversion O as [|? ? Or Orest]; subst.
    rewrite (IH _ F Orest). cbn [latest].
    destruct (latest host i rest); [reflexivity|].
    rewrite K, lookup_assign by (intros ->; now apply Or).
    now destruct (String.eqb key (natToString i)).
Qed.

Lemma rows_nth m j questions rs k q :
  rows host m j questions = Returned rs ->
  nth_error questions k = Some q ->
  exists cells,
    nth_error rs k = Some cells
    /\ row host q (lookup m (j + k) ||| VObject []) = Returned cells.
Proof.
  revert j rs k. induction questions as [|q0 rest IH]; intros j rs k R N.
  - destruct k; discriminate N.
  - cbn [rows] in R.
    destruct (row host q0 (lookup m j ||| VObject [])) as [c|e] eqn:C;
      [|discriminate].
    destruct (rows host m (S j) rest) as [rs'|e] eqn:R'; [|discriminate].
    injection R as <-. destruct k as [|k].
    + injection N as <-. exists c. rewrite Nat.add_0_r. now split.
    + cbn [nth_error] in *.
      destruct (IH _ _ _ R' N) as (cells & E & W).
      exists cells. split; [exact E|].
      now replace (j + S k) with (S j + k) by lia.
Qed.

Lemma rows_length m j questions rs :
  rows host m j questions = Returned rs ->
  List.length rs = List.length questions.
Proof.
  revert j rs. induction questions as [|q0 rest IH]; intros j rs R.
  - injection R as <-. reflexivity.
  - cbn [rows] in R.
    destruct (row host q0 _); [|discriminate].
    destruct (rows host m (S j) rest) as [rs'|e] eqn:R'; [|discriminate].
    injection R as <-. cbn [List.length]. f_equal. eapply IH, R'.
Qed.

Lemma export_run questions results rs :
  export host questions (Some results) = Returned (Csv rs) ->
  exists m,
    fill host results emptyMap = Returned m
    /\ rows host m 0 questions = Returned rs.
Proof.
  unfold export. destruct questions as [|q0 rest]; [discriminate|].
  destruct (fill host results emptyMap) as [m|e]; [|discriminate].
  destruct (rows host m 0 (q0 :: rest)) as [rs'|e] eqn:R; [|discriminate].
  intros H. injection H as <-. eauto.
Qed.

Lemma export_row questions results rs i q :
  export host questions (Some results) = Returned (Csv rs) ->
  ordinaryKeys host results ->
  nth_error questions i = Some q ->
  exists cells,
    nth_error rs i = Some cells
    /\ row host q (match latest host i results with
                   | Some r => r
                   | None => VUndefined
                   end ||| VObject [])
       = Returned cells.
Proof.
  intros E O N. apply export_run in E as (m & F & R).
  destruct (@rows_nth _ _ _ _ _ _ R N) as (cells & C & W).
  exists cells. split; [exact C|].
  cbn [Nat.add] in W. now rewrite (@fill_lookup _ _ _ i F O) in W.
Qed.

(** X18: the export has one row per question, and the row of question
    [i] is built from the last element of [results] filed under the index
    [i], whatever the position of that element and however many results
    there are; earlier results for the same index are overridden. *)
Theorem export_uses_latest_result questions results rs :
  export host questions (Some results) = Returned (Csv rs) ->
  ordinaryKeys host results ->
  List.length rs = List.length questions
  /\ forall i q,
      nth_error questions i = Some q ->
      exists cells,
        nth_error rs i = Some cells
        /\ row host q (match latest host i results with
                       | Some r => r
                       | None => VUndefined
                       end ||| VObject [])
           = Returned cells.
Proof.
  intros E O. split.
  - destruct (@export_run _ _ _ E) as (m & _ & R). eapply rows_length, R.
  - intros i q N. eapply export_row; eassumption.
Qed.



(** X20: the export marks the unit as matching unless the result says
    exactly [false]: a result without [unitMatch], as for a review whose
    unit was not checked or one that failed, is exported as Unit Match
    Yes. *)
Theorem export_unit_match q r cells :
  row host q r = Returned cells ->
  get cells "Unit Match" = VString "Yes"
  <-> prop r "unitMatch" <> VBool false.
Proof.
  unfold row.
  destruct (prop r "unitMatch") as [| |[|]| | | |];
    try (intros H; injection H as <-; cbn; split;
         [discriminate || (intros _; discriminate) | reflexivity]).
  destruct (toString host (prop r "suggestedUnit")) as [unit|e];
    [|discriminate].
  intros H. injection H as <-. cbn. split; [discriminate | congruence].
Qed.
End ExportFacts.

Lemma export_uses_latest_result_witness :
  exists rs,
Exporter.export Fixture.offline [Fixture.settled]
  (Some [VObject [("index", VNumber 0%float)]; Fixture3.flagged])
= Returned (Exporter.Csv rs)
/\ List.length rs = 1.
Proof.
  eassert (E : Exporter.export Fixture.offline [Fixture.settled]
                 (Some [VObject [("index", VNumber 0%float)];
                        Fixture3.flagged])
               = Returned (Exporter.Csv _)) by (vm_compute; reflexivity).
  eexists. split; [exact E|].
  refine (proj1 (@export_uses_latest_result _ _ _ _ E _)).
  repeat constructor; discriminate.
Defined.


Lemma export_unit_match_witness :
  exists cells,
Exporter.row Fixture.offline Fixture.settled Fixture3.flagged
= Returned cells
/\ (get cells "Unit Match" = VString "Yes"
    <-> Exporter.prop Fixture3.flagged "unitMatch" <> VBool false).
Proof.
  eassert (E : Exporter.row Fixture.offline Fixture.settled Fixture3.flagged
               = Returned _) by (vm_compute; reflexivity).
  eexists. split; [exact E|].
  exact (@export_unit_match _ _ _ _ E).
Defined.

(* ------------------------------------------------------------------------- *)
(** ** Degraded results *)

Section Degraded.
Variable host : Host.

Lemma callLLM_log c st : agentLog (snd (callLLM host c st)) = agentLog st.
Proof.
  unfold callLLM.
  destruct (getKey host (provider c)) as [k|]; [|reflexivity].
  destruct (String.eqb k "" || Str.includes "your_" k); [reflexivity|].
  now destruct (fetch host _ _).
Qed.

Lemma pair_fst {A B} (x : A * B) a : fst x = a -> x = (a, snd x).
Proof. destruct x. cbn. now intros ->. Qed.

Lemma guarded_run {A} start c (K : string -> M A) (H : exn -> M A) st e :
  fst (callLLM host c (snd (push start st))) = Thrown e ->
  bind (push start) (fun _ => tryCatch (bind (callLLM host c) K) H) st
  = H e (snd (callLLM host c (snd (push start st)))).
Proof.
  intros E. erewrite bind_run by apply push_run.
  erewrite tryCatch_thrown
    by (apply bind_thrown; apply pair_fst; exact E).
  reflexivity.
Qed.

(** The outcome of a call depends on the requests sent so far, not on
    the log. *)
Lemma callLLM_after_push c line st :
  fst (callLLM host c (snd (push line st))) = fst (callLLM host c st).
Proof.
  unfold callLLM. cbn [push snd agentLog console calls requests].
  destruct (getKey host (provider c)) as [k|]; [|reflexivity].
  destruct (String.eqb k "" || Str.includes "your_" k); [reflexivity|].
  now destruct (fetch host (requests st) (request k c)).
Qed.

Lemma callLLM_after_console c line st :
  fst (callLLM host c (snd (console_log line st)))
  = fst (callLLM host c st).
Proof.
  unfold callLLM. cbn [console_log snd agentLog console calls requests].
  destruct (getKey host (provider c)) as [k|]; [|reflexivity].
  destruct (String.eqb k "" || Str.includes "your_" k); [reflexivity|].
  now destruct (fetch host (requests st) (request k c)).
Qed.

(** An agent of the common shape, when its one call fails. *)
Lemma guarded_failure {A} start c (K : string -> M A) failed (d : A) st e :
  failsWith host c st e ->
  degraded
    (bind (push start)
          (fun _ => tryCatch (bind (callLLM host c) K)
                             (fun e => bind (push (failed ++ message e))
                                            (fun _ => ret d))))
    st start failed e d.
Proof.
  unfold failsWith, degraded. intros E.
  rewrite <- (callLLM_after_push c start st) in E.
  erewrite guarded_run by exact E.
  erewrite bind_run by apply push_run. cbn [ret fst snd push agentLog].
  rewrite callLLM_log. cbn [push snd agentLog].
  split; [reflexivity|]. now rewrite <- List.app_assoc.
Qed.

Lemma orchestrate_degraded q st e :
  failsWith host (call (PlanPrompt q) groq fast defaultTemperature) st e ->
  degraded (orchestrate host q) st (openingLine q)
           "⚠ Orchestrator fallback to default plan: " e (defaultPlan q).
Proof.
  unfold failsWith, degraded. intros H.
  rewrite <- (callLLM_after_push _ (openingLine q) st) in H.
  rewrite <- (callLLM_after_console _ (openingLine q)) in H.
  unfold orchestrate, llm. fold (openingLine q).
  erewrite bind_run
    by (erewrite bind_run by apply push_run; reflexivity).
  erewrite tryCatch_thrown
    by (apply bind_thrown; apply pair_fst; exact H).
  erewrite bind_run
    by (erewrite bind_run by apply push_run; reflexivity).
  cbn [ret fst snd push console_log agentLog].
  rewrite callLLM_log. cbn [push console_log snd agentLog].
  split; [reflexivity|]. now rewrite <- List.app_assoc.
Qed.

(** X21: an agent with a single call whose call is rejected logs its
    first line, then its failure line with the message of that very
    rejection, and returns its fixed default; the Orchestrator does so
    with its fallback line and the default plan. *)
Theorem degraded_defaults q st e :
  (failsWith host (call (PlanPrompt q) groq fast defaultTemperature) st e ->
   degraded (orchestrate host q) st (openingLine q)
            "⚠ Orchestrator fallback to default plan: " e (defaultPlan q))
  /\ (failsWith host (call (DifficultyPrompt q) groq fast defaultTemperature)
                st e ->
      degraded (difficultyRater host q) st difficultyStart
               "⚠ Difficulty Rater failed: " e (difficultyDefault q))
  /\ (failsWith host (call (UnitPrompt q) groq fast defaultTemperature)
                st e ->
      degraded (unitChecker host q) st
               "📂 Unit Checker: Verifying unit placement..."
               "⚠ Unit Checker failed: " e (unitDefault q))
  /\ (failsWith host (call (MemoryPrompt q) groq fast creativeTemperature)
                st e ->
      degraded (memoryTrickGenerator host q) st
               "💡 Memory Trick Generator: Creating mnemonic..."
               "⚠ Memory Trick Generator failed: " e memoryDefault)
  /\ (failsWith host (call (CalculationPrompt q) groq fast defaultTemperature)
                st e ->
      degraded (calculationChecker host q) st calculationStart
               "⚠ Calculation Checker failed: " e calculationDefault)
  /\ (orElse (Question.finalExplanation q) (Question.feedback q) <> "" ->
      failsWith host
        (call (ExplanationPrompt q
                 (orElse (Question.finalExplanation q) (Question.feedback q)))
              groq smart defaultTemperature) st e ->
      degraded (explanationCritic host q) st explanationStart
               "⚠ Explanation Critic failed: " e explanationDefault).
Proof.
  split; [apply orchestrate_degraded|].
  split; [intros H; apply guarded_failure; exact H|].
  split; [intros H; apply guarded_failure; exact H|].
  split; [intros H; apply guarded_failure; exact H|].
  split; [intros H; apply guarded_failure; exact H|].
  intros N H. unfold explanationCritic.
  assert (E : orElse (orElse (Question.finalExplanation q)
                             (Question.feedback q)) ""
              = orElse (Question.finalExplanation q) (Question.feedback q)).
  { unfold orElse at 1.
    destruct (String.eqb (orElse _ _) "") eqn:Z; [|reflexivity].
    apply String.eqb_eq in Z. now rewrite Z. }
  rewrite E.
  replace (String.eqb (orElse (Question.finalExplanation q)
                              (Question.feedback q)) "")
    with false by (symmetry; now apply String.eqb_neq).
  apply guarded_failure. exact H.
Qed.
End Degraded.

Lemma degraded_defaults_witness :
  degraded (difficultyRater Fixture.offline Fixture.disputed)
           Fixture.emptyState difficultyStart
           "⚠ Difficulty Rater failed: " (missingKey groq)
           (difficultyDefault Fixture.disputed).
Proof.
  apply (proj1 (proj2 (@degraded_defaults Fixture.offline Fixture.disputed
                         Fixture.emptyState (missingKey groq)))).
  reflexivity.
Defined.

(* ------------------------------------------------------------------------- *)
(** ** The frame of the log *)

Ltac grows :=
  repeat lazymatch goal with
    | |- effect _ _ (ret _) => apply effect_ret
    | |- effect _ _ (lift _) => apply effect_lift
    | |- effect _ _ readLog => apply effect_readLog
    | |- effect _ _ (str _ _) => apply effect_str
    | |- effect _ _ (now _) => apply effect_now
    | |- effect _ _ (llm _ _ _ _ _) => apply effect_llm
    | |- effect _ _ (console_log _) => apply effect_console_log
    | |- effect _ _ (push _) => apply effect_push; exact I
    | |- effect _ _ (settle _) => apply effect_settle
    | |- effect _ _ (runIf _ _) => apply effect_runIf
    | |- effect _ _ (tryCatch _ _) => apply effect_tryCatch; [|intros ?]
    | |- effect _ _ (bind _ _) => apply effect_bind; [|intros ?]
    | |- effect _ _ (if _ then _ else _) => apply effect_if
    end.

Section LogFrame.
Variable host : Host.

Lemma any_line line : conflictLine line = false -> anyLine line.
Proof. intros _. exact I. Qed.

Lemma adds_log P n st st' :
  adds P n st st' -> exists lines, agentLog st' = (agentLog st ++ lines)%list.
Proof. intros (lines & cs & L & _). eauto. Qed.

Lemma orchestrate_first q st :
  exists lines,
    agentLog (snd (orchestrate host q st))
    = (agentLog st ++ openingLine q :: lines)%list.
Proof.
  unfold orchestrate. fold (openingLine q).
  erewrite bind_run
    by (erewrite bind_run by apply push_run; reflexivity).
  match goal with
  | |- context [tryCatch ?m ?h ?s] =>
      assert (E : effect anyLine 1 (tryCatch m h))
        by (eapply effect_weaken; [grows | simpl; lia]);
      destruct (adds_log (E s)) as [lines L]
  end.
  exists lines. rewrite L. cbn [console_log push snd agentLog].
  now rewrite <- List.app_assoc.
Qed.

Lemma effect_step3 q plan agentSet answer hasConflict :
  effect anyLine 4 (step3 host q plan agentSet answer hasConflict).
Proof.
  eapply effect_weaken.
  - unfold step3.
    apply effect_bind; [apply effect_settle|intros ?].
    { destruct answer as [a|];
        [apply effect_runIf, effect_conflictAnalyzer|].
      eapply effect_weaken; [apply effect_ret | apply Nat.le_0_l]. }
    apply effect_bind;
      [apply effect_settle, effect_runIf,
         (@effect_explanationCritic host anyLine any_line)|intros ?].
    apply effect_bind;
      [apply effect_settle, effect_runIf,
         (@effect_memoryTrickGenerator host anyLine any_line)|intros ?].
    apply effect_bind;
      [apply effect_settle, effect_runIf,
         (@effect_calculationChecker host anyLine any_line)|intros ?].
    grows.
  - simpl; lia.
Qed.

Lemma reviewBody_first q t0 st :
  exists rest,
    agentLog (snd (reviewBody host q t0 st))
    = (agentLog st ++ openingLine q :: rest)%list.
Proof.
  destruct (orchestrate_total host q st) as (plan & sA & O).
  destruct (orchestrate_first q st) as [l0 L0]. rewrite O in L0.
  cbn [snd] in L0.
  unfold reviewBody. erewrite bind_run by exact O.
  match goal with
  | |- context [bind ?m ?k sA] =>
      assert (E : effect anyLine (0 + (5 + (4 + 0))) (bind m k))
  end.
  { apply effect_bind; [apply effect_lift|intros ?].
    apply effect_bind; [apply (@effect_step2 host anyLine any_line)|intros ?].
    apply effect_bind; [apply effect_step3|intros ?].
    apply (@effect_step4 host anyLine any_line). }
  destruct (adds_log (E sA)) as [l1 L1].
  exists (l0 ++ l1)%list. rewrite L1, L0.
  now rewrite <- List.app_assoc.
Qed.

Lemma pure_ret {A} (a : A) : pure (ret a).
Proof. intros st. reflexivity. Qed.

Lemma pure_lift {A} (o : outcome A) : pure (lift o).
Proof. intros st. reflexivity. Qed.

Lemma pure_bind {A B} (m : M A) (k : A -> M B) :
  pure m -> (forall a, pure (k a)) -> pure (bind m k).
Proof.
  intros Hm Hk st. unfold bind. specialize (Hm st).
  destruct (m st) as [[a|e] s]; cbn [snd] in Hm; subst s;
    [apply Hk | reflexivity].
Qed.

Lemma buildQueryParts_pure needsHuman hasConflict s1 s2 :
  pure (buildQueryParts host needsHuman hasConflict s1 s2).
Proof.
  unfold buildQueryParts.
  repeat lazymatch goal with
    | |- pure (ret _) => apply pure_ret
    | |- pure (str _ _) => apply pure_lift
    | |- pure (bind _ _) => apply pure_bind; [|intros ?]
    | |- pure (if ?c then _ else _) => destruct c
    | |- pure (match ?x with Some _ => _ | None => _ end) => destruct x
    end.
Qed.

Lemma step4_log q t0 plan s1 c s2 st r st' :
  step4 host q t0 plan s1 c s2 st = (Returned r, st') ->
  exists elapsed count,
    lengthText (get plan "agents") = Returned count
    /\ Review.elapsed r = VString elapsed
    /\ Review.plan r = VObject plan
    /\ Review.status r = "done"
    /\ Review.agentLog r
       = (agentLog st
          ++ [("✓ Complete in " ++ elapsed ++ "s — " ++ count
               ++ " agents ran")%string])%list.
Proof.
  unfold step4. intros H. do 6 peel H. peel H.
  apply ret_Returned in H as [-> _].
  apply readLog_Returned in E5 as [-> ->].
  apply lift_Returned in E4 as [_ ->]. apply lift_Returned in E3 as [_ ->].
  apply lift_Returned in E0 as [E0 ->].
  unfold now in E. injection E as <- <-.
  pose proof (buildQueryParts_pure
                (decideNeedsHuman (answerResult s1) (conflictResult s2))
                c s1 s2 s3) as B.
  rewrite E2 in B. cbn [snd] in B. subst s4.
  unfold push in E1. injection E1 as _ <-.
  eexists. exists a0. cbn. repeat split. exact E0.
Qed.

(** X22: the frame of a review's log.  The log of every returned review
    opens with the Orchestrator's line for this question, so nothing of
    an earlier review is carried over.  The log of a completed review
    closes with the completion line, which reports the elapsed time of
    the review and the size of the plan's agent list, whether or not
    agents were forced or skipped.  The log of a failed review holds,
    after the opening line, the system-error line of the error that the
    query summary names. *)
Theorem review_log_frame q st r st' :
  reviewQuestion host q st = (Returned r, st') ->
  (Review.status r = "done"
   /\ exists middle elapsed plan items,
       Review.elapsed r = VString elapsed
       /\ Review.plan r = VObject plan
       /\ get plan "agents" = VArray items
       /\ Review.agentLog r
          = (openingLine q
             :: middle ++ [completionLine elapsed (List.length items)])%list)
  \/ (Review.status r = "error"
      /\ exists e rest,
          Review.queries r
          = "⚠ SYSTEM ERROR — needs human review: " ++ message e
          /\ Review.agentLog r = openingLine q :: rest
          /\ In (systemErrorLine e) rest).
Proof.
  intros H.
  apply reviewQuestion_cases in H as [H | (e & s & B & -> & _)].
  - left. unfold reviewBody in H. do 4 peel H.
    destruct (orchestrate_first q (startState st)) as [l0 L0].
    rewrite E in L0. cbn [snd] in L0.
    destruct (orchestrate_agents _ _ _ E) as [items I].
    apply lift_Returned in E0 as [_ ->].
    destruct (adds_log (@adds_run _ _ _ _ _ _ _
                          (@effect_step2 host anyLine any_line q a0) E1))
      as [l1 L1].
    destruct (adds_log (@adds_run _ _ _ _ _ _ _
                          (@effect_step3 q a a0 _ _) E2))
      as [l2 L2].
    apply step4_log in H
      as (elapsed & count & C & El & Pl & St & Lg).
    rewrite I in C. cbn [lengthText] in C. injection C as <-.
    split; [exact St|].
    exists (l0 ++ l1 ++ l2)%list, elapsed, a, items.
    repeat split; try assumption.
    rewrite Lg, L2, L1, L0. cbn [startState newLog snd agentLog List.app].
    unfold completionLine.
    now rewrite <- !List.app_assoc.
  - right. split; [reflexivity|].
    destruct (reviewBody_first q (Date_now host (calls st)) (startState st))
      as [rest R].
    rewrite B in R. cbn [snd] in R.
    exists e, (rest ++ [systemErrorLine e])%list.
    split; [reflexivity|]. split.
    + cbn [systemError Review.agentLog]. rewrite R. reflexivity.
    + apply in_or_app. right. now left.
Qed.
End LogFrame.

Lemma review_log_frame_witness :
  exists r st' middle elapsed,
    reviewQuestion Fixture.ratingOnly Fixture.settled Fixture.emptyState
    = (Returned r, st')
    /\ Review.agentLog r
       = (openingLine Fixture.settled
          :: middle ++ [completionLine elapsed 1])%list.
Proof.
  eassert (H : reviewQuestion Fixture.ratingOnly Fixture.settled
                 Fixture.emptyState = (Returned _, _)) by run.
  destruct (@review_log_frame _ _ _ _ _ H)
    as [(_ & middle & elapsed & plan & items & _ & P & I & L)
       | (S & _)].
  - eexists. eexists. exists middle, elapsed. split; [exact H|].
    injection P as <-. injection I as <-. exact L.
  - discriminate S.
Defined.

(* ------------------------------------------------------------------------- *)
(** ** The calls of the Explanation Critic and of the Conflict Analyzer *)

Section DependentCalls.
Variable host : Host.

(** X23: the two agents of the second round call the smart model of
    groq, once at most.  The Explanation Critic's call carries the final
    explanation, or the feedback when there is no final explanation, and
    is not made when both are empty; the Conflict Analyzer's call carries
    the verifier's answer and verdict as text, and is not made when one
    of them cannot be rendered. *)
Theorem second_round_calls q answer st :
  callsMade (explanationCritic host q) st
  = (if String.eqb (orElse (Question.finalExplanation q)
                           (Question.feedback q)) ""
     then []
     else [call (ExplanationPrompt q
                   (orElse (Question.finalExplanation q)
                           (Question.feedback q)))
                groq smart defaultTemperature])
  /\ callsMade (conflictAnalyzer host q answer) st
     = match toString host (get answer "correctAnswer"),
             toString host (get answer "verdict") with
       | Returned correctAnswer, Returned verdict =>
           [call (ConflictPrompt q correctAnswer verdict)
                 groq smart defaultTemperature]
       | _, _ => []
       end.
Proof.
  split.
  - unfold explanationCritic.
    assert (E : orElse (orElse (Question.finalExplanation q)
                               (Question.feedback q)) ""
                = orElse (Question.finalExplanation q) (Question.feedback q)).
    { unfold orElse at 1.
      destruct (String.eqb (orElse _ _) "") eqn:Z; [|reflexivity].
      apply String.eqb_eq in Z. now rewrite Z. }
    rewrite E.
    destruct (String.eqb (orElse (Question.finalExplanation q)
                                 (Question.feedback q)) "").
    + apply callsMade_eq. cbn. now rewrite List.app_nil_r.
    + unfold llm. apply pushed_call; intros; no_call.
  - destruct (toString host (get answer "correctAnswer")) as [a|e1] eqn:A.
    + destruct (toString host (get answer "verdict")) as [v|e2] eqn:V.
      * apply callsMade_eq. unfold conflictAnalyzer, llm.
        erewrite bind_run by apply push_run.
        erewrite bind_run by (apply str_run; exact A).
        erewrite bind_run by (apply str_run; exact V).
        rewrite guarded_call; [reflexivity| |]; intros; no_call.
      * apply callsMade_eq.
        rewrite (@conflictAnalyzer_fail host q answer st e2)
          by (right; split; [eauto | exact V]).
        cbn. now rewrite List.app_nil_r.
    + apply callsMade_eq.
      rewrite (@conflictAnalyzer_fail host q answer st e1) by (left; exact A).
      cbn. now rewrite List.app_nil_r.
Qed.
End DependentCalls.
